(** * VerilogAI front end: conversation store, action dispatcher and
      completion client of [frontend/script.js]

    The script keeps three module-level variables ([conversationHistory],
    [currentAction], [isSidebarOpen]), talks to [localStorage], to the DOM and
    to four HTTP endpoints, and is driven by browser events.  It is embedded
    here as state-passing code over a record [State]; exceptions are explicit
    results, and the [await]s of the [async] functions are explicit suspension
    points, at which any other event handler may run before the function is
    resumed. *)

From Stdlib Require Import ZArith Lia Bool Ascii String List DecimalString.
From stdpp Require Import base strings gmap.
Import ListNotations.

Local Open Scope string_scope.
Local Open Scope Z_scope.

(** ** JavaScript values

    The values the script handles are strings, the results of [JSON.parse]
    and of [response.json()], and the message objects it builds itself.
    Numbers are the integral ones; object properties are kept in insertion
    order. *)

#[warnings="-register-all"]
Inductive jsval : Type :=
| JUndefined
| JNull
| JBool (b : bool)
| JNum (n : Z)
| JStr (s : string)
| JArr (elems : list jsval)
| JObj (props : list (string * jsval)).

(** A thrown [Error] is represented by its [message]. *)
Inductive Exc (A : Type) : Type :=
| Ok (a : A)
| Throw (message : string).
Arguments Ok {A} a.
Arguments Throw {A} message.

(** [currentAction] holds one of four string constants. *)
Inductive action : Type := chat | debug | explain | generate.

(** Children of the [chatMessages] element: a rendered message block
    ([className] is ["message " ++ role], the avatar is the user icon when
    [role === 'user'], the content is the HTML produced by [marked.parse]) or
    the block with id [typing-indicator]. *)
Inductive node : Type :=
| MessageDiv (role : jsval) (user_avatar : bool) (html : string)
| TypingIndicator.

Record Request : Type := mkRequest {
  url : string;
  method : string;
  content_type : string;
  body : string
}.

Record Response : Type := mkResponse {
  status : nat
}.

(** [response.ok]: the status is in the range 200-299. *)
Definition response_ok (r : Response) : bool :=
  (200 <=? status r)%nat && (status r <=? 299)%nat.

Record State : Type := mkState {
  conversationHistory : jsval;
  currentAction : action;
  isSidebarOpen : bool;
  chatInput_value : string;
  chatMessages : list node;
  sidebar_open : bool;          (* 'open' in sidebar.classList *)
  sidebar_collapsed : bool;     (* 'collapsed' in sidebar.classList *)
  innerWidth : Z;               (* window.innerWidth *)
  localStorage : gmap string string;
  console_errors : list string; (* lines written by console.error *)
  confirm_dialogs : list string (* dialogs shown by confirm *)
}.

(** ** The environment of the script

    Built-ins and the [marked] library are not part of the repository; their
    behaviour is a parameter of the model. *)
Record Env : Type := mkEnv {
  JSON_stringify : jsval -> string;
  JSON_parse : string -> Exc jsval;
  (* marked.parse(content): the HTML, or the error it throws *)
  marked_parse : jsval -> Exc string;
  (* does localStorage.setItem(key, value) throw on this store? *)
  quota_exceeded : gmap string string -> string -> string -> bool;
  (* [x > n] for an [x] that is a string, an array or an object *)
  coerced_gt : jsval -> Z -> bool
}.

(** ** Suspended computations

    A handler runs until it returns, throws, or reaches an [await].  At an
    [await] it hands back the state it has produced and a continuation; the
    continuation is given the state as it is when the handler is resumed. *)
Inductive Step (A : Type) : Type :=
| Done (r : Exc A) (s : State)
| Fetch (req : Request) (s : State) (k : Exc Response -> State -> Step A)
| Json (resp : Response) (s : State) (k : Exc jsval -> State -> Step A)
| Tick (s : State) (k : State -> Step A).
Arguments Done {A} r s.
Arguments Fetch {A} req s k.
Arguments Json {A} resp s k.
Arguments Tick {A} s k.

Definition M (A : Type) : Type := State -> Step A.

Definition ret {A} (a : A) : M A := fun s => Done (Ok a) s.
Definition throw {A} (msg : string) : M A := fun s => Done (Throw msg) s.

Fixpoint bind_step {A B} (st : Step A) (f : A -> M B) : Step B :=
  match st with
  | Done (Ok a) s => f a s
  | Done (Throw e) s => Done (Throw e) s
  | Fetch req s k => Fetch req s (fun r s' => bind_step (k r s') f)
  | Json resp s k => Json resp s (fun r s' => bind_step (k r s') f)
  | Tick s k => Tick s (fun s' => bind_step (k s') f)
  end.

Definition bind {A B} (m : M A) (f : A -> M B) : M B :=
  fun s => bind_step (m s) f.

(** [try { m } catch (error) { h error.message }] *)
Fixpoint catch_step {A} (st : Step A) (h : string -> M A) : Step A :=
  match st with
  | Done (Ok a) s => Done (Ok a) s
  | Done (Throw e) s => h e s
  | Fetch req s k => Fetch req s (fun r s' => catch_step (k r s') h)
  | Json resp s k => Json resp s (fun r s' => catch_step (k r s') h)
  | Tick s k => Tick s (fun s' => catch_step (k s') h)
  end.

Definition try_catch {A} (m : M A) (h : string -> M A) : M A :=
  fun s => catch_step (m s) h.

(** [await] of the promise of an [async] function call: the callee runs, and
    once it has settled the caller is resumed in a later turn. *)
Fixpoint settle {A} (st : Step A) : Step A :=
  match st with
  | Done r s => Tick s (fun s' => Done r s')
  | Fetch req s k => Fetch req s (fun r s' => settle (k r s'))
  | Json resp s k => Json resp s (fun r s' => settle (k r s'))
  | Tick s k => Tick s (fun s' => settle (k s'))
  end.

Definition await_call {A} (m : M A) : M A := fun s => settle (m s).

(** [await fetch(url, init)] and [await response.json()]. *)
Definition await_fetch (req : Request) : M Response :=
  fun s => Fetch req s (fun r s' => Done r s').
Definition await_json (resp : Response) : M jsval :=
  fun s => Json resp s (fun r s' => Done r s').

Definition lift_exc {A} (r : Exc A) : M A := fun s => Done r s.
Definition get_state : M State := fun s => Done (Ok s) s.
Definition modify (f : State -> State) : M unit := fun s => Done (Ok tt) (f s).

Notation "'let*' x ':=' m 'in' k" := (bind m (fun x => k))
  (at level 10, x name, m at level 100, k at level 200).
Notation "m >> k" := (bind m (fun _ => k))
  (at level 100, k at level 200, right associativity).

(** ** Strings and values *)

(** White space removed by [String.prototype.trim], among the code units
    below 256: TAB, LF, VT, FF, CR, SPACE and NBSP. *)
Definition is_whitespace (c : ascii) : bool :=
  let n := nat_of_ascii c in
  ((9 <=? n)%nat && (n <=? 13)%nat) || (n =? 32)%nat || (n =? 160)%nat.

Fixpoint trim_start (s : string) : string :=
  match s with
  | String c rest => if is_whitespace c then trim_start rest else s
  | EmptyString => EmptyString
  end.

(** [trim_end] drops the trailing white space: a character is kept when
    something that is not white space follows it or it is not white space. *)
Fixpoint trim_end (s : string) : string :=
  match s with
  | String c rest =>
      match trim_end rest with
      | EmptyString => if is_whitespace c then EmptyString else String c EmptyString
      | rest' => String c rest'
      end
  | EmptyString => EmptyString
  end.

Definition trim (s : string) : string := trim_end (trim_start s).

(** The string is empty or holds white space only. *)
Fixpoint all_whitespace (s : string) : bool :=
  match s with
  | String c rest => is_whitespace c && all_whitespace rest
  | EmptyString => true
  end.

(** A string is falsy exactly when it is empty. *)
Definition is_empty (s : string) : bool :=
  match s with EmptyString => true | _ => false end.

(** Decimal rendering of a number inside a template literal. *)
Definition decimal (n : nat) : string := NilZero.string_of_uint (Nat.to_uint n).

Fixpoint lookup_prop (props : list (string * jsval)) (key : string) : option jsval :=
  match props with
  | [] => None
  | (k, v) :: rest => if String.eqb k key then Some v else lookup_prop rest key
  end.

Definition cannot_read (what key : string) : string :=
  "Cannot read properties of " ++ what ++ " (reading '" ++ key ++ "')".

(** [v.key] for a key that no prototype defines ([role], [content],
    [reply]): the object's own property, [undefined] on other values, a
    [TypeError] on [null] and [undefined]. *)
Definition get_prop (v : jsval) (key : string) : Exc jsval :=
  match v with
  | JUndefined => Throw (cannot_read "undefined" key)
  | JNull => Throw (cannot_read "null" key)
  | JObj props =>
      match lookup_prop props key with
      | Some x => Ok x
      | None => Ok JUndefined
      end
  | _ => Ok JUndefined
  end.

(** [conversationHistory.push(x)]: only an array has [push]. *)
Definition array_push (v x : jsval) : Exc jsval :=
  match v with
  | JArr elems => Ok (JArr (elems ++ [x]))
  | JUndefined => Throw (cannot_read "undefined" "push")
  | JNull => Throw (cannot_read "null" "push")
  | _ => Throw "conversationHistory.push is not a function"
  end.

Fixpoint string_removelast (s : string) : string :=
  match s with
  | EmptyString => EmptyString
  | String c EmptyString => EmptyString
  | String c rest => String c (string_removelast rest)
  end.

(** [conversationHistory.slice(0, -1)]: arrays and strings have [slice]. *)
Definition slice_0_minus1 (v : jsval) : Exc jsval :=
  match v with
  | JArr elems => Ok (JArr (removelast elems))
  | JStr s => Ok (JStr (string_removelast s))
  | JUndefined => Throw (cannot_read "undefined" "slice")
  | JNull => Throw (cannot_read "null" "slice")
  | _ => Throw "conversationHistory.slice is not a function"
  end.

Section Script.

Context (env : Env).

(** [x > n] for a number [n]; [undefined] converts to [NaN], [null] to 0,
    [true] to 1. *)
Definition js_gt (x : jsval) (n : Z) : bool :=
  match x with
  | JNum z => n <? z
  | JUndefined => false
  | JNull => n <? 0
  | JBool b => n <? (if b then 1 else 0)
  | _ => coerced_gt env x n
  end.

(** [conversationHistory.length > 1] *)
Definition length_gt_1 (v : jsval) : Exc bool :=
  match v with
  | JArr elems => Ok (1 <? Z.of_nat (List.length elems))
  | JStr s => Ok (1 <? Z.of_nat (String.length s))
  | JUndefined => Throw (cannot_read "undefined" "length")
  | JNull => Throw (cannot_read "null" "length")
  | JObj props =>
      match lookup_prop props "length" with
      | Some x => Ok (js_gt x 1)
      | None => Ok false
      end
  | _ => Ok false
  end.

(** ** Configuration and state updates *)

Definition API_BASE : string := "http://127.0.0.1:8000".
Definition STORAGE_KEY : string := "verilogai_conversation".

Definition set_conversationHistory (h : jsval) (s : State) : State :=
  mkState h (currentAction s) (isSidebarOpen s) (chatInput_value s)
    (chatMessages s) (sidebar_open s) (sidebar_collapsed s) (innerWidth s)
    (localStorage s) (console_errors s) (confirm_dialogs s).

Definition set_currentAction (a : action) (s : State) : State :=
  mkState (conversationHistory s) a (isSidebarOpen s) (chatInput_value s)
    (chatMessages s) (sidebar_open s) (sidebar_collapsed s) (innerWidth s)
    (localStorage s) (console_errors s) (confirm_dialogs s).

Definition set_chatInput_value (v : string) (s : State) : State :=
  mkState (conversationHistory s) (currentAction s) (isSidebarOpen s) v
    (chatMessages s) (sidebar_open s) (sidebar_collapsed s) (innerWidth s)
    (localStorage s) (console_errors s) (confirm_dialogs s).

Definition set_chatMessages (c : list node) (s : State) : State :=
  mkState (conversationHistory s) (currentAction s) (isSidebarOpen s)
    (chatInput_value s) c (sidebar_open s) (sidebar_collapsed s) (innerWidth s)
    (localStorage s) (console_errors s) (confirm_dialogs s).

Definition set_sidebar (is_open cls_open cls_collapsed : bool) (s : State) : State :=
  mkState (conversationHistory s) (currentAction s) is_open
    (chatInput_value s) (chatMessages s) cls_open cls_collapsed (innerWidth s)
    (localStorage s) (console_errors s) (confirm_dialogs s).

Definition set_innerWidth (w : Z) (s : State) : State :=
  mkState (conversationHistory s) (currentAction s) (isSidebarOpen s)
    (chatInput_value s) (chatMessages s) (sidebar_open s) (sidebar_collapsed s) w
    (localStorage s) (console_errors s) (confirm_dialogs s).

Definition set_localStorage (m : gmap string string) (s : State) : State :=
  mkState (conversationHistory s) (currentAction s) (isSidebarOpen s)
    (chatInput_value s) (chatMessages s) (sidebar_open s) (sidebar_collapsed s)
    (innerWidth s) m (console_errors s) (confirm_dialogs s).

Definition log_console_error (line : string) (s : State) : State :=
  mkState (conversationHistory s) (currentAction s) (isSidebarOpen s)
    (chatInput_value s) (chatMessages s) (sidebar_open s) (sidebar_collapsed s)
    (innerWidth s) (localStorage s) (console_errors s ++ [line]) (confirm_dialogs s).

Definition log_confirm (question : string) (s : State) : State :=
  mkState (conversationHistory s) (currentAction s) (isSidebarOpen s)
    (chatInput_value s) (chatMessages s) (sidebar_open s) (sidebar_collapsed s)
    (innerWidth s) (localStorage s) (console_errors s) (confirm_dialogs s ++ [question]).

(** ** Browser interfaces *)

(** [localStorage.setItem(key, value)] *)
Definition localStorage_setItem (key value : string) : M unit :=
  fun s =>
    if quota_exceeded env (localStorage s) key value
    then Done (Throw "The quota has been exceeded.") s
    else Done (Ok tt) (set_localStorage (<[key:=value]> (localStorage s)) s).

(** [JSON.stringify(v)] passed to [setItem]: [JSON.stringify(undefined)]
    is [undefined], which [setItem] stores as the string ["undefined"]. *)
Definition stringify_for_storage (v : jsval) : string :=
  match v with
  | JUndefined => "undefined"
  | _ => JSON_stringify env v
  end.

(** [console.error(label, error)] *)
Definition console_error (label message : string) : M unit :=
  modify (log_console_error (label ++ " " ++ message)).

(** [v.forEach(f)]: only an array has [forEach]. *)
Fixpoint for_each (elems : list jsval) (f : jsval -> M unit) : M unit :=
  match elems with
  | [] => ret tt
  | x :: rest => f x >> for_each rest f
  end.

Definition forEach (v : jsval) (f : jsval -> M unit) : M unit :=
  match v with
  | JArr elems => for_each elems f
  | JUndefined => throw (cannot_read "undefined" "forEach")
  | JNull => throw (cannot_read "null" "forEach")
  | _ => throw "conversationHistory.forEach is not a function"
  end.

(** [msg.role === 'user'] *)
Definition is_user (role : jsval) : bool :=
  match role with
  | JStr r => String.eqb r "user"
  | _ => false
  end.

(** ** The script *)

(** [scrollToBottom] assigns [chatMessages.scrollTop]; the scroll position
    is layout, which the model does not carry. *)
Definition scrollToBottom : M unit := ret tt.

Definition saveConversation : M unit :=
  let* s := get_state in
  localStorage_setItem STORAGE_KEY (stringify_for_storage (conversationHistory s)).

(** The body of the [forEach] callback of [renderMessages].  The copy
    toolbar it adds to the code blocks lives inside the rendered content. *)
Definition render_message (msg : jsval) : M unit :=
  let* role := lift_exc (get_prop msg "role") in
  let* content := lift_exc (get_prop msg "content") in
  let* html := lift_exc (marked_parse env content) in
  modify (fun s => set_chatMessages (chatMessages s ++ [MessageDiv role (is_user role) html]) s).

Definition renderMessages : M unit :=
  modify (set_chatMessages []) >>
  let* s := get_state in
  forEach (conversationHistory s) render_message >>
  scrollToBottom.

Definition message_object (role content : jsval) : jsval :=
  JObj [("role", role); ("content", content)].

Definition addMessage (role content : jsval) : M unit :=
  let* s := get_state in
  let* h := lift_exc (array_push (conversationHistory s) (message_object role content)) in
  modify (set_conversationHistory h) >>
  saveConversation >>
  renderMessages >>
  scrollToBottom.

Definition showTypingIndicator : M unit :=
  modify (fun s => set_chatMessages (chatMessages s ++ [TypingIndicator]) s) >>
  scrollToBottom.

(** [document.getElementById('typing-indicator')] is the first such block. *)
Fixpoint remove_first_typing (nodes : list node) : list node :=
  match nodes with
  | [] => []
  | TypingIndicator :: rest => rest
  | n :: rest => n :: remove_first_typing rest
  end.

Definition removeTypingIndicator : M unit :=
  modify (fun s => set_chatMessages (remove_first_typing (chatMessages s)) s).

Definition json_request (endpoint : string) (payload : jsval) : Request :=
  mkRequest (API_BASE ++ endpoint) "POST" "application/json" (JSON_stringify env payload).

Definition http_error (response : Response) : string :=
  "HTTP error! status: " ++ decimal (status response).

Definition handleChatRequest (message : string) : M jsval :=
  let* s := get_state in
  let* history := lift_exc (slice_0_minus1 (conversationHistory s)) in
  let* response := await_fetch
    (json_request "/chat" (JObj [("prompt", JStr message); ("history", history)])) in
  if negb (response_ok response) then throw (http_error response) else
  let* data := await_json response in
  lift_exc (get_prop data "reply").

Definition handleDebugRequest (message : string) : M jsval :=
  let* response := await_fetch (json_request "/debug" (JObj [("code", JStr message)])) in
  if negb (response_ok response) then throw (http_error response) else
  let* data := await_json response in
  lift_exc (get_prop data "reply").

Definition handleExplainRequest (message : string) : M jsval :=
  let* response := await_fetch (json_request "/explain" (JObj [("code", JStr message)])) in
  if negb (response_ok response) then throw (http_error response) else
  let* data := await_json response in
  lift_exc (get_prop data "reply").

Definition handleGenerateRequest (message : string) : M jsval :=
  let* response := await_fetch (json_request "/generate" (JObj [("spec", JStr message)])) in
  if negb (response_ok response) then throw (http_error response) else
  let* data := await_json response in
  lift_exc (get_prop data "reply").

(** [handleSend]; clearing the input also resets its height and focuses
    it, which the model does not carry. *)
Definition handleSend : M unit :=
  let* s0 := get_state in
  let message := trim (chatInput_value s0) in
  if is_empty message then ret tt else
  addMessage (JStr "user") (JStr message) >>
  modify (set_chatInput_value EmptyString) >>
  showTypingIndicator >>
  try_catch
    (let* s := get_state in
     let* response :=
       match currentAction s with
       | debug => await_call (handleDebugRequest message)
       | explain => await_call (handleExplainRequest message)
       | generate => await_call (handleGenerateRequest message)
       | chat => await_call (handleChatRequest message)
       end in
     removeTypingIndicator >>
     addMessage (JStr "assistant") response)
    (fun error_message =>
       removeTypingIndicator >>
       addMessage (JStr "assistant") (JStr ("Error: " ++ error_message))) >>
  modify (set_currentAction chat).

Definition closeSidebar : M unit :=
  let* s := get_state in
  if innerWidth s <=? 768
  then modify (set_sidebar false false (sidebar_collapsed s))
  else ret tt.

Definition toggleSidebar : M unit :=
  let* s := get_state in
  if innerWidth s <=? 768
  then modify (set_sidebar (negb (isSidebarOpen s)) (negb (sidebar_open s)) (sidebar_collapsed s))
  else ret tt.

Definition checkMobileView : M unit :=
  let* s := get_state in
  if innerWidth s <=? 768
  then modify (set_sidebar false (sidebar_open s) true)
  else modify (set_sidebar true (sidebar_open s) false).

Definition CONFIRM_QUESTION : string :=
  "Start a new chat? Current conversation will be cleared.".

(** [confirm(question)]: the dialog is shown and the user answers. *)
Definition confirm (question : string) (answer : bool) : M bool :=
  modify (log_confirm question) >> ret answer.

(** [startNewChat]; [answer] is what the user replies if asked. *)
Definition startNewChat (answer : bool) : M unit :=
  let* s := get_state in
  let* long := lift_exc (length_gt_1 (conversationHistory s)) in
  let* cancelled :=
    (if long then let* confirmed := confirm CONFIRM_QUESTION answer in ret (negb confirmed)
     else ret false) in
  if cancelled then ret tt else
  modify (set_conversationHistory (JArr [])) >>
  saveConversation >>
  renderMessages >>
  closeSidebar.

Definition loadConversation : M unit :=
  let* s := get_state in
  match localStorage s !! STORAGE_KEY with
  | Some saved =>
      if is_empty saved then ret tt else
      try_catch
        (let* parsed := lift_exc (JSON_parse env saved) in
         modify (set_conversationHistory parsed) >>
         renderMessages)
        (fun error_message => console_error "Error loading conversation:" error_message)
  | None => ret tt
  end.

(** ** Event listeners *)

Definition sendBtn_click : M unit := handleSend.

(** [keydown] on the input: Enter without Shift sends. *)
Definition chatInput_keydown (key : string) (shiftKey : bool) : M unit :=
  if String.eqb key "Enter" && negb shiftKey then handleSend else ret tt.

Definition debugBtn_click : M unit :=
  modify (set_currentAction debug) >> handleSend.

Definition explainBtn_click : M unit :=
  modify (set_currentAction explain) >> handleSend.

Definition generateBtn_click : M unit :=
  modify (set_currentAction generate) >> handleSend.

Definition newChatBtn_click (answer : bool) : M unit := startNewChat answer.

(** Click anywhere in the document; [outside] tells whether the target is
    neither inside the sidebar nor the toggle. *)
Definition document_click (outside : bool) : M unit :=
  let* s := get_state in
  if isSidebarOpen s && (innerWidth s <=? 768)
  then (if outside then closeSidebar else ret tt)
  else ret tt.

Definition window_resize (width : Z) : M unit :=
  modify (set_innerWidth width) >> checkMobileView.

(** [DOMContentLoaded] *)
Definition DOMContentLoaded : M unit :=
  loadConversation >> checkMobileView.

End Script.

(** The page as the browser loads it, with the stored data of the origin
    and the width of the window. *)
Definition fresh_page (storage : gmap string string) (width : Z) : State :=
  mkState (JArr []) chat false EmptyString [] false false width storage [] [].

(** ** Running a suspended handler

    [run st answers] resumes [st] with the given answers, each time in the
    state in which it was suspended (nothing else happens in between). *)
Inductive answer : Type :=
| FetchSettled (r : Exc Response)
| BodySettled (r : Exc jsval)
| NextTurn.

Fixpoint run {A} (st : Step A) (answers : list answer) : Step A :=
  match answers with
  | [] => st
  | a :: rest =>
      match a, st with
      | FetchSettled r, Fetch _ s k => run (k r s) rest
      | BodySettled r, Json _ s k => run (k r s) rest
      | NextTurn, Tick s k => run (k s) rest
      | _, _ => st
      end
  end.

(** ** Sessions: the page, the suspended handlers and the events

    Between two turns of a suspended handler any event may be handled. *)
Inductive pending : Type :=
| PFetch (req : Request) (k : Exc Response -> State -> Step unit)
| PJson (resp : Response) (k : Exc jsval -> State -> Step unit)
| PTick (k : State -> Step unit).

Record Session : Type := mkSession {
  page : State;
  pool : list pending;
  sent : list Request
}.

Inductive event : Type :=
| UserTypes (text : string)
| ClickSend
| KeyDown (key : string) (shiftKey : bool)
| ClickDebug
| ClickExplain
| ClickGenerate
| ClickNewChat (answer : bool)
| ClickSidebarToggle
| ClickDocument (outside : bool)
| Resize (width : Z)
| FetchReturns (i : nat) (r : Exc Response)
| BodyReturns (i : nat) (r : Exc jsval)
| Resumes (i : nat).

(** The outcome of one turn: the page as the turn leaves it, and the
    handler joins the pool if it is suspended.  An exception that escapes a
    handler is reported by the browser and the page goes on. *)
Definition install (st : Step unit) (waiting : list pending) (log : list Request) : Session :=
  match st with
  | Done _ s => mkSession s waiting log
  | Fetch req s k => mkSession s (waiting ++ [PFetch req k]) (log ++ [req])
  | Json resp s k => mkSession s (waiting ++ [PJson resp k]) log
  | Tick s k => mkSession s (waiting ++ [PTick k]) log
  end.

Fixpoint remove_nth {A} (i : nat) (l : list A) : list A :=
  match i, l with
  | _, [] => []
  | O, _ :: rest => rest
  | S j, x :: rest => x :: remove_nth j rest
  end.

Definition handle (env : Env) (ev : event) (ss : Session) : Session :=
  let ui (m : M unit) := install (m (page ss)) (pool ss) (sent ss) in
  let resume (i : nat) (turn : pending -> option (Step unit)) :=
    match nth_error (pool ss) i with
    | Some p =>
        match turn p with
        | Some st => install st (remove_nth i (pool ss)) (sent ss)
        | None => ss
        end
    | None => ss
    end in
  match ev with
  | UserTypes text => ui (modify (set_chatInput_value text))
  | ClickSend => ui (sendBtn_click env)
  | KeyDown key shiftKey => ui (chatInput_keydown env key shiftKey)
  | ClickDebug => ui (debugBtn_click env)
  | ClickExplain => ui (explainBtn_click env)
  | ClickGenerate => ui (generateBtn_click env)
  | ClickNewChat answer => ui (newChatBtn_click env answer)
  | ClickSidebarToggle => ui toggleSidebar
  | ClickDocument outside => ui (document_click outside)
  | Resize width => ui (window_resize width)
  | FetchReturns i r =>
      resume i (fun p => match p with PFetch _ k => Some (k r (page ss)) | _ => None end)
  | BodyReturns i r =>
      resume i (fun p => match p with PJson _ k => Some (k r (page ss)) | _ => None end)
  | Resumes i =>
      resume i (fun p => match p with PTick k => Some (k (page ss)) | _ => None end)
  end.

(** The session once the page has loaded. *)
Definition loaded (env : Env) (storage : gmap string string) (width : Z) : Session :=
  install (DOMContentLoaded env (fresh_page storage width)) [] [].

Inductive reachable (env : Env) : Session -> Prop :=
| reachable_loaded storage width : reachable env (loaded env storage width)
| reachable_handle ss ev : reachable env ss -> reachable env (handle env ev ss).

(** ** A concrete environment

    [JSON.stringify] and [JSON.parse] on the values of [jsval], a stand-in
    for [marked] that wraps text in a paragraph and, like [marked], refuses
    anything that is not a string, and a store with an optional quota. *)
Module Browser.

Definition dquote : ascii := ascii_of_nat 34.
Definition backslash : ascii := ascii_of_nat 92.

Definition hex_digit (n : nat) : ascii :=
  nth n ["0"; "1"; "2"; "3"; "4"; "5"; "6"; "7"; "8"; "9"; "a"; "b"; "c"; "d"; "e"; "f"]%char "0"%char.

Definition escape (c : ascii) : string :=
  let n := nat_of_ascii c in
  if (n =? 34)%nat then String backslash (String dquote EmptyString)
  else if (n =? 92)%nat then String backslash (String backslash EmptyString)
  else if (n =? 8)%nat then String backslash "b"
  else if (n =? 9)%nat then String backslash "t"
  else if (n =? 10)%nat then String backslash "n"
  else if (n =? 12)%nat then String backslash "f"
  else if (n =? 13)%nat then String backslash "r"
  else if (n <? 32)%nat
       then String backslash
              (String "u" (String "0" (String "0"
                 (String (hex_digit (n / 16)) (String (hex_digit (n mod 16)) EmptyString)))))
  else String c EmptyString.

Fixpoint escape_all (s : string) : string :=
  match s with
  | EmptyString => EmptyString
  | String c rest => escape c ++ escape_all rest
  end.

Definition quote (s : string) : string :=
  String dquote (escape_all s ++ String dquote EmptyString).

Definition number_to_string (z : Z) : string :=
  if z <? 0 then "-" ++ decimal (Z.abs_nat z) else decimal (Z.abs_nat z).

Fixpoint join (sep : string) (parts : list string) : string :=
  match parts with
  | [] => EmptyString
  | [x] => x
  | x :: rest => x ++ sep ++ join sep rest
  end.

(** [JSON.stringify]: [None] stands for the result [undefined]; an
    [undefined] element of an array is written [null], an [undefined]
    property is left out. *)
Fixpoint stringify_value (v : jsval) : option string :=
  match v with
  | JUndefined => None
  | JNull => Some "null"
  | JBool true => Some "true"
  | JBool false => Some "false"
  | JNum z => Some (number_to_string z)
  | JStr s => Some (quote s)
  | JArr elems =>
      Some ("[" ++ join "," (map (fun x => default "null" (stringify_value x)) elems) ++ "]")
  | JObj props =>
      Some ("{" ++ join ","
              ((fix members (ps : list (string * jsval)) : list string :=
                  match ps with
                  | [] => []
                  | (k, x) :: rest =>
                      match stringify_value x with
                      | Some text => (quote k ++ ":" ++ text) :: members rest
                      | None => members rest
                      end
                  end) props) ++ "}")
  end.

Definition stringify (v : jsval) : string := default "undefined" (stringify_value v).

(** The text written for a message whose role and content are strings. *)
Definition message_text (m : string * string) : string :=
  "{" ++ quote "role" ++ ":" ++ quote (fst m) ++ ","
      ++ quote "content" ++ ":" ++ quote (snd m) ++ "}".

Definition is_json_space (c : ascii) : bool :=
  let n := nat_of_ascii c in
  (n =? 32)%nat || (n =? 9)%nat || (n =? 10)%nat || (n =? 13)%nat.

Fixpoint skip_space (s : string) : string :=
  match s with
  | String c rest => if is_json_space c then skip_space rest else s
  | EmptyString => EmptyString
  end.

Definition digit_value (c : ascii) : option nat :=
  let n := nat_of_ascii c in
  if (48 <=? n)%nat && (n <=? 57)%nat then Some (n - 48)%nat else None.

Definition is_digit (c : ascii) : bool :=
  match digit_value c with Some _ => true | None => false end.

Definition hex_value (c : ascii) : option nat :=
  let n := nat_of_ascii c in
  if (48 <=? n)%nat && (n <=? 57)%nat then Some (n - 48)%nat
  else if (97 <=? n)%nat && (n <=? 102)%nat then Some (n - 87)%nat
  else if (65 <=? n)%nat && (n <=? 70)%nat then Some (n - 55)%nat
  else None.

Definition unescape (c : ascii) : option ascii :=
  let n := nat_of_ascii c in
  if (n =? 34)%nat then Some dquote
  else if (n =? 92)%nat then Some backslash
  else if (n =? 47)%nat then Some "/"%char
  else if (n =? 98)%nat then Some (ascii_of_nat 8)
  else if (n =? 116)%nat then Some (ascii_of_nat 9)
  else if (n =? 110)%nat then Some (ascii_of_nat 10)
  else if (n =? 102)%nat then Some (ascii_of_nat 12)
  else if (n =? 114)%nat then Some (ascii_of_nat 13)
  else None.

(** The characters of a string literal after its opening quote, and what
    follows the closing quote.  Code units above 255 are outside the
    model. *)
Fixpoint parse_string (s : string) : option (string * string) :=
  match s with
  | EmptyString => None
  | String c rest =>
      if (nat_of_ascii c =? 34)%nat then Some (EmptyString, rest)
      else if (nat_of_ascii c =? 92)%nat then
        match rest with
        | String "u" (String h1 (String h2 (String h3 (String h4 rest')))) =>
            match hex_value h1, hex_value h2, hex_value h3, hex_value h4 with
            | Some 0%nat, Some 0%nat, Some a, Some b =>
                match parse_string rest' with
                | Some (text, after) => Some (String (ascii_of_nat (16 * a + b)) text, after)
                | None => None
                end
            | _, _, _, _ => None
            end
        | String e rest' =>
            match unescape e, parse_string rest' with
            | Some x, Some (text, after) => Some (String x text, after)
            | _, _ => None
            end
        | EmptyString => None
        end
      else if (nat_of_ascii c <? 32)%nat then None
      else
        match parse_string rest with
        | Some (text, after) => Some (String c text, after)
        | None => None
        end
  end.

Fixpoint parse_digits (acc : nat) (s : string) : nat * string :=
  match s with
  | String c rest =>
      match digit_value c with
      | Some d => parse_digits (10 * acc + d) rest
      | None => (acc, s)
      end
  | EmptyString => (acc, s)
  end.

(** An integer literal; a fraction or an exponent is outside the model. *)
Definition parse_natural (s : string) : option (nat * string) :=
  match s with
  | String c rest =>
      match digit_value c with
      | Some O =>
          match rest with
          | String d _ =>
              if is_digit d then None else Some (O, rest)
          | EmptyString => Some (O, rest)
          end
      | Some d => Some (parse_digits d rest)
      | None => None
      end
  | EmptyString => None
  end.

Definition integral (res : option (nat * string)) : option (nat * string) :=
  match res with
  | Some (n, String c rest) =>
      if (c =? ".")%char || (c =? "e")%char || (c =? "E")%char then None
      else Some (n, String c rest)
  | other => other
  end.

Fixpoint strip_prefix (prefix s : string) : option string :=
  match prefix, s with
  | EmptyString, _ => Some s
  | String a p, String b rest => if (a =? b)%char then strip_prefix p rest else None
  | String _ _, EmptyString => None
  end.

(** A later member with the same key replaces the value of the earlier. *)
Fixpoint set_prop (props : list (string * jsval)) (key : string) (v : jsval) : list (string * jsval) :=
  match props with
  | [] => [(key, v)]
  | (k, x) :: rest => if String.eqb k key then (k, v) :: rest else (k, x) :: set_prop rest key v
  end.

Fixpoint parse_value (fuel : nat) (s : string) : option (jsval * string) :=
  match fuel with
  | O => None
  | S fuel' =>
      match skip_space s with
      | EmptyString => None
      | String c rest =>
          let n := nat_of_ascii c in
          if (n =? 34)%nat then
            match parse_string rest with
            | Some (text, after) => Some (JStr text, after)
            | None => None
            end
          else if (n =? 91)%nat then
            match skip_space rest with
            | String "]" after => Some (JArr [], after)
            | _ =>
                match parse_elements fuel' rest with
                | Some (elems, after) => Some (JArr elems, after)
                | None => None
                end
            end
          else if (n =? 123)%nat then
            match skip_space rest with
            | String "}" after => Some (JObj [], after)
            | _ =>
                match parse_members fuel' [] rest with
                | Some (props, after) => Some (JObj props, after)
                | None => None
                end
            end
          else if (n =? 45)%nat then
            match integral (parse_natural rest) with
            | Some (m, after) => Some (JNum (- Z.of_nat m), after)
            | None => None
            end
          else if is_digit c then
            match integral (parse_natural (String c rest)) with
            | Some (m, after) => Some (JNum (Z.of_nat m), after)
            | None => None
            end
          else
            match strip_prefix "null" (String c rest) with
            | Some after => Some (JNull, after)
            | None =>
                match strip_prefix "true" (String c rest) with
                | Some after => Some (JBool true, after)
                | None =>
                    match strip_prefix "false" (String c rest) with
                    | Some after => Some (JBool false, after)
                    | None => None
                    end
                end
            end
      end
  end
with parse_elements (fuel : nat) (s : string) : option (list jsval * string) :=
  match fuel with
  | O => None
  | S fuel' =>
      match parse_value fuel' s with
      | Some (v, after) =>
          match skip_space after with
          | String "," more =>
              match parse_elements fuel' more with
              | Some (vs, final) => Some (v :: vs, final)
              | None => None
              end
          | String "]" final => Some ([v], final)
          | _ => None
          end
      | None => None
      end
  end
with parse_members (fuel : nat) (acc : list (string * jsval)) (s : string)
  : option (list (string * jsval) * string) :=
  match fuel with
  | O => None
  | S fuel' =>
      match skip_space s with
      | String c rest =>
          if (nat_of_ascii c =? 34)%nat then
            match parse_string rest with
            | Some (key, after_key) =>
                match skip_space after_key with
                | String ":" after_colon =>
                    match parse_value fuel' after_colon with
                    | Some (v, after) =>
                        match skip_space after with
                        | String "," more => parse_members fuel' (set_prop acc key v) more
                        | String "}" final => Some (set_prop acc key v, final)
                        | _ => None
                        end
                    | None => None
                    end
                | _ => None
                end
            | None => None
            end
          else None
      | EmptyString => None
      end
  end.

Definition parse (s : string) : Exc jsval :=
  match parse_value (2 * String.length s + 2) s with
  | Some (v, after) =>
      match skip_space after with
      | EmptyString => Ok v
      | _ => Throw "Unexpected non-whitespace character after JSON"
      end
  | None =>
      match skip_space s with
      | EmptyString => Throw "Unexpected end of JSON input"
      | _ => Throw "Unexpected token in JSON"
      end
  end.

Definition marked (content : jsval) : Exc string :=
  match content with
  | JStr text => Ok ("<p>" ++ text ++ "</p>")
  | JUndefined | JNull => Throw "marked(): input parameter is undefined or null"
  | _ => Throw "marked(): input parameter is not a string"
  end.

(** [x > n] for a string that is a decimal numeral; other strings, arrays
    and objects are taken to convert to [NaN]. *)
Definition numeral_gt (x : jsval) (n : Z) : bool :=
  match x with
  | JStr text =>
      match parse_natural text with
      | Some (m, EmptyString) => n <? Z.of_nat m
      | _ => false
      end
  | _ => false
  end.

(** The store refuses a write when the key and the value together are
    longer than the quota. *)
Definition over_quota (quota : option nat) (store : gmap string string) (key value : string) : bool :=
  match quota with
  | Some q => (q <? String.length key + String.length value)%nat
  | None => false
  end.

Definition with_quota (quota : option nat) : Env :=
  mkEnv stringify parse marked (over_quota quota) numeral_gt.

Definition env : Env := with_quota None.

End Browser.

(** * Vocabulary of the properties *)

(** ** Normal operation of the environment and of the page *)

(** [marked.parse] accepts the value. *)
Definition renders (env : Env) (v : jsval) : Prop :=
  exists html, marked_parse env v = Ok html.

Definition renders_text (env : Env) : Prop := forall text, renders env (JStr text).

(** [localStorage.setItem] never throws. *)
Definition storage_reliable (env : Env) : Prop :=
  forall store key value, quota_exceeded env store key value = false.

(** A message as [addMessage] builds it, with a content that can be shown. *)
Definition displayable (env : Env) (m : jsval) : Prop :=
  exists role content, m = message_object role content /\ renders env content.

(** The history is an array of such messages. *)
Definition healthy (env : Env) (s : State) : Prop :=
  exists l, conversationHistory s = JArr l /\ Forall (displayable env) l.

(** The body of a response: if it is read and has a [reply], the reply
    can be shown. *)
Definition reply_renders (env : Env) (r : Exc jsval) : Prop :=
  forall data v, r = Ok data -> get_prop data "reply" = Ok v -> renders env v.

(** The page after [addMessage] has run to its end on the history [l]. *)
Definition appended (env : Env) (m : jsval) (l : list jsval) (nodes : list node) (s : State) : State :=
  set_chatMessages nodes
    (set_localStorage
       (<[STORAGE_KEY := JSON_stringify env (JArr (l ++ [m]))]> (localStorage s))
       (set_conversationHistory (JArr (l ++ [m])) s)).

(** ** The two halves of a send *)

(** The request each mode posts for [message], [prior] being the history
    sent along in chat mode. *)
Definition mode_request (env : Env) (a : action) (message : string) (prior : jsval) : Request :=
  match a with
  | chat => json_request env "/chat" (JObj [("prompt", JStr message); ("history", prior)])
  | debug => json_request env "/debug" (JObj [("code", JStr message)])
  | explain => json_request env "/explain" (JObj [("code", JStr message)])
  | generate => json_request env "/generate" (JObj [("spec", JStr message)])
  end.

(** The operation of each mode and the control that selects it. *)
Definition mode_operation (env : Env) (a : action) (message : string) : M jsval :=
  match a with
  | chat => handleChatRequest env message
  | debug => handleDebugRequest env message
  | explain => handleExplainRequest env message
  | generate => handleGenerateRequest env message
  end.


(** What the four request handlers do once [fetch] has settled. *)
Definition receive (r : Exc Response) : M jsval :=
  let* response := lift_exc r in
  if negb (response_ok response) then throw (http_error response) else
  let* data := await_json response in
  lift_exc (get_prop data "reply").

(** What [handleSend] does once [fetch] has settled. *)
Definition after_fetch (env : Env) (r : Exc Response) : M unit :=
  try_catch
    (let* response := await_call (receive r) in
     removeTypingIndicator >>
     addMessage env (JStr "assistant") response)
    (fun error_message =>
       removeTypingIndicator >>
       addMessage env (JStr "assistant") (JStr ("Error: " ++ error_message))) >>
  modify (set_currentAction chat).

(** What [handleSend] does once [response.json()] has settled. *)
Definition after_body (env : Env) (b : Exc jsval) : M unit :=
  try_catch
    (let* response :=
       await_call (let* data := lift_exc b in lift_exc (get_prop data "reply")) in
     removeTypingIndicator >>
     addMessage env (JStr "assistant") response)
    (fun error_message =>
       removeTypingIndicator >>
       addMessage env (JStr "assistant") (JStr ("Error: " ++ error_message))) >>
  modify (set_currentAction chat).

(** The last turn of [handleSend]: the request handler has returned
    [response], or has thrown an error with [error_message]. *)
Definition show_reply (env : Env) (response : jsval) : M unit :=
  try_catch
    (removeTypingIndicator >>
     addMessage env (JStr "assistant") response)
    (fun error_message =>
       removeTypingIndicator >>
       addMessage env (JStr "assistant") (JStr ("Error: " ++ error_message))) >>
  modify (set_currentAction chat).

Definition show_error (env : Env) (error_message : string) : M unit :=
  (removeTypingIndicator >>
   addMessage env (JStr "assistant") (JStr ("Error: " ++ error_message))) >>
  modify (set_currentAction chat).

Definition user_message (message : string) : jsval :=
  message_object (JStr "user") (JStr message).

Definition assistant_message (content : jsval) : jsval :=
  message_object (JStr "assistant") content.

(** The request failed: [fetch] rejected, or the status is not a success. *)
Definition request_failed (r : Exc Response) : Prop :=
  match r with
  | Throw _ => True
  | Ok response => response_ok response = false
  end.

Definition failure_description (r : Exc Response) : string :=
  match r with
  | Throw message => message
  | Ok response => http_error response
  end.

(** The page when a failed send returns: the error message has been added
    to the history as it was when the send was resumed. *)
Definition error_appended (r : Exc Response) (s0 s : State) : Prop :=
  exists l,
    conversationHistory s0 = JArr l
    /\ conversationHistory s
       = JArr (l ++ [assistant_message (JStr ("Error: " ++ failure_description r))]).

(** ** Runs of a suspended handler *)

(** No path of the handler issues a request. *)
Inductive quiet {A} : Step A -> Prop :=
| quiet_done r s : quiet (Done r s)
| quiet_json resp s k : (forall r s', quiet (k r s')) -> quiet (Json resp s k)
| quiet_tick s k : (forall s', quiet (k s')) -> quiet (Tick s k).

(** [ends I B Q s0 st]: however the handler is resumed -- in a state with
    [I] and, when it waits for the body of the response, with an outcome
    with [B] -- it issues no request, and when it ends, by returning or by
    an exception that escapes it, [Q s' r s] holds of the result [r], the
    final state [s] and the state [s'] of the page when the handler was
    resumed for the last time ([s0] if it never was). *)
Inductive ends (I : State -> Prop) (B : Exc jsval -> Prop)
    (Q : State -> Exc unit -> State -> Prop) : State -> Step unit -> Prop :=
| ends_done s0 r s : Q s0 r s -> ends I B Q s0 (Done r s)
| ends_json s0 resp s k :
    (forall r s', B r -> I s' -> ends I B Q s' (k r s')) ->
    ends I B Q s0 (Json resp s k)
| ends_tick s0 s k :
    (forall s', I s' -> ends I B Q s' (k s')) ->
    ends I B Q s0 (Tick s k).

(** Under normal operation -- the page is healthy whenever the handler is
    resumed, and the reply can be shown -- the handler issues no request, no
    exception escapes it, and it returns with [Q s' s]. *)
Definition completes (env : Env) (Q : State -> State -> Prop) : State -> Step unit -> Prop :=
  ends (healthy env) (reply_renders env) (fun s0 r s => r = Ok tt /\ Q s0 s).

(** In any case -- whatever the page and the body are when the handler is
    resumed -- the handler issues no request, and if it returns, it does so
    with [Q s' s]. *)
Definition returns_with (Q : State -> State -> Prop) : State -> Step unit -> Prop :=
  ends (fun _ => True) (fun _ => True) (fun s0 r s => r = Ok tt -> Q s0 s).

(** The history is an array. *)
Definition has_array (s : State) : Prop :=
  exists l, conversationHistory s = JArr l.

(** [turns R s0 st]: every turn of the handler takes the page from a state
    [s] (the state [s0] for the first turn) to a state [s'] with [R s s']. *)
Inductive turns {A} (R : State -> State -> Prop) : State -> Step A -> Prop :=
| turns_done s0 r s : R s0 s -> turns R s0 (Done r s)
| turns_fetch s0 req s k :
    R s0 s -> (forall r s', turns R s' (k r s')) -> turns R s0 (Fetch req s k)
| turns_json s0 resp s k :
    R s0 s -> (forall r s', turns R s' (k r s')) -> turns R s0 (Json resp s k)
| turns_tick s0 s k :
    R s0 s -> (forall s', turns R s' (k s')) -> turns R s0 (Tick s k).

(** The history [h'] is [h] with messages added at its end. *)
Definition grows (h h' : jsval) : Prop :=
  h' = h \/ exists l suffix, h = JArr l /\ h' = JArr (l ++ suffix).

Definition history_grows (s s' : State) : Prop :=
  grows (conversationHistory s) (conversationHistory s').

(** One operation on the history: messages are added at its end, or it is
    emptied. *)
Definition history_step (s s' : State) : Prop :=
  history_grows s s' \/ conversationHistory s' = JArr [].

Definition append_only (p : pending) : Prop :=
  match p with
  | PFetch _ k => forall r s, turns history_grows s (k r s)
  | PJson _ k => forall r s, turns history_grows s (k r s)
  | PTick k => forall s, turns history_grows s (k s)
  end.

(** The state a turn leaves, the request it posts if it ends at a
    [fetch], and the handler resumed in the state [s'] once that [fetch] has
    settled with [r]. *)
Definition state_of {A} (st : Step A) : State :=
  match st with
  | Done _ s => s
  | Fetch _ s _ => s
  | Json _ s _ => s
  | Tick s _ => s
  end.

Definition posted {A} (st : Step A) : option Request :=
  match st with
  | Fetch req _ _ => Some req
  | _ => None
  end.

Definition on_response {A} (st : Step A) (r : Exc Response) (s' : State) : Step A :=
  match st with
  | Fetch _ _ k => k r s'
  | _ => st
  end.

(** A history of text messages, and one message after the other appended
    to the history. *)
Definition text_message (m : string * string) : jsval :=
  message_object (JStr (fst m)) (JStr (snd m)).

Fixpoint append_all (env : Env) (messages : list (string * string)) : M unit :=
  match messages with
  | [] => ret tt
  | (role, content) :: rest =>
      addMessage env (JStr role) (JStr content) >> append_all env rest
  end.

(** ** Sample pages *)

(** A first visit on a wide window, with a greeting typed in. *)
Definition greeting_page : State :=
  set_chatInput_value " hi " (fresh_page ∅ 1024).

(** A page with a conversation of two messages. *)
Definition two_message_page : State :=
  set_conversationHistory
    (JArr [user_message "design a 2-bit counter"; assistant_message (JStr "module counter")])
    (fresh_page ∅ 1024).

(** Two messages to append, and a session in which a send is waiting for
    its response. *)
Definition sample_messages : list (string * string) :=
  [("user", "design a 2-bit counter"); ("assistant", "module counter")].

Definition waiting_session : Session :=
  handle Browser.env ClickSend
    (handle Browser.env (UserTypes "hi") (loaded Browser.env ∅ 1024)).


(** * Vocabulary of the further properties *)

(** The handler resumed in the state [s'] once [response.json()] has
    settled with [b]. *)
Definition on_body {A} (st : Step A) (b : Exc jsval) (s' : State) : Step A :=
  match st with
  | Json _ _ k => k b s'
  | _ => st
  end.

(** The block [renderMessages] makes of a message. *)
Definition renders_as (env : Env) (m : jsval) (n : node) : Prop :=
  exists role content html,
    get_prop m "role" = Ok role
    /\ get_prop m "content" = Ok content
    /\ marked_parse env content = Ok html
    /\ n = MessageDiv role (is_user role) html.

(** The body of the response gives no reply: it cannot be read, or it is
    [null]. *)
Definition body_failed (b : Exc jsval) : Prop :=
  match b with
  | Throw _ => True
  | Ok data => exists e, get_prop data "reply" = Throw e
  end.

Definition body_failure (b : Exc jsval) : string :=
  match b with
  | Throw message => message
  | Ok data =>
      match get_prop data "reply" with
      | Throw message => message
      | Ok _ => EmptyString
      end
  end.

(** What a send leaves alone: the sidebar, the width of the window, the
    console, the dialogs and the keys of the store other than its own. *)
Definition send_frame (s s' : State) : Prop :=
  isSidebarOpen s' = isSidebarOpen s
  /\ sidebar_open s' = sidebar_open s
  /\ sidebar_collapsed s' = sidebar_collapsed s
  /\ innerWidth s' = innerWidth s
  /\ console_errors s' = console_errors s
  /\ confirm_dialogs s' = confirm_dialogs s
  /\ forall key, key <> STORAGE_KEY -> localStorage s' !! key = localStorage s !! key.

(** What every event but a resize leaves alone: the console, the other
    keys of the store, the width of the window, the [collapsed] class, and
    on a wide window the flag of the sidebar. *)
Definition page_frame (s s' : State) : Prop :=
  console_errors s' = console_errors s
  /\ (forall key, key <> STORAGE_KEY -> localStorage s' !! key = localStorage s !! key)
  /\ innerWidth s' = innerWidth s
  /\ sidebar_collapsed s' = sidebar_collapsed s
  /\ (768 < innerWidth s -> isSidebarOpen s' = isSidebarOpen s).

(** Every turn of the computation is within [R]. *)
Definition safe {A} (R : State -> State -> Prop) (m : M A) : Prop :=
  forall s, turns R s (m s).

(** A suspended handler that stays within [send_frame] and posts nothing. *)
Definition framed (p : pending) : Prop :=
  match p with
  | PFetch _ k => forall r s, turns send_frame s (k r s) /\ quiet (k r s)
  | PJson _ k => forall r s, turns send_frame s (k r s) /\ quiet (k r s)
  | PTick k => forall s, turns send_frame s (k s) /\ quiet (k s)
  end.

(** The events that call [handleSend]. *)
Definition sends (ev : event) : Prop :=
  match ev with
  | ClickSend | KeyDown _ _ | ClickDebug | ClickExplain | ClickGenerate => True
  | _ => False
  end.

Definition ENDPOINTS : list string :=
  ["http://127.0.0.1:8000/chat"; "http://127.0.0.1:8000/debug";
   "http://127.0.0.1:8000/explain"; "http://127.0.0.1:8000/generate"].

(** The sidebar as [checkMobileView] sets it for the width of the window:
    collapsed exactly on a narrow window, and open by its flag on a wide
    one. *)
Definition sidebar_fits (s : State) : Prop :=
  sidebar_collapsed s = (innerWidth s <=? 768)
  /\ (768 < innerWidth s -> isSidebarOpen s = true).

(** The relation between the page before and after an event. *)
Definition event_relation (ev : event) (s s' : State) : Prop :=
  match ev with
  | Resize width =>
      innerWidth s' = width /\ sidebar_fits s'
      /\ console_errors s' = console_errors s
      /\ confirm_dialogs s' = confirm_dialogs s
      /\ localStorage s' = localStorage s
  | ClickNewChat _ => page_frame s s'
  | ClickSidebarToggle | ClickDocument _ =>
      page_frame s s' /\ confirm_dialogs s' = confirm_dialogs s
  | _ => send_frame s s'
  end.

(** The session after a sequence of events. *)
Definition after_events (env : Env) (ss : Session) (events : list event) : Session :=
  fold_left (fun ss ev => handle env ev ss) events ss.

(** A narrow window with the sidebar open. *)
Definition sidebar_shown (s : State) : Prop :=
  innerWidth s <= 768 /\ isSidebarOpen s = true /\ sidebar_open s = true.

(** A page whose history is a reply of two messages, and a narrow page
    with the sidebar open. *)
Definition counter_page : State :=
  set_chatInput_value "explain this: always @(posedge clk) q <= d;" two_message_page.

Definition narrow_open_page : State :=
  set_sidebar true true true (fresh_page ∅ 600).

Definition null_session : Session :=
  loaded Browser.env {[STORAGE_KEY := "null"]} 1024.

(** The page when a send whose response gave no reply returns: the error
    message has been added to the history as it was when the send was
    resumed. *)
Definition body_error_appended (b : Exc jsval) (s0 s : State) : Prop :=
  exists l,
    conversationHistory s0 = JArr l
    /\ conversationHistory s
       = JArr (l ++ [assistant_message (JStr ("Error: " ++ body_failure b))]).

(** More sample pages and sessions: the greeting typed in with the debug
    mode selected; a page whose history holds a reply without content; a
    session in which a message has been typed. *)
Definition debug_page : State := set_currentAction debug greeting_page.

Definition poisoned_page : State :=
  set_chatInput_value "hello"
    (set_conversationHistory
       (JArr [user_message "hi"; assistant_message JUndefined])
       (fresh_page ∅ 1024)).

Definition typed_session : Session :=
  handle Browser.env (UserTypes "hi") (loaded Browser.env ∅ 1024).

Definition counter_history : list jsval :=
  [user_message "design a 2-bit counter"; assistant_message (JStr "module counter")].

Definition counter_question : string := "explain this: always @(posedge clk) q <= d;".

(** ** Vocabulary of the ends of a send *)

(** How a send has ended: if it returned, the mode is [chat]; if an
    exception escaped it, the mode is the one of the page when the send was
    resumed for the last time: it has not been reset. *)
Definition reset_or_escaped (s0 : State) (res : Exc unit) (final : State) : Prop :=
  match res with
  | Ok _ => currentAction final = chat
  | Throw _ => currentAction final = currentAction s0
  end.

(** [renderMessages] can make a block of the message. *)
Definition renderable (env : Env) (m : jsval) : Prop := exists n, renders_as env m n.

(** How a send whose request failed with [r] has ended, [s0] being the
    page when it was resumed: on an array the error message is at the end
    of the history, and the send has returned exactly when the store took
    the write of that history and every message of it can be rendered; on
    anything else the history is as it was and the send has not returned. *)
Definition failed_send_outcome (env : Env) (r : Exc Response)
    (s0 : State) (res : Exc unit) (final : State) : Prop :=
  match conversationHistory s0 with
  | JArr l =>
      let h := (l ++ [assistant_message (JStr ("Error: " ++ failure_description r))])%list in
      conversationHistory final = JArr h
      /\ (res = Ok tt
          <-> quota_exceeded env (localStorage s0) STORAGE_KEY (JSON_stringify env (JArr h))
              = false
              /\ Forall (renderable env) h)
  | _ => conversationHistory final = conversationHistory s0 /\ res <> Ok tt
  end.

(** A store that takes the user message of the greeting and no longer
    history; the send of the greeting whose request is rejected there; the
    debug send of the greeting that is answered with a body without
    [reply], the page after a new chat is then started, and the next
    message typed in. *)
Definition small_store : Env := Browser.with_quota (Some 60%nat).

Definition rejected_send : Step unit :=
  run (handleSend small_store greeting_page) [FetchSettled (Throw "Failed to fetch"); NextTurn].

Definition unanswered_debug_send : Step unit :=
  run (debugBtn_click Browser.env greeting_page)
    [FetchSettled (Ok (mkResponse 200)); BodySettled (Ok (JObj [])); NextTurn].

Definition page_after_new_chat : State :=
  set_chatInput_value "again"
    (state_of (startNewChat Browser.env true (state_of unanswered_debug_send))).

(** * Properties of the script *)

Section Basics.

Context (env : Env).

Lemma for_each_render (l : list jsval) :
  Forall (displayable env) l ->
  forall s, exists nodes,
    for_each l (render_message env) s
    = Done (Ok tt) (set_chatMessages (chatMessages s ++ nodes) s).
Proof.
  induction 1 as [|m l Hm _ IH]; intros s.
  - exists []. cbn. rewrite app_nil_r. destruct s; reflexivity.
  - destruct Hm as (role & content & -> & html & Hhtml).
    cbn -[for_each]. unfold bind, lift_exc. cbn. rewrite Hhtml. cbn.
    edestruct IH as [nodes ->]. eexists (_ :: nodes). cbn.
    rewrite <- app_assoc. reflexivity.
Qed.

Lemma renderMessages_ok (s : State) (l : list jsval) :
  conversationHistory s = JArr l ->
  Forall (displayable env) l ->
  exists nodes, renderMessages env s = Done (Ok tt) (set_chatMessages nodes s).
Proof.
  intros Hh Hl. unfold renderMessages, bind, modify, get_state. cbn.
  rewrite Hh. cbn.
  destruct (for_each_render l Hl (set_chatMessages [] s)) as [nodes ->].
  exists nodes. reflexivity.
Qed.

(** Rendering never suspends and touches nothing but the message view,
    also when it throws. *)
Lemma for_each_render_sync (l : list jsval) :
  forall s, exists r nodes,
    for_each l (render_message env) s = Done r (set_chatMessages nodes s).
Proof.
  induction l as [|m l IH]; intros s.
  - exists (Ok tt), (chatMessages s). destruct s; reflexivity.
  - cbn [for_each]. unfold bind at 1. unfold render_message, bind, lift_exc.
    destruct (get_prop m "role") as [role|e]; cbn [bind_step].
    2:{ exists (Throw e), (chatMessages s). destruct s; reflexivity. }
    destruct (get_prop m "content") as [content|e]; cbn [bind_step].
    2:{ exists (Throw e), (chatMessages s). destruct s; reflexivity. }
    destruct (marked_parse env content) as [html|e]; cbn [bind_step].
    2:{ exists (Throw e), (chatMessages s). destruct s; reflexivity. }
    unfold modify. cbn [bind_step].
    edestruct IH as (r & nodes & ->). exists r, nodes. reflexivity.
Qed.

Lemma renderMessages_sync (s : State) :
  exists r nodes, renderMessages env s = Done r (set_chatMessages nodes s).
Proof.
  unfold renderMessages, bind, modify, get_state, forEach. cbn.
  destruct (conversationHistory s) eqn:Hh; cbn;
    try (eexists (Throw _), []; reflexivity).
  destruct (for_each_render_sync elems (set_chatMessages [] s)) as (r & nodes & ->).
  destruct r as [[]|e]; cbn; eexists _, nodes; reflexivity.
Qed.

Lemma addMessage_unfold (s : State) (l : list jsval) (role content : jsval) :
  conversationHistory s = JArr l ->
  let h := JArr (l ++ [message_object role content]) in
  addMessage env role content s
  = if quota_exceeded env (localStorage s) STORAGE_KEY (JSON_stringify env h)
    then Done (Throw "The quota has been exceeded.") (set_conversationHistory h s)
    else bind_step
           (renderMessages env
              (set_localStorage (<[STORAGE_KEY := JSON_stringify env h]> (localStorage s))
                 (set_conversationHistory h s)))
           (fun _ => scrollToBottom).
Proof.
  intros Hh h. unfold addMessage, bind, get_state, lift_exc. cbn.
  rewrite Hh. cbn. unfold localStorage_setItem. cbn.
  fold h. destruct (quota_exceeded env (localStorage s) STORAGE_KEY (JSON_stringify env h));
    reflexivity.
Qed.

Lemma addMessage_ok (s : State) (l : list jsval) (role content : jsval) :
  storage_reliable env ->
  conversationHistory s = JArr l ->
  Forall (displayable env) l ->
  renders env content ->
  exists nodes,
    addMessage env role content s
    = Done (Ok tt) (appended env (message_object role content) l nodes s).
Proof.
  intros Hst Hh Hl Hc. rewrite (addMessage_unfold s l role content Hh). cbn zeta.
  rewrite Hst.
  edestruct renderMessages_ok as [nodes ->].
  - reflexivity.
  - apply Forall_app; split; [exact Hl|]. constructor; [|constructor].
    exists role, content. split; [reflexivity|exact Hc].
  - exists nodes. reflexivity.
Qed.

(** [addMessage] never suspends; on an array it leaves the history with
    the message at its end, whether it throws or not, and on anything else
    it throws and changes nothing. *)
Lemma addMessage_sync (s : State) (role content : jsval) :
  exists r s',
    addMessage env role content s = Done r s'
    /\ currentAction s' = currentAction s
    /\ match conversationHistory s with
       | JArr l => conversationHistory s' = JArr (l ++ [message_object role content])
       | _ => s' = s /\ exists e, r = Throw e
       end.
Proof.
  destruct (conversationHistory s) as [ | | | | |l| ] eqn:Hh.
  6:{ rewrite (addMessage_unfold s l role content Hh). cbn zeta.
      destruct (quota_exceeded env _ _ _).
      - eexists _, _. split; [reflexivity|]. split; reflexivity.
      - edestruct renderMessages_sync as (r & nodes & ->).
        destruct r as [[]|e]; cbn; eexists _, _; (split; [reflexivity|]); split; reflexivity. }
  all: unfold addMessage, bind, get_state, lift_exc; cbn; rewrite Hh; cbn;
    eexists _, _; (split; [reflexivity|]); split; [reflexivity|]; split; eauto.
Qed.

End Basics.

(** ** Blank strings *)

Lemma trim_start_blank (s : string) :
  all_whitespace s = true <-> trim_start s = EmptyString.
Proof.
  induction s as [|c s IH]; cbn; [tauto|].
  destruct (is_whitespace c); cbn; [exact IH|].
  split; discriminate.
Qed.

Lemma trim_start_head (s : string) (c : ascii) (rest : string) :
  trim_start s = String c rest -> is_whitespace c = false.
Proof.
  induction s as [|d s IH]; cbn; [discriminate|].
  destruct (is_whitespace d) eqn:Hd; [exact IH|].
  intros H. injection H as <- _. exact Hd.
Qed.

(** [trim] gives the empty string exactly on the strings that are empty
    or hold white space only. *)
Lemma trim_blank (s : string) :
  all_whitespace s = true <-> trim s = EmptyString.
Proof.
  rewrite trim_start_blank. unfold trim. split; [intros ->; reflexivity|].
  destruct (trim_start s) as [|c rest] eqn:Hs; [reflexivity|].
  pose proof (trim_start_head s c rest Hs) as Hc.
  cbn. destruct (trim_end rest); rewrite ?Hc; discriminate.
Qed.

(** ** The first turn of a send *)

Section Send.

Context (env : Env).

Lemma handleSend_blank (s : State) :
  trim (chatInput_value s) = EmptyString -> handleSend env s = Done (Ok tt) s.
Proof.
  intros H. unfold handleSend, bind, get_state. cbn. rewrite H. reflexivity.
Qed.

(** The first turn of [handleSend]: it returns at once on a blank input;
    otherwise it appends the user message and, unless that throws, posts the
    request of the current mode and is suspended. *)
Lemma handleSend_first_turn (s : State) :
  let message := trim (chatInput_value s) in
  (message = EmptyString /\ handleSend env s = Done (Ok tt) s)
  \/ (message <> EmptyString /\
      exists e s', handleSend env s = Done (Throw e) s'
                   /\ addMessage env (JStr "user") (JStr message) s = Done (Throw e) s')
  \/ (message <> EmptyString /\
      exists l s1,
        conversationHistory s = JArr l
        /\ conversationHistory s1 = JArr (l ++ [user_message message])
        /\ currentAction s1 = currentAction s
        /\ handleSend env s
           = Fetch (mode_request env (currentAction s) message (JArr l)) s1 (after_fetch env)).
Proof.
  intros message. destruct message as [|c rest] eqn:Hm.
  - left. split; [reflexivity|]. apply handleSend_blank. exact Hm.
  - right.
    destruct (addMessage_sync env s (JStr "user") (JStr message)) as (r & s' & Hadd & Hact & Hh).
    assert (Hsend : handleSend env s
                    = bind_step (addMessage env (JStr "user") (JStr message) s)
                        (fun _ =>
                           modify (set_chatInput_value EmptyString) >>
                           showTypingIndicator >>
                           try_catch
                             (let* s := get_state in
                              let* response :=
                                match currentAction s with
                                | debug => await_call (handleDebugRequest env message)
                                | explain => await_call (handleExplainRequest env message)
                                | generate => await_call (handleGenerateRequest env message)
                                | chat => await_call (handleChatRequest env message)
                                end in
                              removeTypingIndicator >>
                              addMessage env (JStr "assistant") response)
                             (fun error_message =>
                                removeTypingIndicator >>
                                addMessage env (JStr "assistant") (JStr ("Error: " ++ error_message))) >>
                           modify (set_currentAction chat))).
    { unfold handleSend, bind at 1, get_state. cbn [bind_step].
      fold message. rewrite Hm. cbn [is_empty]. rewrite <- Hm. reflexivity. }
    rewrite Hsend, Hadd. rewrite <- Hm. destruct r as [[]|e].
    + right. split; [rewrite Hm; discriminate|].
      destruct (conversationHistory s) as [ | | | | |l| ] eqn:Hhist;
        try (exfalso; apply proj2 in Hh; destruct Hh as [e He]; discriminate He).
      exists l, (set_chatMessages (chatMessages s' ++ [TypingIndicator])
                   (set_chatInput_value EmptyString s')).
      split; [reflexivity|]. split; [exact Hh|]. split; [exact Hact|].
      cbn -[addMessage]. rewrite Hact.
      destruct (currentAction s); cbn -[addMessage]; try reflexivity.
      rewrite Hh. cbn -[addMessage]. rewrite removelast_last. reflexivity.
    + left. split; [rewrite Hm; discriminate|]. exists e, s'.
      split; first [reflexivity | exact Hadd].
Qed.

Lemma handleSend_fetch (s : State) (l : list jsval) (message : string) :
  storage_reliable env ->
  conversationHistory s = JArr l ->
  Forall (displayable env) l ->
  renders env (JStr message) ->
  trim (chatInput_value s) = message ->
  message <> EmptyString ->
  exists nodes,
    handleSend env s
    = Fetch (mode_request env (currentAction s) message (JArr l))
        (set_chatMessages (nodes ++ [TypingIndicator])
           (set_chatInput_value EmptyString (appended env (user_message message) l nodes s)))
        (after_fetch env).
Proof.
  intros Hst Hh Hl Hm Htrim Hne.
  destruct (addMessage_ok env s l (JStr "user") (JStr message) Hst Hh Hl Hm) as [nodes Hadd].
  exists nodes. unfold handleSend, bind, get_state. cbn -[addMessage trim].
  rewrite Htrim. clear Htrim.
  destruct message as [|c rest]; [congruence|]. cbn -[addMessage].
  rewrite Hadd. cbn -[addMessage].
  destruct (currentAction s); cbn -[addMessage]; try reflexivity.
  rewrite removelast_last. reflexivity.
Qed.

End Send.

(** ** The later turns of a send *)

Section Resume.

Context (env : Env).

Lemma after_fetch_unfold (r : Exc Response) (s : State) :
  after_fetch env r s
  = match r with
    | Throw e => Tick s (show_error env e)
    | Ok response =>
        if response_ok response then Json response s (after_body env)
        else Tick s (show_error env (http_error response))
    end.
Proof.
  destruct r as [response|e]; [|reflexivity].
  unfold after_fetch, try_catch, bind, await_call, receive, bind, lift_exc.
  cbn [bind_step]. destruct (response_ok response); reflexivity.
Qed.

Lemma after_body_unfold (b : Exc jsval) (s : State) :
  after_body env b s
  = match b with
    | Throw e => Tick s (show_error env e)
    | Ok data =>
        match get_prop data "reply" with
        | Ok response => Tick s (show_reply env response)
        | Throw e => Tick s (show_error env e)
        end
    end.
Proof.
  destruct b as [data|e]; [|reflexivity].
  unfold after_body, try_catch, bind, await_call, bind, lift_exc.
  cbn [bind_step]. destruct (get_prop data "reply"); reflexivity.
Qed.

Lemma show_error_ok (e : string) (s : State) (l : list jsval) :
  storage_reliable env -> renders_text env ->
  conversationHistory s = JArr l -> Forall (displayable env) l ->
  exists s',
    show_error env e s = Done (Ok tt) s'
    /\ currentAction s' = chat
    /\ conversationHistory s' = JArr (l ++ [assistant_message (JStr ("Error: " ++ e))]).
Proof.
  intros Hst Htext Hh Hl.
  unfold show_error, bind, removeTypingIndicator, modify. cbn [bind_step].
  destruct (addMessage_ok env (set_chatMessages (remove_first_typing (chatMessages s)) s) l
              (JStr "assistant") (JStr ("Error: " ++ e)) Hst Hh Hl (Htext _)) as [nodes ->].
  cbn. eexists. split; [reflexivity|]. split; reflexivity.
Qed.

Lemma show_reply_ok (response : jsval) (s : State) (l : list jsval) :
  storage_reliable env -> renders env response ->
  conversationHistory s = JArr l -> Forall (displayable env) l ->
  exists s',
    show_reply env response s = Done (Ok tt) s'
    /\ currentAction s' = chat
    /\ conversationHistory s' = JArr (l ++ [assistant_message response]).
Proof.
  intros Hst Hr Hh Hl.
  unfold show_reply, try_catch, bind, removeTypingIndicator, modify. cbn [bind_step].
  destruct (addMessage_ok env (set_chatMessages (remove_first_typing (chatMessages s)) s) l
              (JStr "assistant") response Hst Hh Hl Hr) as [nodes ->].
  cbn. eexists. split; [reflexivity|]. split; reflexivity.
Qed.

End Resume.

(** ** Runs under normal operation *)

Section Completion.

Context (env : Env).
Hypothesis storage_ok : storage_reliable env.
Hypothesis text_ok : renders_text env.

Lemma completes_done (Q : State -> State -> Prop) (s0 s : State) :
  Q s0 s -> completes env Q s0 (Done (Ok tt) s).
Proof. intros H. apply ends_done. split; [reflexivity|exact H]. Qed.

Lemma completes_json (Q : State -> State -> Prop) (s0 s : State) (resp : Response)
    (k : Exc jsval -> State -> Step unit) :
  (forall r s', reply_renders env r -> healthy env s' -> completes env Q s' (k r s')) ->
  completes env Q s0 (Json resp s k).
Proof. intros H. apply ends_json. exact H. Qed.

Lemma completes_tick (Q : State -> State -> Prop) (s0 s : State) (k : State -> Step unit) :
  (forall s', healthy env s' -> completes env Q s' (k s')) ->
  completes env Q s0 (Tick s k).
Proof. intros H. apply ends_tick. exact H. Qed.

Lemma tick_completes (Q : State -> State -> Prop) (m : M unit) (s0 s : State) :
  (forall s', healthy env s' -> exists s'', m s' = Done (Ok tt) s'' /\ Q s' s'') ->
  completes env Q s0 (Tick s m).
Proof.
  intros H. apply completes_tick. intros s' Hs'.
  destruct (H s' Hs') as (s'' & -> & HQ). apply completes_done. exact HQ.
Qed.

(** Whatever the outcome of the request, the send ends with the mode set
    back to [chat]. *)
Lemma after_fetch_resets (r : Exc Response) (s : State) :
  completes env (fun _ final => currentAction final = chat) s (after_fetch env r s).
Proof.
  assert (Herr : forall e s0 s1,
            completes env (fun _ final => currentAction final = chat) s0
              (Tick s1 (show_error env e))).
  { intros e s0 s1. apply tick_completes. intros s' (l & Hh & Hl).
    destruct (show_error_ok env e s' l storage_ok text_ok Hh Hl) as (s'' & Hrun & Hact & _).
    eauto. }
  rewrite after_fetch_unfold. destruct r as [response|e]; [|apply Herr].
  destruct (response_ok response); [|apply Herr].
  apply completes_json. intros b s' Hb Hs'. rewrite after_body_unfold.
  destruct b as [data|e]; [|apply Herr].
  destruct (get_prop data "reply") as [v|e] eqn:Hreply; [|apply Herr].
  apply tick_completes. intros s'' (l & Hh & Hl).
  destruct (show_reply_ok env v s'' l storage_ok (Hb data v eq_refl Hreply) Hh Hl)
    as (s3 & Hrun & Hact & _).
  eauto.
Qed.

Lemma after_fetch_failure (r : Exc Response) (s : State) :
  request_failed r ->
  completes env (error_appended r) s (after_fetch env r s).
Proof.
  intros Hfail.
  assert (Herr : completes env (error_appended r) s
                   (Tick s (show_error env (failure_description r)))).
  { apply tick_completes. intros s' (l & Hh & Hl).
    destruct (show_error_ok env (failure_description r) s' l storage_ok text_ok Hh Hl)
      as (s'' & Hrun & _ & Hhist).
    exists s''. split; [exact Hrun|]. exists l. split; assumption. }
  rewrite after_fetch_unfold. destruct r as [response|e]; [|exact Herr].
  cbn in Hfail. rewrite Hfail. exact Herr.
Qed.

End Completion.

(** ** History growth and silence of the later turns *)

Lemma grows_refl (h : jsval) : grows h h.
Proof. left. reflexivity. Qed.

Lemma grows_trans (h1 h2 h3 : jsval) : grows h1 h2 -> grows h2 h3 -> grows h1 h3.
Proof.
  intros [->|(l & suffix & -> & ->)] H23; [exact H23|].
  destruct H23 as [->|(l' & suffix' & Heq & ->)].
  - right. exists l, suffix. split; reflexivity.
  - injection Heq as <-. right. exists l, (suffix ++ suffix')%list.
    split; [reflexivity|]. rewrite app_assoc. reflexivity.
Qed.

Lemma grows_push (l : list jsval) (m : jsval) : grows (JArr l) (JArr (l ++ [m])).
Proof. right. exists l, [m]. split; reflexivity. Qed.

Section Growth.

Context (env : Env).

Lemma addMessage_grows (role content : jsval) (s : State) :
  exists r s', addMessage env role content s = Done r s' /\ history_grows s s'.
Proof.
  destruct (addMessage_sync env s role content) as (r & s' & Hrun & _ & Hh).
  exists r, s'. split; [exact Hrun|]. unfold history_grows.
  destruct (conversationHistory s) as [ | | | | |l| ] eqn:E.
  6:{ rewrite Hh. apply grows_push. }
  all: destruct Hh as [-> _]; rewrite E; apply grows_refl.
Qed.

Lemma show_error_sync (e : string) (s : State) :
  exists r s', show_error env e s = Done r s' /\ history_grows s s'.
Proof.
  unfold show_error, bind, removeTypingIndicator, modify. cbn [bind_step].
  destruct (addMessage_grows (JStr "assistant") (JStr ("Error: " ++ e))
              (set_chatMessages (remove_first_typing (chatMessages s)) s))
    as (r & s' & -> & Hg).
  destruct r as [[]|e']; cbn; eexists _, _; (split; [reflexivity|]); exact Hg.
Qed.

Lemma show_reply_sync (response : jsval) (s : State) :
  exists r s', show_reply env response s = Done r s' /\ history_grows s s'.
Proof.
  unfold show_reply, try_catch, bind, removeTypingIndicator, modify. cbn [bind_step].
  destruct (addMessage_grows (JStr "assistant") response
              (set_chatMessages (remove_first_typing (chatMessages s)) s))
    as (r & s' & -> & Hg).
  destruct r as [[]|e']; cbn [catch_step bind_step].
  - eexists _, _. split; [reflexivity|]. exact Hg.
  - destruct (addMessage_grows (JStr "assistant") (JStr ("Error: " ++ e'))
                (set_chatMessages (remove_first_typing (chatMessages s')) s'))
      as (r2 & s2 & -> & Hg2).
    assert (Hall : history_grows s s2) by (eapply grows_trans; [exact Hg|exact Hg2]).
    destruct r2 as [[]|e2]; cbn; eexists _, _; (split; [reflexivity|]); exact Hall.
Qed.

Lemma after_body_turns (b : Exc jsval) (s : State) :
  turns history_grows s (after_body env b s).
Proof.
  assert (Herr : forall e, turns history_grows s (Tick s (show_error env e))).
  { intros e. apply turns_tick; [apply grows_refl|]. intros s'.
    destruct (show_error_sync e s') as (r & s'' & -> & Hg). apply turns_done. exact Hg. }
  rewrite after_body_unfold. destruct b as [data|e]; [|apply Herr].
  destruct (get_prop data "reply") as [v|e]; [|apply Herr].
  apply turns_tick; [apply grows_refl|]. intros s'.
  destruct (show_reply_sync v s') as (r & s'' & -> & Hg). apply turns_done. exact Hg.
Qed.

Lemma after_fetch_turns (r : Exc Response) (s : State) :
  turns history_grows s (after_fetch env r s).
Proof.
  assert (Herr : forall e, turns history_grows s (Tick s (show_error env e))).
  { intros e. apply turns_tick; [apply grows_refl|]. intros s'.
    destruct (show_error_sync e s') as (r' & s'' & -> & Hg). apply turns_done. exact Hg. }
  rewrite after_fetch_unfold. destruct r as [response|e]; [|apply Herr].
  destruct (response_ok response); [|apply Herr].
  apply turns_json; [apply grows_refl|]. intros b s'. apply after_body_turns.
Qed.

Lemma after_body_quiet (b : Exc jsval) (s : State) : quiet (after_body env b s).
Proof.
  assert (Herr : forall e, quiet (Tick s (show_error env e))).
  { intros e. apply quiet_tick. intros s'.
    destruct (show_error_sync e s') as (r & s'' & -> & _). apply quiet_done. }
  rewrite after_body_unfold. destruct b as [data|e]; [|apply Herr].
  destruct (get_prop data "reply") as [v|e]; [|apply Herr].
  apply quiet_tick. intros s'.
  destruct (show_reply_sync v s') as (r & s'' & -> & _). apply quiet_done.
Qed.

Lemma after_fetch_quiet (r : Exc Response) (s : State) : quiet (after_fetch env r s).
Proof.
  assert (Herr : forall e, quiet (Tick s (show_error env e))).
  { intros e. apply quiet_tick. intros s'.
    destruct (show_error_sync e s') as (r' & s'' & -> & _). apply quiet_done. }
  rewrite after_fetch_unfold. destruct r as [response|e]; [|apply Herr].
  destruct (response_ok response); [|apply Herr].
  apply quiet_json. intros b s'. apply after_body_quiet.
Qed.

Lemma show_error_end (e : string) (s : State) :
  exists r s',
    show_error env e s = Done r s'
    /\ (r = Ok tt -> currentAction s' = chat)
    /\ (forall l, conversationHistory s = JArr l ->
        conversationHistory s' = JArr (l ++ [assistant_message (JStr ("Error: " ++ e))])).
Proof.
  unfold show_error, bind, removeTypingIndicator, modify. cbn [bind_step].
  destruct (addMessage_sync env (set_chatMessages (remove_first_typing (chatMessages s)) s)
              (JStr "assistant") (JStr ("Error: " ++ e))) as (r & s' & -> & _ & Hh).
  cbn [conversationHistory set_chatMessages] in Hh.
  destruct r as [[]|e']; cbn [bind_step]; eexists _, _; (split; [reflexivity|]); split;
    try (intros _; reflexivity); try discriminate;
    intros l Hl; rewrite Hl in Hh; exact Hh.
Qed.

Lemma show_reply_end (response : jsval) (s : State) :
  exists r s', show_reply env response s = Done r s' /\ (r = Ok tt -> currentAction s' = chat).
Proof.
  unfold show_reply, try_catch, bind, removeTypingIndicator, modify. cbn [bind_step].
  destruct (addMessage_sync env (set_chatMessages (remove_first_typing (chatMessages s)) s)
              (JStr "assistant") response) as (r & s' & -> & _ & _).
  destruct r as [[]|e']; cbn [catch_step bind_step].
  - eexists _, _. split; [reflexivity|]. intros _. reflexivity.
  - destruct (addMessage_sync env (set_chatMessages (remove_first_typing (chatMessages s')) s')
                (JStr "assistant") (JStr ("Error: " ++ e'))) as (r2 & s2 & -> & _ & _).
    destruct r2 as [[]|e2]; cbn [bind_step]; eexists _, _; (split; [reflexivity|]);
      first [intros _; reflexivity | discriminate].
Qed.

(** In any environment and whatever happens while the send is suspended,
    if the send returns it has set the mode back to [chat]. *)
Lemma after_fetch_returns (r : Exc Response) (s : State) :
  returns_with (fun _ final => currentAction final = chat) s (after_fetch env r s).
Proof.
  assert (Herr : forall e s0 s1,
            returns_with (fun _ final => currentAction final = chat) s0
              (Tick s1 (show_error env e))).
  { intros e s0 s1. apply ends_tick. intros s' _.
    destruct (show_error_end e s') as (res & s'' & -> & Hact & _).
    apply ends_done. exact Hact. }
  rewrite after_fetch_unfold. destruct r as [response|e]; [|apply Herr].
  destruct (response_ok response); [|apply Herr].
  apply ends_json. intros b s' _ _. rewrite after_body_unfold.
  destruct b as [data|e]; [|apply Herr].
  destruct (get_prop data "reply") as [v|e]; [|apply Herr].
  apply ends_tick. intros s'' _.
  destruct (show_reply_end v s'') as (res & s3 & -> & Hact).
  apply ends_done. exact Hact.
Qed.

(** In any environment, a failed request ends with the error message at
    the end of the history, if the history is an array when the send is
    resumed. *)
Lemma after_fetch_error (r : Exc Response) (s : State) :
  request_failed r ->
  ends has_array (fun _ => True) (fun s0 _ final => error_appended r s0 final) s
    (after_fetch env r s).
Proof.
  intros Hfail.
  assert (Herr : ends has_array (fun _ => True) (fun s0 _ final => error_appended r s0 final) s
                   (Tick s (show_error env (failure_description r)))).
  { apply ends_tick. intros s' (l & Hl).
    destruct (show_error_end (failure_description r) s') as (res & s'' & -> & _ & Hh).
    apply ends_done. exists l. split; [exact Hl|apply Hh; exact Hl]. }
  rewrite after_fetch_unfold. destruct r as [response|e]; [|exact Herr].
  cbn in Hfail. rewrite Hfail. exact Herr.
Qed.

Lemma handleSend_turns (s : State) : turns history_grows s (handleSend env s).
Proof.
  destruct (handleSend_first_turn env s)
    as [[_ ->]|[(_ & e & s' & -> & Hadd)|(_ & l & s1 & Hh & Hh1 & _ & ->)]].
  - apply turns_done. apply grows_refl.
  - apply turns_done.
    destruct (addMessage_grows (JStr "user") (JStr (trim (chatInput_value s))) s)
      as (r & s2 & Hrun & Hg).
    rewrite Hadd in Hrun. injection Hrun as _ <-. exact Hg.
  - apply turns_fetch.
    + unfold history_grows. rewrite Hh, Hh1. apply grows_push.
    + intros r s'. apply after_fetch_turns.
Qed.

End Growth.

(** * The claims *)

(** ** Chat requests *)

(** C1.  A send in chat mode that posts a request posts it to the chat
    endpoint with, as its [history], the conversation history of that moment
    without its last element: the user message that [handleSend] has just
    appended is the [prompt] and is not part of [history], which is the
    history as it was before the send.  The send posts nothing else. *)
Theorem chat_history_excludes_prompt (env : Env) (s : State) (req : Request) :
  currentAction s = chat ->
  posted (handleSend env s) = Some req ->
  exists (l : list jsval) (message : string),
    message = trim (chatInput_value s)
    /\ conversationHistory s = JArr l
    /\ conversationHistory (state_of (handleSend env s)) = JArr (l ++ [user_message message])
    /\ req = mkRequest "http://127.0.0.1:8000/chat" "POST" "application/json"
               (JSON_stringify env
                  (JObj [("prompt", JStr message);
                         ("history", JArr (removelast (l ++ [user_message message])))]))
    /\ removelast (l ++ [user_message message]) = l
    /\ forall r s', quiet (on_response (handleSend env s) r s').
Proof.
  intros Hchat Hsend.
  destruct (handleSend_first_turn env s)
    as [[_ H]|[(_ & e & s' & H & _)|(_ & l & s2 & Hh & Hh2 & _ & H)]];
    rewrite H in Hsend |- *; try discriminate Hsend.
  injection Hsend as <-.
  exists l, (trim (chatInput_value s)).
  split; [reflexivity|]. split; [exact Hh|]. split; [exact Hh2|].
  rewrite removelast_last, Hchat. split; [reflexivity|]. split; [reflexivity|].
  intros r s'. apply after_fetch_quiet.
Qed.

(** ** Replies *)

Lemma mode_operation_fetch (env : Env) (a : action) (message : string) (s s1 : State)
    (req : Request) (k : Exc Response -> State -> Step jsval) :
  mode_operation env a message s = Fetch req s1 k -> k = receive /\ s1 = s.
Proof.
  destruct a; cbn; unfold handleChatRequest, handleDebugRequest, handleExplainRequest,
    handleGenerateRequest, bind, get_state, lift_exc; cbn [bind_step].
  1: destruct (slice_0_minus1 (conversationHistory s)); cbn [bind_step]; [|discriminate].
  all: intros H; injection H as _ <- <-; split; reflexivity.
Qed.

(** C2, as the script has it.  When the response has a success status and
    its body is read, each of the four mode operations returns the [reply]
    property of the body as it is: [undefined] when the body is an object
    without that property.  No error is raised for a missing [reply]. *)
Theorem mode_operation_returns_reply_property (env : Env) (a : action) (message : string)
    (s : State) (req : Request) (response : Response) (data : jsval) :
  posted (mode_operation env a message s) = Some req ->
  response_ok response = true ->
  run (mode_operation env a message s) [FetchSettled (Ok response); BodySettled (Ok data)]
  = Done (get_prop data "reply") s
  /\ (forall props, data = JObj props -> lookup_prop props "reply" = None ->
      run (mode_operation env a message s) [FetchSettled (Ok response); BodySettled (Ok data)]
      = Done (Ok JUndefined) s).
Proof.
  intros Hop Hok.
  destruct (mode_operation env a message s) as [ |req' s1 k| | ] eqn:Hrun; try discriminate Hop.
  pose proof (mode_operation_fetch env a message s s1 req' k Hrun) as [-> ->].
  assert (Hres : run (Fetch req' s receive) [FetchSettled (Ok response); BodySettled (Ok data)]
                 = Done (get_prop data "reply") s).
  { cbn. unfold receive, bind, lift_exc. cbn. rewrite Hok. cbn. reflexivity. }
  split; [exact Hres|].
  intros props -> Hnone. rewrite Hres. cbn. rewrite Hnone. reflexivity.
Qed.

(** ** Blank input *)


(** ** The conversation store *)

Lemma renderMessages_empty (env : Env) (s : State) :
  conversationHistory s = JArr [] ->
  renderMessages env s = Done (Ok tt) (set_chatMessages [] s).
Proof.
  intros Hh. unfold renderMessages, bind, modify, get_state. cbn. rewrite Hh. reflexivity.
Qed.

(** C5, as the script has it.  [loadConversation] never throws.  Without
    a stored value, or with an empty one, it leaves the page as it is and
    logs nothing.  With a value that [JSON.parse] rejects it leaves the
    history as it is and logs a diagnostic.  With a value that parses, the
    parsed value becomes the history whatever its shape, and a diagnostic is
    logged exactly when rendering it throws. *)
Theorem loadConversation_outcome (env : Env) (s : State) :
  exists s',
    loadConversation env s = Done (Ok tt) s'
    /\ match localStorage s !! STORAGE_KEY with
       | None => s' = s
       | Some saved =>
           if is_empty saved then s' = s else
           match JSON_parse env saved with
           | Throw e => s' = log_console_error ("Error loading conversation: " ++ e) s
           | Ok parsed =>
               conversationHistory s' = parsed
               /\ exists nodes,
                    match renderMessages env (set_conversationHistory parsed s) with
                    | Done (Throw e) _ =>
                        s' = log_console_error ("Error loading conversation: " ++ e)
                               (set_chatMessages nodes (set_conversationHistory parsed s))
                    | _ => s' = set_chatMessages nodes (set_conversationHistory parsed s)
                    end
           end
       end.
Proof.
  unfold loadConversation, bind, get_state. cbn [bind_step].
  destruct (localStorage s !! STORAGE_KEY) as [saved|]; [|exists s; split; reflexivity].
  destruct (is_empty saved); [exists s; split; reflexivity|].
  unfold try_catch, bind, lift_exc.
  destruct (JSON_parse env saved) as [parsed|e]; cbn [bind_step catch_step].
  - unfold modify. cbn [bind_step].
    destruct (renderMessages_sync env (set_conversationHistory parsed s)) as (r & nodes & Hr).
    rewrite Hr. destruct r as [[]|e]; cbn [catch_step].
    + eexists. split; [reflexivity|]. split; [reflexivity|]. exists nodes. reflexivity.
    + eexists. split; [reflexivity|]. split; [reflexivity|]. exists nodes. reflexivity.
  - eexists. split; reflexivity.
Qed.

Lemma ltb_length (l : list jsval) :
  (1 <? Z.of_nat (List.length l)) = (1 <? List.length l)%nat.
Proof.
  destruct (Nat.ltb_spec 1 (List.length l)); [apply Z.ltb_lt|apply Z.ltb_ge]; lia.
Qed.

(** C6.  On a history of [n] messages [startNewChat] shows the
    confirmation dialog exactly when [n > 1].  It goes on when it has not
    asked or the user has confirmed: the history is then the empty array,
    and the store holds its serialization once [setItem] has taken the
    write.  When the user declines, nothing changes but the record of the
    dialog. *)
Theorem clear_asks_iff_more_than_one (env : Env) (s : State) (l : list jsval) (answer : bool) :
  conversationHistory s = JArr l ->
  exists r s',
    startNewChat env answer s = Done r s'
    /\ confirm_dialogs s'
       = (confirm_dialogs s ++ if (1 <? List.length l)%nat then [CONFIRM_QUESTION] else [])%list
    /\ if (1 <? List.length l)%nat && negb answer
       then r = Ok tt /\ s' = log_confirm CONFIRM_QUESTION s
       else conversationHistory s' = JArr []
            /\ (quota_exceeded env (localStorage s) STORAGE_KEY (JSON_stringify env (JArr []))
                = false ->
                r = Ok tt
                /\ localStorage s'
                   = <[STORAGE_KEY := JSON_stringify env (JArr [])]> (localStorage s)).
Proof.
  intros Hh. unfold startNewChat, bind, get_state, lift_exc. cbn [bind_step].
  rewrite Hh. cbn [length_gt_1 bind_step]. rewrite ltb_length.
  assert (Hclear : forall s0,
            localStorage s0 = localStorage s ->
            exists r s',
              bind_step (modify (set_conversationHistory (JArr [])) s0)
                (fun _ => saveConversation env >> renderMessages env >> closeSidebar)
              = Done r s'
              /\ confirm_dialogs s' = confirm_dialogs s0
              /\ conversationHistory s' = JArr []
              /\ (quota_exceeded env (localStorage s) STORAGE_KEY
                    (JSON_stringify env (JArr [])) = false ->
                  r = Ok tt
                  /\ localStorage s'
                     = <[STORAGE_KEY := JSON_stringify env (JArr [])]> (localStorage s))).
  { intros s0 Hs0. unfold modify, bind, saveConversation, bind, get_state,
      localStorage_setItem. cbn [bind_step]. cbn [conversationHistory set_conversationHistory
      stringify_for_storage localStorage]. rewrite Hs0.
    destruct (quota_exceeded env (localStorage s) STORAGE_KEY (JSON_stringify env (JArr [])));
      cbn [bind_step].
    { eexists _, _. split; [reflexivity|]. split; [reflexivity|]. split; [reflexivity|].
      discriminate. }
    rewrite renderMessages_empty by reflexivity. cbn [bind_step].
    unfold closeSidebar, bind, get_state, modify. cbn [bind_step].
    destruct (innerWidth _ <=? 768); eexists _, _; (split; [reflexivity|]);
      (split; [reflexivity|]); (split; [reflexivity|]); intros _; split; reflexivity. }
  destruct (1 <? List.length l)%nat; cbn [andb].
  - unfold confirm, bind, modify, ret. cbn [bind_step].
    destruct answer; cbn [negb bind_step].
    + destruct (Hclear (log_confirm CONFIRM_QUESTION s) eq_refl)
        as (r & s' & Hrun & Hd & Hh' & Hs').
      exists r, s'. split; [exact Hrun|]. split; [rewrite Hd; reflexivity|]. split; assumption.
    + eexists _, _. split; [reflexivity|]. repeat split.
  - unfold ret. cbn [bind_step].
    destruct (Hclear s eq_refl) as (r & s' & Hrun & Hd & Hh' & Hs').
    exists r, s'. split; [exact Hrun|]. split; [rewrite Hd, app_nil_r; reflexivity|].
    split; assumption.
Qed.

(** [saveConversation] writes the serialized history under the key that
    [loadConversation] reads. *)
Lemma saveConversation_ok (env : Env) (s s1 : State) :
  saveConversation env s = Done (Ok tt) s1 ->
  s1 = set_localStorage
         (<[STORAGE_KEY := stringify_for_storage env (conversationHistory s)]> (localStorage s)) s.
Proof.
  unfold saveConversation, bind, get_state, localStorage_setItem. cbn [bind_step].
  destruct (quota_exceeded env _ _ _); [discriminate|].
  intros H. injection H as <-. reflexivity.
Qed.

Lemma loadConversation_restores (env : Env) (store : gmap string string) (width : Z)
    (h : jsval) :
  store !! STORAGE_KEY = Some (JSON_stringify env h) ->
  JSON_stringify env h <> EmptyString ->
  JSON_parse env (JSON_stringify env h) = Ok h ->
  exists s2,
    loadConversation env (fresh_page store width) = Done (Ok tt) s2
    /\ conversationHistory s2 = h.
Proof.
  intros Hkey Hne Hparse.
  destruct (loadConversation_outcome env (fresh_page store width)) as (s2 & Hrun & Hout).
  exists s2. split; [exact Hrun|].
  cbn [localStorage fresh_page] in Hout. rewrite Hkey in Hout.
  destruct (JSON_stringify env h) eqn:Hs; [congruence|].
  cbn [is_empty] in Hout. rewrite Hparse in Hout. apply Hout.
Qed.

Lemma addMessage_result (env : Env) (role content : jsval) (s s1 : State) (l : list jsval) :
  conversationHistory s = JArr l ->
  addMessage env role content s = Done (Ok tt) s1 ->
  conversationHistory s1 = JArr (l ++ [message_object role content])
  /\ localStorage s1
     = <[STORAGE_KEY := JSON_stringify env (JArr (l ++ [message_object role content]))]>
         (localStorage s).
Proof.
  intros Hh. rewrite (addMessage_unfold env s l role content Hh). cbn zeta.
  destruct (quota_exceeded env _ _ _); [discriminate|].
  match goal with |- context [renderMessages env ?st] =>
    destruct (renderMessages_sync env st) as (r & nodes & ->) end.
  destruct r as [[]|e]; cbn; [|discriminate].
  intros H. injection H as <-. split; reflexivity.
Qed.

Lemma append_all_result (env : Env) (messages : list (string * string)) :
  forall (s s1 : State) (l : list jsval),
    conversationHistory s = JArr l ->
    append_all env messages s = Done (Ok tt) s1 ->
    conversationHistory s1 = JArr (l ++ map text_message messages)
    /\ (messages = [] /\ s1 = s
        \/ localStorage s1 !! STORAGE_KEY
           = Some (JSON_stringify env (JArr (l ++ map text_message messages)))).
Proof.
  induction messages as [|[role content] rest IH]; intros s s1 l Hh Hrun.
  - cbn in Hrun. injection Hrun as <-. rewrite app_nil_r. split; [exact Hh|]. left. split; reflexivity.
  - cbn [append_all] in Hrun. unfold bind in Hrun.
    destruct (addMessage_sync env s (JStr role) (JStr content)) as (r & s' & Hadd & _ & _).
    rewrite Hadd in Hrun. destruct r as [[]|e]; cbn [bind_step] in Hrun; [|discriminate].
    destruct (addMessage_result env _ _ s s' l Hh Hadd) as [Hh' Hst'].
    destruct (IH s' s1 _ Hh' Hrun) as [Hfinal Hstore].
    cbn [map]. change (text_message (role, content))
      with (message_object (JStr role) (JStr content)).
    rewrite <- app_assoc in Hfinal, Hstore. cbn [app] in Hfinal, Hstore.
    split; [exact Hfinal|]. right.
    destruct Hstore as [[-> ->]|Hstore]; [|exact Hstore].
    rewrite Hst'. cbn [map]. rewrite lookup_insert_eq. reflexivity.
Qed.

(** C7.  Messages appended one after the other to the history of a
    first visit are each persisted; loading the page again restores the
    history: the same messages in the same order.  [JSON.parse] is taken to
    read back what [JSON.stringify] wrote for this history, which is not the
    empty string. *)
Theorem save_then_restore_is_identity (env : Env) (messages : list (string * string))
    (width : Z) (s1 : State) :
  let h := JArr (map text_message messages) in
  JSON_stringify env h <> EmptyString ->
  JSON_parse env (JSON_stringify env h) = Ok h ->
  append_all env messages (fresh_page ∅ width) = Done (Ok tt) s1 ->
  conversationHistory s1 = h
  /\ exists s2,
       loadConversation env (fresh_page (localStorage s1) width) = Done (Ok tt) s2
       /\ conversationHistory s2 = h.
Proof.
  intros h Hne Hparse Hrun.
  destruct (append_all_result env messages (fresh_page ∅ width) s1 [] eq_refl Hrun)
    as [Hh [[-> ->]|Hstore]].
  - split; [reflexivity|]. eexists. split; reflexivity.
  - split; [exact Hh|]. cbn [app] in Hstore.
    apply loadConversation_restores; assumption.
Qed.

(** ** Sessions *)

Lemma history_grows_refl (s : State) : history_grows s s.
Proof. apply grows_refl. Qed.

Lemma turns_same_history {A} (s0 s0' : State) (st : Step A) :
  conversationHistory s0' = conversationHistory s0 ->
  turns history_grows s0 st -> turns history_grows s0' st.
Proof.
  intros Heq H. destruct H; constructor; try assumption;
    unfold history_grows in *; rewrite Heq; assumption.
Qed.

Lemma turns_unchanged {A} (r : Exc A) (s s' : State) :
  conversationHistory s' = conversationHistory s -> turns history_grows s (Done r s').
Proof.
  intros Heq. apply turns_done. unfold history_grows. rewrite Heq. apply grows_refl.
Qed.

Lemma install_page (st : Step unit) (s : State) (waiting : list pending) (log : list Request) :
  turns history_grows s st -> history_grows s (page (install st waiting log)).
Proof. intros H. destruct H; assumption. Qed.

Lemma install_pool (st : Step unit) (s : State) (waiting : list pending) (log : list Request) :
  turns history_grows s st ->
  Forall append_only waiting ->
  Forall append_only (pool (install st waiting log)).
Proof.
  intros H Hw. destruct H; cbn; try assumption;
    (apply Forall_app; split; [assumption|]); (constructor; [|constructor]); assumption.
Qed.

Lemma Forall_remove_nth {A} (P : A -> Prop) (i : nat) (l : list A) :
  Forall P l -> Forall P (remove_nth i l).
Proof.
  intros H. revert i. induction H as [|x l Hx Hl IH]; intros [|i]; cbn;
    try constructor; auto.
Qed.

Lemma Forall_nth_error {A} (P : A -> Prop) (i : nat) (l : list A) (x : A) :
  Forall P l -> nth_error l i = Some x -> P x.
Proof.
  intros H. revert i. induction H as [|y l Hy _ IH]; intros [|i] Hnth; cbn in Hnth;
    try discriminate.
  - injection Hnth as <-. exact Hy.
  - eapply IH. exact Hnth.
Qed.

Section Sessions.

Context (env : Env).

Lemma startNewChat_step (answer : bool) (s : State) :
  exists r s',
    startNewChat env answer s = Done r s'
    /\ (conversationHistory s' = conversationHistory s \/ conversationHistory s' = JArr []).
Proof.
  unfold startNewChat, bind, get_state, lift_exc. cbn [bind_step].
  assert (Hclear : forall s0,
            exists r s',
              bind_step (modify (set_conversationHistory (JArr [])) s0)
                (fun _ => saveConversation env >> renderMessages env >> closeSidebar)
              = Done r s'
              /\ conversationHistory s' = JArr []).
  { intros s0. unfold modify, bind, saveConversation, bind, get_state,
      localStorage_setItem. cbn [bind_step].
    destruct (quota_exceeded env _ _ _); cbn [bind_step].
    { eexists _, _. split; reflexivity. }
    match goal with |- context [renderMessages env ?st] =>
      destruct (renderMessages_sync env st) as (r & nodes & ->) end.
    destruct r as [[]|e]; cbn [bind_step].
    - unfold closeSidebar, bind, get_state, modify. cbn [bind_step].
      destruct (innerWidth _ <=? 768); eexists _, _; split; reflexivity.
    - eexists _, _. split; reflexivity. }
  destruct (length_gt_1 env (conversationHistory s)) as [long|e]; cbn [bind_step].
  2:{ eexists _, _. split; [reflexivity|]. left. reflexivity. }
  destruct long.
  - unfold confirm, bind, modify, ret. cbn [bind_step].
    destruct answer; cbn [negb bind_step].
    + destruct (Hclear (log_confirm CONFIRM_QUESTION s)) as (r & s' & Hrun & Hh).
      exists r, s'. split; [exact Hrun|]. right. exact Hh.
    + eexists _, _. split; [reflexivity|]. left. reflexivity.
  - unfold ret. cbn [bind_step].
    destruct (Hclear s) as (r & s' & Hrun & Hh).
    exists r, s'. split; [exact Hrun|]. right. exact Hh.
Qed.

Lemma DOMContentLoaded_sync (s : State) :
  exists r s', DOMContentLoaded env s = Done r s'.
Proof.
  unfold DOMContentLoaded, bind.
  destruct (loadConversation_outcome env s) as (s' & -> & _). cbn [bind_step].
  unfold checkMobileView, bind, get_state, modify. cbn [bind_step].
  destruct (innerWidth s' <=? 768); eexists _, _; reflexivity.
Qed.

(** What an event other than a click on the new-chat button does. *)
Lemma handle_grows (ev : event) (ss : Session) :
  (forall answer, ev <> ClickNewChat answer) ->
  Forall append_only (pool ss) ->
  history_grows (page ss) (page (handle env ev ss))
  /\ Forall append_only (pool (handle env ev ss)).
Proof.
  intros Hev Hpool.
  assert (Hui : forall m : M unit,
            turns history_grows (page ss) (m (page ss)) ->
            history_grows (page ss) (page (install (m (page ss)) (pool ss) (sent ss)))
            /\ Forall append_only (pool (install (m (page ss)) (pool ss) (sent ss)))).
  { intros m Hm. split; [apply install_page|apply (install_pool _ (page ss))]; assumption. }
  assert (Hresume : forall i (turn : pending -> option (Step unit)),
            (forall p st, append_only p -> turn p = Some st ->
                          turns history_grows (page ss) st) ->
            let ss' := match nth_error (pool ss) i with
                       | Some p =>
                           match turn p with
                           | Some st => install st (remove_nth i (pool ss)) (sent ss)
                           | None => ss
                           end
                       | None => ss
                       end in
            history_grows (page ss) (page ss') /\ Forall append_only (pool ss')).
  { intros i turn Hturn.
    destruct (nth_error (pool ss) i) as [p|] eqn:Hnth; cbn zeta;
      [|split; [apply history_grows_refl|exact Hpool]].
    destruct (turn p) as [st|] eqn:Hp; [|split; [apply history_grows_refl|exact Hpool]].
    pose proof (Hturn p st (Forall_nth_error _ _ _ _ Hpool Hnth) Hp) as Hst.
    split; [apply install_page|apply (install_pool _ (page ss))]; try assumption.
    apply Forall_remove_nth. exact Hpool. }
  destruct ev; cbn [handle].
  - apply Hui. apply turns_unchanged. reflexivity.
  - apply Hui. apply handleSend_turns.
  - apply Hui. unfold chatInput_keydown.
    destruct (_ && _); [apply handleSend_turns|apply turns_unchanged; reflexivity].
  - apply Hui. apply (turns_same_history (set_currentAction debug (page ss)));
      [reflexivity|apply handleSend_turns].
  - apply Hui. apply (turns_same_history (set_currentAction explain (page ss)));
      [reflexivity|apply handleSend_turns].
  - apply Hui. apply (turns_same_history (set_currentAction generate (page ss)));
      [reflexivity|apply handleSend_turns].
  - exfalso. eapply Hev. reflexivity.
  - apply Hui. unfold toggleSidebar, bind, get_state, modify. cbn [bind_step].
    destruct (_ <=? 768); apply turns_unchanged; reflexivity.
  - apply Hui. unfold document_click, closeSidebar, bind, get_state, modify. cbn [bind_step].
    destruct (_ && _); [destruct outside; cbn [bind_step]; [destruct (_ <=? 768)|]|];
      apply turns_unchanged; reflexivity.
  - apply Hui. unfold window_resize, checkMobileView, bind, get_state, modify.
    cbn [bind_step]. destruct (_ <=? 768); apply turns_unchanged; reflexivity.
  - apply Hresume. intros [req k|resp k|k] st Hp Hst; try discriminate.
    injection Hst as <-. apply Hp.
  - apply Hresume. intros [req k|resp k|k] st Hp Hst; try discriminate.
    injection Hst as <-. apply Hp.
  - apply Hresume. intros [req k|resp k|k] st Hp Hst; try discriminate.
    injection Hst as <-. apply Hp.
Qed.

Lemma handle_new_chat (answer : bool) (ss : Session) :
  (conversationHistory (page (handle env (ClickNewChat answer) ss))
   = conversationHistory (page ss)
   \/ conversationHistory (page (handle env (ClickNewChat answer) ss)) = JArr [])
  /\ pool (handle env (ClickNewChat answer) ss) = pool ss.
Proof.
  cbn [handle]. unfold newChatBtn_click.
  destruct (startNewChat_step answer (page ss)) as (r & s' & -> & Hh).
  split; [exact Hh|reflexivity].
Qed.

Lemma reachable_pool (ss : Session) :
  reachable env ss -> Forall append_only (pool ss).
Proof.
  induction 1 as [storage width|ss ev _ IH].
  - unfold loaded.
    destruct (DOMContentLoaded_sync (fresh_page storage width)) as (r & s' & ->).
    constructor.
  - destruct ev; try (apply handle_grows; [discriminate|exact IH]).
    match goal with |- context [ClickNewChat ?a] =>
      destruct (handle_new_chat a ss) as [_ ->] end.
    exact IH.
Qed.

End Sessions.

(** C9.  In a session (the page once loaded, then any events in any
    order, the resumptions of suspended sends among them), every event
    leaves the history with messages added at its end -- the messages that
    were there are still there, unchanged and in the same order -- or, for a
    click on the new-chat button only, leaves it unchanged or empty. *)
Theorem history_is_append_only_or_cleared (env : Env) (ss : Session) (ev : event) :
  reachable env ss ->
  history_step (page ss) (page (handle env ev ss))
  /\ match ev with
     | ClickNewChat _ =>
         conversationHistory (page (handle env ev ss)) = conversationHistory (page ss)
         \/ conversationHistory (page (handle env ev ss)) = JArr []
     | _ => history_grows (page ss) (page (handle env ev ss))
     end.
Proof.
  intros Hreach. pose proof (reachable_pool env ss Hreach) as Hpool.
  destruct ev;
    try (split; [left|]; (apply handle_grows; [discriminate|exact Hpool])).
  match goal with |- context [ClickNewChat ?a] =>
    destruct (handle_new_chat env a ss) as [Hh _] end.
  split; [|exact Hh].
  destruct Hh as [Hh|Hh]; [left; unfold history_grows; rewrite Hh; apply grows_refl|right; exact Hh].
Qed.

(** ** The concrete environment reads back what it writes *)

Module BrowserFacts.
Import Browser.

Lemma append_assoc (a b c : string) : ((a ++ b) ++ c = a ++ (b ++ c))%string.
Proof.
  induction a as [|x a IH]; [reflexivity|].
  change (String x ((a ++ b) ++ c) = String x (a ++ (b ++ c))). rewrite IH. reflexivity.
Qed.

Lemma parse_string_step (c : ascii) (tail : string) :
  parse_string (escape c ++ tail)
  = match parse_string tail with
    | Some (text, after) => Some (String c text, after)
    | None => None
    end.
Proof.
  destruct c as [[] [] [] [] [] [] [] []]; reflexivity.
Qed.

Lemma parse_string_escape (text rest : string) :
  parse_string (escape_all text ++ String dquote rest) = Some (text, rest).
Proof.
  induction text as [|c text IH]; [reflexivity|].
  cbn [escape_all]. rewrite append_assoc, parse_string_step, IH. reflexivity.
Qed.

Lemma length_append (a b : string) :
  String.length (a ++ b) = (String.length a + String.length b)%nat.
Proof.
  induction a as [|x a IH]; [reflexivity|].
  change (S (String.length (a ++ b)) = S (String.length a + String.length b)).
  rewrite IH. reflexivity.
Qed.

Lemma parse_value_string (fuel : nat) (text rest : string) :
  parse_value (S fuel) (quote text ++ rest) = Some (JStr text, rest).
Proof.
  unfold quote.
  change (String dquote (escape_all text ++ String dquote EmptyString) ++ rest)%string
    with (String dquote ((escape_all text ++ String dquote EmptyString) ++ rest)).
  rewrite append_assoc.
  change (String dquote EmptyString ++ rest)%string with (String dquote rest).
  change (parse_value (S fuel) (String dquote (escape_all text ++ String dquote rest)))
    with (match parse_string (escape_all text ++ String dquote rest) with
          | Some (t, after) => Some (JStr t, after)
          | None => None
          end).
  rewrite parse_string_escape. reflexivity.
Qed.

(** The text [JSON.stringify] writes for a message with text content. *)
Lemma stringify_text_message (m : string * string) :
  stringify_value (text_message m) = Some (message_text m).
Proof.
  destruct m as [role content]. unfold message_text.
  cbn [text_message message_object fst snd stringify_value].
  f_equal. cbn [join]. rewrite !append_assoc. reflexivity.
Qed.

Lemma quote_append (text rest : string) :
  (quote text ++ rest)%string = String dquote (escape_all text ++ String dquote rest).
Proof.
  unfold quote.
  change (String dquote (escape_all text ++ String dquote EmptyString) ++ rest)%string
    with (String dquote ((escape_all text ++ String dquote EmptyString) ++ rest)).
  rewrite append_assoc. reflexivity.
Qed.

Lemma parse_members_step (fuel : nat) (acc : list (string * jsval)) (key s : string) :
  parse_members (S fuel) acc (quote key ++ ":" ++ s)
  = match parse_value fuel s with
    | Some (v, after) =>
        match skip_space after with
        | String "," more => parse_members fuel (set_prop acc key v) more
        | String "}" final => Some (set_prop acc key v, final)
        | _ => None
        end
    | None => None
    end.
Proof.
  rewrite quote_append. simpl.
  rewrite parse_string_escape. reflexivity.
Qed.

Lemma parse_value_message (fuel : nat) (m : string * string) (rest : string) :
  parse_value (S (S (S (S fuel)))) (message_text m ++ rest) = Some (text_message m, rest).
Proof.
  unfold message_text. rewrite !append_assoc.
  change ("{" ++ quote "role" ++ ":" ++ quote (fst m) ++ "," ++ quote "content" ++ ":"
              ++ quote (snd m) ++ "}" ++ rest)%string
    with (String "{" (quote "role" ++ ":" ++ quote (fst m) ++ "," ++ quote "content" ++ ":"
              ++ quote (snd m) ++ "}" ++ rest)).
  change (parse_value (S (S (S (S fuel))))
            (String "{" (quote "role" ++ ":" ++ quote (fst m) ++ "," ++ quote "content" ++ ":"
                           ++ quote (snd m) ++ "}" ++ rest)))
    with (match parse_members (S (S (S fuel))) []
                  (quote "role" ++ ":" ++ quote (fst m) ++ "," ++ quote "content" ++ ":"
                     ++ quote (snd m) ++ "}" ++ rest) with
          | Some (props, after) => Some (JObj props, after)
          | None => None
          end).
  rewrite parse_members_step, parse_value_string.
  change (skip_space ("," ++ quote "content" ++ ":" ++ quote (snd m) ++ "}" ++ rest))
    with (String "," (quote "content" ++ ":" ++ quote (snd m) ++ "}" ++ rest)).
  cbv iota beta.
  rewrite parse_members_step, parse_value_string.
  reflexivity.
Qed.

Lemma message_text_length (m : string * string) : (1 <= String.length (message_text m))%nat.
Proof. unfold message_text. rewrite length_append. cbn. lia. Qed.

Lemma join_length (parts : list (string * string)) :
  (List.length parts <= String.length (join "," (map message_text parts)))%nat.
Proof.
  induction parts as [|m parts IH]; [cbn; lia|].
  pose proof (message_text_length m) as Hm.
  destruct parts as [|m' parts]; [cbn [map join List.length]; lia|].
  change (join "," (map message_text (m :: m' :: parts)))
    with (message_text m ++ "," ++ join "," (map message_text (m' :: parts)))%string.
  rewrite !length_append. cbn [List.length] in *. lia.
Qed.

Lemma parse_elements_messages (parts : list (string * string)) :
  parts <> [] ->
  forall (fuel : nat) (rest : string),
    (List.length parts + 4 <= fuel)%nat ->
    parse_elements fuel (join "," (map message_text parts) ++ "]" ++ rest)
    = Some (map text_message parts, rest).
Proof.
  induction parts as [|m parts IH]; [congruence|]. intros _ fuel rest Hfuel.
  cbn [List.length] in Hfuel.
  destruct fuel as [|[|[|[|[|fuel]]]]]; try lia.
  destruct parts as [|m' parts].
  - change (join "," (map message_text [m]) ++ "]" ++ rest)%string
      with (message_text m ++ "]" ++ rest)%string.
    change (parse_elements (S (S (S (S (S fuel))))) (message_text m ++ "]" ++ rest))
      with (match parse_value (S (S (S (S fuel)))) (message_text m ++ "]" ++ rest) with
            | Some (v, after) =>
                match skip_space after with
                | String "," more =>
                    match parse_elements (S (S (S (S fuel)))) more with
                    | Some (vs, final) => Some (v :: vs, final)
                    | None => None
                    end
                | String "]" final => Some ([v], final)
                | _ => None
                end
            | None => None
            end).
    rewrite parse_value_message. reflexivity.
  - change (join "," (map message_text (m :: m' :: parts)) ++ "]" ++ rest)%string
      with ((message_text m ++ "," ++ join "," (map message_text (m' :: parts))) ++ "]" ++ rest)%string.
    rewrite !append_assoc.
    change (parse_elements (S (S (S (S (S fuel)))))
              (message_text m ++ "," ++ join "," (map message_text (m' :: parts)) ++ "]" ++ rest))
      with (match parse_value (S (S (S (S fuel))))
                    (message_text m ++ "," ++ join "," (map message_text (m' :: parts)) ++ "]" ++ rest) with
            | Some (v, after) =>
                match skip_space after with
                | String "," more =>
                    match parse_elements (S (S (S (S fuel)))) more with
                    | Some (vs, final) => Some (v :: vs, final)
                    | None => None
                    end
                | String "]" final => Some ([v], final)
                | _ => None
                end
            | None => None
            end).
    rewrite parse_value_message.
    change (skip_space ("," ++ join "," (map message_text (m' :: parts)) ++ "]" ++ rest))
      with (String "," (join "," (map message_text (m' :: parts)) ++ "]" ++ rest)).
    cbv iota beta.
    rewrite IH; [reflexivity|discriminate|cbn [List.length] in *; lia].
Qed.

Lemma stringify_history (parts : list (string * string)) :
  stringify (JArr (map text_message parts))
  = ("[" ++ join "," (map message_text parts) ++ "]")%string.
Proof.
  assert (H : map (fun x => default "null" (stringify_value x)) (map text_message parts)
              = map message_text parts).
  { rewrite map_map. apply map_ext. intros m. rewrite stringify_text_message. reflexivity. }
  unfold stringify. cbn [stringify_value]. rewrite H. reflexivity.
Qed.

Lemma stringify_history_not_empty (parts : list (string * string)) :
  stringify (JArr (map text_message parts)) <> EmptyString.
Proof. rewrite stringify_history. discriminate. Qed.

(** [JSON.parse] reads a history of text messages back from the text
    [JSON.stringify] wrote for it. *)
Lemma parse_stringify_history (parts : list (string * string)) :
  parse (stringify (JArr (map text_message parts))) = Ok (JArr (map text_message parts)).
Proof.
  unfold parse. rewrite stringify_history.
  destruct parts as [|m parts]; [reflexivity|].
  set (l := m :: parts).
  assert (Hlen : (List.length l + 5
                  <= 2 * String.length ("[" ++ join "," (map message_text l) ++ "]") + 2)%nat).
  { pose proof (join_length l) as Hj.
    change (String.length ("[" ++ join "," (map message_text l) ++ "]"))
      with (S (String.length (join "," (map message_text l) ++ "]"))).
    rewrite length_append. change (String.length "]") with 1%nat. lia. }
  destruct (2 * String.length ("[" ++ join "," (map message_text l) ++ "]") + 2)%nat
    as [|fuel]; [lia|].
  pose proof (parse_elements_messages l ltac:(discriminate) fuel EmptyString ltac:(lia)) as Hparse.
  change ("]" ++ EmptyString)%string with "]"%string in Hparse.
  assert (Hhead : exists c tail, (join "," (map message_text l) ++ "]")%string
                                 = String "{" (String c tail)).
  { subst l. destruct parts as [|m' parts]; eexists _, _; reflexivity. }
  destruct Hhead as (c & tail & Hhead).
  change (parse_value (S fuel) ("[" ++ join "," (map message_text l) ++ "]"))
    with (match skip_space (join "," (map message_text l) ++ "]") with
          | String "]" after => Some (JArr [], after)
          | _ =>
              match parse_elements fuel (join "," (map message_text l) ++ "]") with
              | Some (elems, after) => Some (JArr elems, after)
              | None => None
              end
          end).
  rewrite Hparse. rewrite Hhead. reflexivity.
Qed.

End BrowserFacts.

(** ** Restoring in the concrete environment *)

Lemma append_all_ok (env : Env) (messages : list (string * string)) :
  storage_reliable env -> renders_text env ->
  forall (s : State) (l : list jsval),
    conversationHistory s = JArr l -> Forall (displayable env) l ->
    exists s1, append_all env messages s = Done (Ok tt) s1.
Proof.
  intros Hst Htext. induction messages as [|[role content] rest IH]; intros s l Hh Hl.
  - exists s. reflexivity.
  - cbn [append_all]. unfold bind.
    destruct (addMessage_ok env s l (JStr role) (JStr content) Hst Hh Hl (Htext _))
      as [nodes ->].
    cbn [bind_step]. eapply IH; [reflexivity|].
    apply Forall_app; split; [exact Hl|]. constructor; [|constructor].
    exists (JStr role), (JStr content). split; [reflexivity|apply Htext].
Qed.

(** In the concrete environment every sequence of text messages is
    appended without error and restored as it was. *)
Corollary browser_restores_every_history (messages : list (string * string)) (width : Z) :
  exists s1 s2,
    append_all Browser.env messages (fresh_page ∅ width) = Done (Ok tt) s1
    /\ conversationHistory s1 = JArr (map text_message messages)
    /\ loadConversation Browser.env (fresh_page (localStorage s1) width) = Done (Ok tt) s2
    /\ conversationHistory s2 = JArr (map text_message messages).
Proof.
  destruct (append_all_ok Browser.env messages) with (s := fresh_page ∅ width) (l := @nil jsval)
    as [s1 Hrun].
  - intros store key value. reflexivity.
  - intros text. eexists. reflexivity.
  - reflexivity.
  - constructor.
  - destruct (append_all_result Browser.env messages (fresh_page ∅ width) s1 [] eq_refl Hrun)
      as [Hh [[-> ->]|Hstore]].
    + exists (fresh_page ∅ width). eexists. repeat split; reflexivity.
    + cbn [app] in Hstore, Hh.
      destruct (loadConversation_restores Browser.env (localStorage s1) width
                  (JArr (map text_message messages)) Hstore
                  (BrowserFacts.stringify_history_not_empty messages)
                  (BrowserFacts.parse_stringify_history messages)) as (s2 & Hload & Hh2).
      exists s1, s2. repeat split; assumption.
Qed.

(** * The claims at concrete inputs *)

Lemma chat_history_excludes_prompt_witness :
  currentAction greeting_page = chat
  /\ posted (handleSend Browser.env greeting_page)
     = Some (mode_request Browser.env chat "hi" (JArr []))
  /\ exists (l : list jsval) (message : string),
       message = trim (chatInput_value greeting_page)
       /\ conversationHistory greeting_page = JArr l
       /\ conversationHistory (state_of (handleSend Browser.env greeting_page))
          = JArr (l ++ [user_message message])
       /\ mode_request Browser.env chat "hi" (JArr [])
          = mkRequest "http://127.0.0.1:8000/chat" "POST" "application/json"
              (JSON_stringify Browser.env
                 (JObj [("prompt", JStr message);
                        ("history", JArr (removelast (l ++ [user_message message])))]))
       /\ removelast (l ++ [user_message message]) = l
       /\ forall r s', quiet (on_response (handleSend Browser.env greeting_page) r s').
Proof.
  assert (H : posted (handleSend Browser.env greeting_page)
              = Some (mode_request Browser.env chat "hi" (JArr [])))
    by (vm_compute; reflexivity).
  split; [reflexivity|]. split; [exact H|].
  exact (chat_history_excludes_prompt Browser.env greeting_page _ eq_refl H).
Defined.

Lemma mode_operation_returns_reply_property_witness :
  posted (mode_operation Browser.env debug "hi" greeting_page)
  = Some (mode_request Browser.env debug "hi" JNull)
  /\ response_ok (mkResponse 200) = true
  /\ run (mode_operation Browser.env debug "hi" greeting_page)
       [FetchSettled (Ok (mkResponse 200)); BodySettled (Ok (JObj [("answer", JStr "ok")]))]
     = Done (Ok JUndefined) greeting_page.
Proof.
  assert (H : posted (mode_operation Browser.env debug "hi" greeting_page)
              = Some (mode_request Browser.env debug "hi" JNull))
    by (vm_compute; reflexivity).
  split; [exact H|]. split; [reflexivity|].
  exact (proj2 (mode_operation_returns_reply_property Browser.env debug "hi" greeting_page _
                  (mkResponse 200) (JObj [("answer", JStr "ok")]) H eq_refl)
               [("answer", JStr "ok")] eq_refl eq_refl).
Defined.

Lemma browser_storage_reliable : storage_reliable Browser.env.
Proof. intros store key value. reflexivity. Defined.

Lemma browser_renders_text : renders_text Browser.env.
Proof. intros text. eexists. reflexivity. Defined.

Lemma greeting_page_healthy : healthy Browser.env greeting_page.
Proof. exists []. split; [reflexivity|constructor]. Defined.

Lemma greeting_not_blank : all_whitespace (chatInput_value greeting_page) = false.
Proof. reflexivity. Defined.


Lemma two_message_page_history :
  conversationHistory two_message_page
  = JArr [user_message "design a 2-bit counter"; assistant_message (JStr "module counter")].
Proof. reflexivity. Defined.

Lemma clear_asks_iff_more_than_one_witness :
  conversationHistory two_message_page
  = JArr [user_message "design a 2-bit counter"; assistant_message (JStr "module counter")]
  /\ exists r s',
       startNewChat Browser.env true two_message_page = Done r s'
       /\ confirm_dialogs s' = [CONFIRM_QUESTION]
       /\ conversationHistory s' = JArr []
       /\ r = Ok tt
       /\ localStorage s' = <[STORAGE_KEY := "[]"]> (localStorage two_message_page).
Proof.
  split; [reflexivity|].
  destruct (clear_asks_iff_more_than_one Browser.env two_message_page _ true
              two_message_page_history) as (r & s' & Hrun & Hdialogs & Hh & Hstore).
  exists r, s'. split; [exact Hrun|]. split; [exact Hdialogs|]. split; [exact Hh|].
  exact (Hstore eq_refl).
Defined.

Lemma save_then_restore_is_identity_witness :
  JSON_stringify Browser.env (JArr (map text_message sample_messages)) <> EmptyString
  /\ JSON_parse Browser.env (JSON_stringify Browser.env (JArr (map text_message sample_messages)))
     = Ok (JArr (map text_message sample_messages))
  /\ append_all Browser.env sample_messages (fresh_page ∅ 1024)
     = Done (Ok tt) (state_of (append_all Browser.env sample_messages (fresh_page ∅ 1024)))
  /\ conversationHistory (state_of (append_all Browser.env sample_messages (fresh_page ∅ 1024)))
     = JArr (map text_message sample_messages)
  /\ exists s2,
       loadConversation Browser.env
         (fresh_page
            (localStorage (state_of (append_all Browser.env sample_messages (fresh_page ∅ 1024))))
            1024)
       = Done (Ok tt) s2
       /\ conversationHistory s2 = JArr (map text_message sample_messages).
Proof.
  assert (H1 : JSON_stringify Browser.env (JArr (map text_message sample_messages))
               <> EmptyString) by (vm_compute; discriminate).
  assert (H2 : JSON_parse Browser.env
                 (JSON_stringify Browser.env (JArr (map text_message sample_messages)))
               = Ok (JArr (map text_message sample_messages)))
    by (vm_compute; reflexivity).
  assert (H3 : append_all Browser.env sample_messages (fresh_page ∅ 1024)
               = Done (Ok tt)
                   (state_of (append_all Browser.env sample_messages (fresh_page ∅ 1024))))
    by (vm_compute; reflexivity).
  split; [exact H1|]. split; [exact H2|]. split; [exact H3|].
  exact (save_then_restore_is_identity Browser.env sample_messages 1024 _ H1 H2 H3).
Defined.

Lemma history_is_append_only_or_cleared_witness :
  reachable Browser.env waiting_session
  /\ history_step (page waiting_session)
       (page (handle Browser.env (FetchReturns 0 (Throw "Failed to fetch")) waiting_session))
  /\ history_grows (page waiting_session)
       (page (handle Browser.env (FetchReturns 0 (Throw "Failed to fetch")) waiting_session)).
Proof.
  assert (H : reachable Browser.env waiting_session) by (repeat constructor).
  split; [exact H|].
  exact (history_is_append_only_or_cleared Browser.env waiting_session
           (FetchReturns 0 (Throw "Failed to fetch")) H).
Defined.

(** * Where the script departs from its description *)

(** C2 at a concrete response: the status is 200 and the body is the
    object without properties; the debug and chat operations return
    [undefined], they do not fail. *)
Lemma missing_reply_is_returned_as_undefined :
  response_ok (mkResponse 200) = true
  /\ lookup_prop [] "reply" = None
  /\ run (handleDebugRequest Browser.env "hi" greeting_page)
       [FetchSettled (Ok (mkResponse 200)); BodySettled (Ok (JObj []))]
     = Done (Ok JUndefined) greeting_page
  /\ run (handleChatRequest Browser.env "hi" greeting_page)
       [FetchSettled (Ok (mkResponse 200)); BodySettled (Ok (JObj []))]
     = Done (Ok JUndefined) greeting_page.
Proof. repeat split; reflexivity. Qed.

(** C5 at concrete stored values: without a stored value nothing is
    logged; with the stored text of an object, which parses but is not an
    array of messages, the object becomes the history. *)
Lemma restore_logs_nothing_or_keeps_the_parsed_value :
  console_errors (state_of (loadConversation Browser.env (fresh_page ∅ 1024))) = []
  /\ conversationHistory
       (state_of (loadConversation Browser.env (fresh_page {[STORAGE_KEY := "{}"]} 1024)))
     = JObj []
  /\ JObj [] <> JArr [].
Proof. split; [reflexivity|]. split; [vm_compute; reflexivity|discriminate]. Qed.

(** C8 at a full store: the error of [setItem] leaves [addMessage], and
    [handleSend] after it, as an exception; nothing is logged. *)
Lemma storage_error_escapes_append :
  addMessage (Browser.with_quota (Some 0%nat)) (JStr "user") (JStr "hi") (fresh_page ∅ 1024)
  = Done (Throw "The quota has been exceeded.")
      (set_conversationHistory (JArr [user_message "hi"]) (fresh_page ∅ 1024))
  /\ console_errors (set_conversationHistory (JArr [user_message "hi"]) (fresh_page ∅ 1024)) = []
  /\ handleSend (Browser.with_quota (Some 0%nat)) greeting_page
     = Done (Throw "The quota has been exceeded.")
         (set_conversationHistory (JArr [user_message "hi"]) greeting_page).
Proof. split; [vm_compute; reflexivity|]. split; [reflexivity|vm_compute; reflexivity]. Qed.

(** * Further properties of the script *)

(** ** Computations within a relation *)

Section Safe.

Context (R : State -> State -> Prop).
Hypothesis R_refl : forall s, R s s.
Hypothesis R_trans : forall s1 s2 s3, R s1 s2 -> R s2 s3 -> R s1 s3.

Lemma turns_prepend {A} (s0 s : State) (st : Step A) :
  R s0 s -> turns R s st -> turns R s0 st.
Proof. intros H0 H. destruct H; constructor; eauto. Qed.

Lemma turns_bind_step {A B} (s0 : State) (st : Step A) (f : A -> M B) :
  turns R s0 st -> (forall a s, turns R s (f a s)) -> turns R s0 (bind_step st f).
Proof.
  intros H Hf. induction H as [s0 r s H0|s0 req s k H0 _ IH|s0 resp s k H0 _ IH|s0 s k H0 _ IH];
    cbn [bind_step].
  - destruct r as [a|e]; [|constructor; exact H0].
    apply turns_prepend with s; [exact H0|apply Hf].
  - constructor; [exact H0|exact IH].
  - constructor; [exact H0|exact IH].
  - constructor; [exact H0|exact IH].
Qed.

Lemma turns_catch_step {A} (s0 : State) (st : Step A) (h : string -> M A) :
  turns R s0 st -> (forall e s, turns R s (h e s)) -> turns R s0 (catch_step st h).
Proof.
  intros H Hh. induction H as [s0 r s H0|s0 req s k H0 _ IH|s0 resp s k H0 _ IH|s0 s k H0 _ IH];
    cbn [catch_step].
  - destruct r as [a|e]; [constructor; exact H0|].
    apply turns_prepend with s; [exact H0|apply Hh].
  - constructor; [exact H0|exact IH].
  - constructor; [exact H0|exact IH].
  - constructor; [exact H0|exact IH].
Qed.

Lemma turns_settle {A} (s0 : State) (st : Step A) :
  turns R s0 st -> turns R s0 (settle st).
Proof.
  intros H. induction H as [s0 r s H0|s0 req s k H0 _ IH|s0 resp s k H0 _ IH|s0 s k H0 _ IH];
    cbn [settle]; constructor; try assumption.
  intros s'. constructor. apply R_refl.
Qed.

Lemma safe_ret {A} (a : A) : safe R (ret a).
Proof. intros s. constructor. apply R_refl. Qed.

Lemma safe_throw {A} (e : string) : safe R (@throw A e).
Proof. intros s. constructor. apply R_refl. Qed.

Lemma safe_lift_exc {A} (r : Exc A) : safe R (lift_exc r).
Proof. intros s. constructor. apply R_refl. Qed.

Lemma safe_get_state : safe R get_state.
Proof. intros s. constructor. apply R_refl. Qed.

Lemma safe_modify (f : State -> State) : (forall s, R s (f s)) -> safe R (modify f).
Proof. intros H s. constructor. apply H. Qed.

Lemma safe_await_fetch (req : Request) : safe R (await_fetch req).
Proof. intros s. constructor; [apply R_refl|]. intros r s'. constructor. apply R_refl. Qed.

Lemma safe_await_json (resp : Response) : safe R (await_json resp).
Proof. intros s. constructor; [apply R_refl|]. intros r s'. constructor. apply R_refl. Qed.

Lemma safe_bind {A B} (m : M A) (f : A -> M B) :
  safe R m -> (forall a, safe R (f a)) -> safe R (bind m f).
Proof. intros Hm Hf s. apply turns_bind_step; [apply Hm|]. intros a s'. apply Hf. Qed.

Lemma safe_try_catch {A} (m : M A) (h : string -> M A) :
  safe R m -> (forall e, safe R (h e)) -> safe R (try_catch m h).
Proof. intros Hm Hh s. apply turns_catch_step; [apply Hm|]. intros e s'. apply Hh. Qed.

Lemma safe_await_call {A} (m : M A) : safe R m -> safe R (await_call m).
Proof. intros Hm s. apply turns_settle. apply Hm. Qed.

Lemma safe_for_each (l : list jsval) (f : jsval -> M unit) :
  (forall x, safe R (f x)) -> safe R (for_each l f).
Proof.
  intros Hf. induction l as [|x l IH]; cbn [for_each]; [apply safe_ret|].
  apply safe_bind; [apply Hf|]. intros _. exact IH.
Qed.

End Safe.

(** ** What a send leaves alone *)

Lemma send_frame_refl (s : State) : send_frame s s.
Proof. repeat split. Qed.

Lemma send_frame_trans (s1 s2 s3 : State) :
  send_frame s1 s2 -> send_frame s2 s3 -> send_frame s1 s3.
Proof.
  intros (A1 & A2 & A3 & A4 & A5 & A6 & A7) (B1 & B2 & B3 & B4 & B5 & B6 & B7).
  repeat split; try congruence. intros key Hkey. rewrite B7, A7; trivial.
Qed.

Ltac safe_step :=
  first
    [ apply safe_ret; exact send_frame_refl
    | apply safe_throw; exact send_frame_refl
    | apply safe_lift_exc; exact send_frame_refl
    | apply safe_get_state; exact send_frame_refl
    | apply safe_await_fetch; exact send_frame_refl
    | apply safe_await_json; exact send_frame_refl
    | apply safe_modify; intros ?; repeat split
    | apply safe_await_call; [exact send_frame_refl|]
    | apply safe_try_catch; [exact send_frame_trans| |intros ?]
    | apply safe_bind; [exact send_frame_trans| |intros ?] ].

Section Frame.

Context (env : Env).

Lemma safe_setItem (key value : string) :
  key = STORAGE_KEY -> safe send_frame (localStorage_setItem env key value).
Proof.
  intros -> s. unfold localStorage_setItem.
  destruct (quota_exceeded env _ _ _); constructor; [apply send_frame_refl|].
  repeat split. intros key Hkey. cbn. rewrite lookup_insert_ne; congruence.
Qed.

Lemma safe_saveConversation : safe send_frame (saveConversation env).
Proof.
  unfold saveConversation. safe_step; [safe_step|]. apply safe_setItem. reflexivity.
Qed.

Lemma safe_renderMessages : safe send_frame (renderMessages env).
Proof.
  unfold renderMessages, scrollToBottom. repeat safe_step.
  unfold forEach. destruct (conversationHistory _); try safe_step.
  apply safe_for_each; [exact send_frame_refl|exact send_frame_trans|].
  intros m. unfold render_message. repeat safe_step.
Qed.

Lemma safe_addMessage (role content : jsval) : safe send_frame (addMessage env role content).
Proof.
  unfold addMessage, scrollToBottom.
  repeat first [apply safe_saveConversation | apply safe_renderMessages | safe_step].
Qed.

Lemma safe_mode_operation (a : action) (message : string) :
  safe send_frame (mode_operation env a message).
Proof.
  destruct a; cbn [mode_operation];
    unfold handleChatRequest, handleDebugRequest, handleExplainRequest, handleGenerateRequest;
    repeat first [safe_step | match goal with |- context [if ?b then _ else _] => destruct b end].
Qed.

Lemma safe_handleSend : safe send_frame (handleSend env).
Proof.
  unfold handleSend, showTypingIndicator, removeTypingIndicator, scrollToBottom.
  safe_step; [safe_step|].
  match goal with |- context [if ?b then _ else _] => destruct b end; [safe_step|].
  repeat first
    [ apply safe_addMessage
    | apply (safe_mode_operation chat) | apply (safe_mode_operation debug)
    | apply (safe_mode_operation explain) | apply (safe_mode_operation generate)
    | match goal with |- context [match currentAction ?s with _ => _ end] =>
        destruct (currentAction s) end
    | safe_step ].
Qed.

End Frame.

(** ** What the other handlers leave alone *)

Lemma turns_mono {A} (R R' : State -> State -> Prop) (s0 : State) (st : Step A) :
  (forall s s', R s s' -> R' s s') -> turns R s0 st -> turns R' s0 st.
Proof. intros Hsub H. induction H; constructor; auto. Qed.

Lemma page_frame_refl (s : State) : page_frame s s.
Proof. repeat split. Qed.

Lemma page_frame_trans (s1 s2 s3 : State) :
  page_frame s1 s2 -> page_frame s2 s3 -> page_frame s1 s3.
Proof.
  intros (A1 & A2 & A3 & A4 & A5) (B1 & B2 & B3 & B4 & B5).
  repeat split; try congruence.
  - intros key Hkey. rewrite B2, A2; trivial.
  - intros Hwide. rewrite B5, A5; trivial. rewrite A3. exact Hwide.
Qed.

Lemma send_frame_page_frame (s s' : State) : send_frame s s' -> page_frame s s'.
Proof. intros (A1 & A2 & A3 & A4 & A5 & A6 & A7). repeat split; auto. Qed.

Section Handlers.

Context (env : Env).

Lemma closeSidebar_frame (s : State) :
  exists s', closeSidebar s = Done (Ok tt) s' /\ page_frame s s'
             /\ confirm_dialogs s' = confirm_dialogs s
             /\ conversationHistory s' = conversationHistory s.
Proof.
  unfold closeSidebar, bind, get_state, modify. cbn [bind_step].
  destruct (innerWidth s <=? 768) eqn:Hw; eexists; (split; [reflexivity|]);
    repeat split.
  cbn. intros Hwide. apply Z.leb_le in Hw. lia.
Qed.

Lemma toggleSidebar_frame (s : State) :
  exists s', toggleSidebar s = Done (Ok tt) s' /\ page_frame s s'
             /\ confirm_dialogs s' = confirm_dialogs s.
Proof.
  unfold toggleSidebar, bind, get_state, modify. cbn [bind_step].
  destruct (innerWidth s <=? 768) eqn:Hw; eexists; (split; [reflexivity|]);
    repeat split.
  cbn. intros Hwide. apply Z.leb_le in Hw. lia.
Qed.

Lemma document_click_frame (outside : bool) (s : State) :
  exists s', document_click outside s = Done (Ok tt) s' /\ page_frame s s'
             /\ confirm_dialogs s' = confirm_dialogs s.
Proof.
  unfold document_click, bind, get_state. cbn [bind_step].
  destruct (isSidebarOpen s && (innerWidth s <=? 768));
    [destruct outside|]; try solve [exists s; repeat split].
  destruct (closeSidebar_frame s) as (s' & Hrun & Hf & Hd & _).
  exists s'. split; [exact Hrun|]. split; [exact Hf|exact Hd].
Qed.

Lemma startNewChat_frame (answer : bool) (s : State) :
  exists r s', startNewChat env answer s = Done r s' /\ page_frame s s'.
Proof.
  assert (Hsafe : safe page_frame (startNewChat env answer)).
  { unfold startNewChat, confirm.
    assert (Hsave : safe page_frame (saveConversation env)).
    { intros s0. eapply turns_mono; [exact send_frame_page_frame|apply safe_saveConversation]. }
    assert (Hrender : safe page_frame (renderMessages env)).
    { intros s0. eapply turns_mono; [exact send_frame_page_frame|apply safe_renderMessages]. }
    assert (Hclose : safe page_frame closeSidebar).
    { intros s0. destruct (closeSidebar_frame s0) as (s' & -> & Hf & _). constructor. exact Hf. }
    repeat first
      [ exact Hsave | exact Hrender | exact Hclose
      | apply safe_ret; exact page_frame_refl
      | apply safe_lift_exc; exact page_frame_refl
      | apply safe_get_state; exact page_frame_refl
      | apply safe_modify; intros ?; repeat split
      | apply safe_bind; [exact page_frame_trans| |intros ?]
      | match goal with |- context [if ?b then _ else _] => destruct b end ]. }
  destruct (startNewChat_step env answer s) as (r & s' & Hrun & _).
  exists r, s'. split; [exact Hrun|].
  pose proof (Hsafe s) as Hturn. rewrite Hrun in Hturn. inversion Hturn; assumption.
Qed.

Lemma window_resize_outcome (width : Z) (s : State) :
  exists s',
    window_resize width s = Done (Ok tt) s'
    /\ innerWidth s' = width
    /\ sidebar_fits s'
    /\ console_errors s' = console_errors s
    /\ confirm_dialogs s' = confirm_dialogs s
    /\ localStorage s' = localStorage s
    /\ conversationHistory s' = conversationHistory s
    /\ sidebar_open s' = sidebar_open s.
Proof.
  unfold window_resize, checkMobileView, bind, get_state, modify. cbn [bind_step].
  cbn [innerWidth set_innerWidth].
  destruct (width <=? 768) eqn:Hw; eexists; (split; [reflexivity|]); repeat split;
    cbn; try (rewrite Hw; reflexivity).
  apply Z.leb_le in Hw. lia.
Qed.

End Handlers.

(** ** Sessions: what every event does *)

Lemma turns_inv {A} (R : State -> State -> Prop) (s0 : State) (st : Step A) :
  turns R s0 st ->
  R s0 (state_of st)
  /\ match st with
     | Done _ _ => True
     | Fetch _ _ k => forall r s', turns R s' (k r s')
     | Json _ _ k => forall r s', turns R s' (k r s')
     | Tick _ k => forall s', turns R s' (k s')
     end.
Proof. intros H. destruct H; split; auto. Qed.

Lemma quiet_inv {A} (st : Step A) :
  quiet st ->
  match st with
  | Done _ _ => True
  | Fetch _ _ _ => False
  | Json _ _ k => forall r s', quiet (k r s')
  | Tick _ k => forall s', quiet (k s')
  end.
Proof. intros H. destruct H; auto. Qed.

Section Effects.

Context (env : Env).

Lemma install_quiet (st : Step unit) (s0 : State) (waiting : list pending)
    (log : list Request) :
  turns send_frame s0 st -> quiet st -> Forall framed waiting ->
  Forall framed (pool (install st waiting log))
  /\ sent (install st waiting log) = log
  /\ send_frame s0 (page (install st waiting log)).
Proof.
  intros Ht Hq Hw. apply turns_inv in Ht. destruct Ht as [H0 Hk].
  apply quiet_inv in Hq.
  destruct st as [r s|req s k|resp s k|s k]; cbn in *; try contradiction;
    (split; [|split; [reflexivity|exact H0]]); try exact Hw;
    (apply Forall_app; split; [exact Hw|]); (constructor; [|constructor]);
    cbn; intros; split; auto.
Qed.

Lemma install_handleSend (s0 : State) (waiting : list pending) (log : list Request) :
  Forall framed waiting ->
  Forall framed (pool (install (handleSend env s0) waiting log))
  /\ (sent (install (handleSend env s0) waiting log) = log
      \/ exists a message prior,
           sent (install (handleSend env s0) waiting log)
           = (log ++ [mode_request env a message prior])%list)
  /\ send_frame s0 (page (install (handleSend env s0) waiting log)).
Proof.
  intros Hw. pose proof (safe_handleSend env s0) as Ht.
  destruct (handleSend_first_turn env s0)
    as [[_ H]|[(_ & e & s' & H & _)|(_ & l & s1 & _ & _ & _ & H)]]; rewrite H in Ht |- *.
  - destruct (install_quiet _ s0 waiting log Ht (quiet_done _ _) Hw) as (A & B & C).
    split; [exact A|]. split; [left; exact B|exact C].
  - destruct (install_quiet _ s0 waiting log Ht (quiet_done _ _) Hw) as (A & B & C).
    split; [exact A|]. split; [left; exact B|exact C].
  - apply turns_inv in Ht. destruct Ht as [H0 Hk]. cbn in H0, Hk |- *.
    split; [|split; [right; eexists _, _, _; reflexivity|exact H0]].
    apply Forall_app; split; [exact Hw|]. constructor; [|constructor].
    cbn. intros r s. split; [apply Hk|apply after_fetch_quiet].
Qed.

Lemma handle_effects (ev : event) (ss : Session) :
  Forall framed (pool ss) ->
  Forall framed (pool (handle env ev ss))
  /\ (sent (handle env ev ss) = sent ss
      \/ sends ev
         /\ exists a message prior,
              sent (handle env ev ss) = (sent ss ++ [mode_request env a message prior])%list)
  /\ event_relation ev (page ss) (page (handle env ev ss)).
Proof.
  intros Hpool.
  assert (Hsend : forall s0,
            send_frame (page ss) s0 ->
            Forall framed (pool (install (handleSend env s0) (pool ss) (sent ss)))
            /\ (sent (install (handleSend env s0) (pool ss) (sent ss)) = sent ss
                \/ True
                   /\ exists a message prior,
                        sent (install (handleSend env s0) (pool ss) (sent ss))
                        = (sent ss ++ [mode_request env a message prior])%list)
            /\ send_frame (page ss) (page (install (handleSend env s0) (pool ss) (sent ss)))).
  { intros s0 H0. destruct (install_handleSend s0 (pool ss) (sent ss) Hpool) as (A & B & C).
    split; [exact A|]. split; [destruct B as [B|B]; [left; exact B|right; split; [exact I|exact B]]|].
    eapply send_frame_trans; [exact H0|exact C]. }
  assert (Hdone : forall (r : Exc unit) s',
            Forall framed (pool (install (Done r s') (pool ss) (sent ss)))
            /\ sent (install (Done r s') (pool ss) (sent ss)) = sent ss).
  { intros r s'. split; [exact Hpool|reflexivity]. }
  assert (Hresume : forall i (turn : pending -> option (Step unit)),
            (forall p st, framed p -> turn p = Some st ->
                          turns send_frame (page ss) st /\ quiet st) ->
            let ss' := match nth_error (pool ss) i with
                       | Some p =>
                           match turn p with
                           | Some st => install st (remove_nth i (pool ss)) (sent ss)
                           | None => ss
                           end
                       | None => ss
                       end in
            Forall framed (pool ss') /\ sent ss' = sent ss /\ send_frame (page ss) (page ss')).
  { intros i turn Hturn.
    destruct (nth_error (pool ss) i) as [p|] eqn:Hnth; cbn zeta;
      [|split; [exact Hpool|split; [reflexivity|apply send_frame_refl]]].
    destruct (turn p) as [st|] eqn:Hp;
      [|split; [exact Hpool|split; [reflexivity|apply send_frame_refl]]].
    destruct (Hturn p st (Forall_nth_error _ _ _ _ Hpool Hnth) Hp) as [Ht Hq].
    apply install_quiet; try assumption. apply Forall_remove_nth. exact Hpool. }
  destruct ev; cbn [handle event_relation sends].
  - split; [exact Hpool|]. split; [left; reflexivity|]. repeat split.
  - apply Hsend. apply send_frame_refl.
  - unfold chatInput_keydown. destruct (_ && _).
    + apply Hsend. apply send_frame_refl.
    + split; [exact Hpool|]. split; [left; reflexivity|apply send_frame_refl].
  - destruct (Hsend (set_currentAction debug (page ss))) as (A & B & C); [repeat split|].
    split; [exact A|]. split; [exact B|exact C].
  - destruct (Hsend (set_currentAction explain (page ss))) as (A & B & C); [repeat split|].
    split; [exact A|]. split; [exact B|exact C].
  - destruct (Hsend (set_currentAction generate (page ss))) as (A & B & C); [repeat split|].
    split; [exact A|]. split; [exact B|exact C].
  - unfold newChatBtn_click.
    match goal with |- context [startNewChat env ?a] =>
      destruct (startNewChat_frame env a (page ss)) as (r & s' & -> & Hf) end.
    split; [exact Hpool|]. split; [left; reflexivity|exact Hf].
  - destruct (toggleSidebar_frame (page ss)) as (s' & -> & Hf).
    split; [exact Hpool|]. split; [left; reflexivity|exact Hf].
  - destruct (document_click_frame outside (page ss)) as (s' & -> & Hf).
    split; [exact Hpool|]. split; [left; reflexivity|exact Hf].
  - destruct (window_resize_outcome width (page ss)) as (s' & -> & A & B & C & D & E & _).
    split; [exact Hpool|]. split; [left; reflexivity|].
    cbn [page install]. split; [exact A|]. split; [exact B|]. split; [exact C|]. split; [exact D|exact E].
  - destruct (Hresume i (fun p => match p with PFetch _ k => Some (k r (page ss)) | _ => None end))
      as (A & B & C).
    { intros [req k|resp k|k] st Hp Hst; try discriminate. injection Hst as <-. apply Hp. }
    split; [exact A|]. split; [left; exact B|exact C].
  - destruct (Hresume i (fun p => match p with PJson _ k => Some (k r (page ss)) | _ => None end))
      as (A & B & C).
    { intros [req k|resp k|k] st Hp Hst; try discriminate. injection Hst as <-. apply Hp. }
    split; [exact A|]. split; [left; exact B|exact C].
  - destruct (Hresume i (fun p => match p with PTick k => Some (k (page ss)) | _ => None end))
      as (A & B & C).
    { intros [req k|resp k|k] st Hp Hst; try discriminate. injection Hst as <-. apply Hp. }
    split; [exact A|]. split; [left; exact B|exact C].
Qed.

Lemma reachable_framed (ss : Session) : reachable env ss -> Forall framed (pool ss).
Proof.
  induction 1 as [storage width|ss ev _ IH].
  - unfold loaded.
    destruct (DOMContentLoaded_sync env (fresh_page storage width)) as (r & s' & ->).
    constructor.
  - apply handle_effects. exact IH.
Qed.

End Effects.

(** ** Properties of sessions *)

Lemma loadConversation_returns (env : Env) (s : State) :
  exists s', loadConversation env s = Done (Ok tt) s'.
Proof.
  unfold loadConversation, bind, get_state. cbn [bind_step].
  destruct (localStorage s !! STORAGE_KEY) as [saved|]; [|exists s; reflexivity].
  destruct (is_empty saved); [exists s; reflexivity|].
  unfold try_catch, bind, lift_exc.
  destruct (JSON_parse env saved) as [parsed|e]; cbn [bind_step catch_step].
  - unfold modify. cbn [bind_step].
    destruct (renderMessages_sync env (set_conversationHistory parsed s)) as (r & nodes & ->).
    destruct r as [[]|e]; cbn [catch_step]; eexists; reflexivity.
  - eexists. reflexivity.
Qed.

Lemma reachable_after_events (env : Env) (events : list event) :
  forall ss, reachable env ss -> reachable env (after_events env ss events).
Proof.
  induction events as [|ev events IH]; intros ss Hss; [exact Hss|].
  cbn. apply IH. constructor. exact Hss.
Qed.

(** X1.  The script writes to the console only while the page loads, touches
    no key of the store but its own, shows a dialog only on a click on the
    new-chat button, and takes the width of the window only from a resize:
    no event of a session does otherwise, and neither does a send that is
    resumed. *)
Theorem events_keep_to_their_own (env : Env) (ss : Session) (ev : event) :
  reachable env ss ->
  console_errors (page (handle env ev ss)) = console_errors (page ss)
  /\ (forall key, key <> STORAGE_KEY ->
      localStorage (page (handle env ev ss)) !! key = localStorage (page ss) !! key)
  /\ ((forall answer, ev <> ClickNewChat answer) ->
      confirm_dialogs (page (handle env ev ss)) = confirm_dialogs (page ss))
  /\ ((forall width, ev <> Resize width) ->
      innerWidth (page (handle env ev ss)) = innerWidth (page ss)).
Proof.
  intros Hreach.
  destruct (handle_effects env ev ss (reachable_framed env ss Hreach)) as (_ & _ & Hrel).
  destruct ev; cbn [event_relation] in Hrel;
    try (destruct Hrel as (_ & _ & _ & A4 & A5 & A6 & A7);
         split; [exact A5|]; split; [exact A7|]; split; intros _; assumption).
  - destruct Hrel as (A1 & A2 & A3 & _).
    split; [exact A1|]. split; [exact A2|]. split; [|intros _; exact A3].
    intros H. exfalso. eapply H. reflexivity.
  - destruct Hrel as ((A1 & A2 & A3 & _) & A6).
    split; [exact A1|]. split; [exact A2|]. split; intros _; assumption.
  - destruct Hrel as ((A1 & A2 & A3 & _) & A6).
    split; [exact A1|]. split; [exact A2|]. split; intros _; assumption.
  - destruct Hrel as (_ & _ & A5 & A6 & A7).
    split; [exact A5|]. split; [intros key _; rewrite A7; reflexivity|].
    split; [intros _; exact A6|]. intros H. exfalso. eapply H. reflexivity.
Qed.

Lemma mode_request_shape (env : Env) (a : action) (message : string) (prior : jsval) :
  method (mode_request env a message prior) = "POST"
  /\ content_type (mode_request env a message prior) = "application/json"
  /\ In (url (mode_request env a message prior)) ENDPOINTS.
Proof. destruct a; cbn; repeat split; auto 6. Qed.

(** X2.  An event adds at most one request to those the session has sent, and
    only an event that calls [handleSend] adds one: a suspended send that is
    resumed never posts again.  Every request is a POST of JSON to one of
    the four endpoints. *)
Theorem one_request_per_send_at_most (env : Env) (ss : Session) (ev : event) :
  reachable env ss ->
  sent (handle env ev ss) = sent ss
  \/ sends ev
     /\ exists req,
          sent (handle env ev ss) = (sent ss ++ [req])%list
          /\ method req = "POST"
          /\ content_type req = "application/json"
          /\ In (url req) ENDPOINTS.
Proof.
  intros Hreach.
  destruct (handle_effects env ev ss (reachable_framed env ss Hreach))
    as (_ & [Hsame|(Hsends & a & message & prior & Hsent)] & _); [left; exact Hsame|].
  right. split; [exact Hsends|]. eexists. split; [exact Hsent|]. apply mode_request_shape.
Qed.

Lemma checkMobileView_fits (s : State) :
  exists s', checkMobileView s = Done (Ok tt) s' /\ sidebar_fits s'.
Proof.
  unfold checkMobileView, bind, get_state, modify. cbn [bind_step].
  destruct (innerWidth s <=? 768) eqn:Hw; eexists; (split; [reflexivity|]); split; cbn;
    try (rewrite Hw; reflexivity); try reflexivity.
  apply Z.leb_le in Hw. lia.
Qed.

(** X3.  In every session the sidebar fits the window: it has the class
    [collapsed] exactly when the window is at most 768 wide, and on a wider
    window [isSidebarOpen] is true. *)
Theorem sidebar_fits_the_window (env : Env) (ss : Session) :
  reachable env ss -> sidebar_fits (page ss).
Proof.
  intros Hreach. induction Hreach as [storage width|ss ev Hreach IH].
  - unfold loaded, DOMContentLoaded, bind.
    destruct (loadConversation_returns env (fresh_page storage width)) as (s1 & ->).
    cbn [bind_step].
    destruct (checkMobileView_fits s1) as (s2 & -> & Hfits). exact Hfits.
  - destruct (handle_effects env ev ss (reachable_framed env ss Hreach)) as (_ & _ & Hrel).
    destruct IH as [Hc Ho].
    assert (Hpage : page_frame (page ss) (page (handle env ev ss)) ->
                    sidebar_fits (page (handle env ev ss))).
    { intros (_ & _ & A3 & A4 & A5). split.
      - rewrite A4, A3. exact Hc.
      - rewrite A3. intros Hwide. rewrite A5; auto. }
    destruct ev; cbn [event_relation] in Hrel;
      try (apply Hpage; apply send_frame_page_frame; exact Hrel);
      try (apply Hpage; first [exact Hrel | exact (proj1 Hrel)]).
    apply Hrel.
Qed.

Lemma sent_install (st : Step unit) (waiting : list pending) (log : list Request) :
  posted st = None -> sent (install st waiting log) = log.
Proof. destruct st; cbn; [reflexivity|discriminate|reflexivity|reflexivity]. Qed.

Lemma handleSend_null (env : Env) (s : State) :
  conversationHistory s = JNull -> posted (handleSend env s) = None.
Proof.
  intros Hnull.
  destruct (handleSend_first_turn env s)
    as [[_ ->]|[(_ & e & s' & -> & _)|(_ & l & s1 & Hh & _)]]; try reflexivity.
  congruence.
Qed.

Lemma null_stays (env : Env) (ss : Session) (ev : event) :
  reachable env ss ->
  conversationHistory (page ss) = JNull ->
  conversationHistory (page (handle env ev ss)) = JNull
  /\ sent (handle env ev ss) = sent ss.
Proof.
  intros Hreach Hnull.
  assert (Hgrow : history_grows (page ss) (page (handle env ev ss)) ->
                  conversationHistory (page (handle env ev ss)) = JNull).
  { unfold history_grows, grows. rewrite Hnull.
    intros [H|(l & suffix & H & _)]; [exact H|discriminate]. }
  assert (Hsent : sent (handle env ev ss) = sent ss).
  { destruct (handle_effects env ev ss (reachable_framed env ss Hreach))
      as (_ & [Hsame|(Hsends & _)] & _); [exact Hsame|].
    destruct ev; cbn [sends] in Hsends; try contradiction; cbn [handle];
      unfold sendBtn_click, chatInput_keydown, debugBtn_click, explainBtn_click,
        generateBtn_click, bind, modify; cbn [bind_step];
      try match goal with |- context [if ?b then _ else _] => destruct b end;
      try reflexivity; apply sent_install; apply handleSend_null; exact Hnull. }
  split; [|exact Hsent].
  destruct ev;
    try (apply Hgrow;
         apply (fun Hev => proj1 (handle_grows env _ ss Hev (reachable_pool env ss Hreach)));
         discriminate).
  cbn [handle]. unfold newChatBtn_click, startNewChat, bind, get_state, lift_exc.
  cbn [bind_step]. rewrite Hnull. cbn. exact Hnull.
Qed.

Lemma loadConversation_parsed (env : Env) (s : State) (saved : string) (parsed : jsval) :
  localStorage s !! STORAGE_KEY = Some saved ->
  is_empty saved = false ->
  JSON_parse env saved = Ok parsed ->
  exists s', loadConversation env s = Done (Ok tt) s' /\ conversationHistory s' = parsed.
Proof.
  intros Hkey Hne Hparse.
  unfold loadConversation, bind, get_state. cbn [bind_step]. rewrite Hkey, Hne.
  unfold try_catch, bind, lift_exc. rewrite Hparse. cbn [bind_step catch_step].
  unfold modify. cbn [bind_step].
  destruct (renderMessages_sync env (set_conversationHistory parsed s)) as (r & nodes & ->).
  destruct r as [[]|e]; cbn [catch_step]; eexists; split; reflexivity.
Qed.

(** X4.  A stored text that [JSON.parse] reads as [null] becomes the history
    when the page loads, and the page cannot leave that state: whatever
    events follow, the history stays [null] (a send throws before it posts,
    a click on the new-chat button throws before it clears) and no request
    is ever sent. *)
Theorem stored_null_blocks_the_page (env : Env) (storage : gmap string string)
    (text : string) (width : Z) (events : list event) :
  storage !! STORAGE_KEY = Some text ->
  JSON_parse env text = Ok JNull ->
  is_empty text = false ->
  conversationHistory (page (after_events env (loaded env storage width) events)) = JNull
  /\ sent (after_events env (loaded env storage width) events) = [].
Proof.
  intros Hkey Hparse Htext.
  assert (Hload : conversationHistory (page (loaded env storage width)) = JNull
                  /\ sent (loaded env storage width) = []).
  { unfold loaded, DOMContentLoaded, bind.
    destruct (loadConversation_parsed env (fresh_page storage width) text JNull
                Hkey Htext Hparse) as (s1 & -> & Hh).
    cbn [bind_step].
    unfold checkMobileView, bind, get_state, modify. cbn [bind_step].
    destruct (innerWidth s1 <=? 768); cbn; split; auto. }
  assert (Hall : forall ss,
            reachable env ss -> conversationHistory (page ss) = JNull -> sent ss = [] ->
            conversationHistory (page (after_events env ss events)) = JNull
            /\ sent (after_events env ss events) = []).
  { induction events as [|ev events IH]; intros ss Hreach Hnull Hsent; [split; assumption|].
    destruct (null_stays env ss ev Hreach Hnull) as [Hnull' Hsent'].
    cbn. apply IH; [constructor; exact Hreach|exact Hnull'|congruence]. }
  destruct Hload as [Hnull Hsent]. apply Hall; [constructor|exact Hnull|exact Hsent].
Qed.

(** ** The sidebar *)

(** X5.  On a narrow window a resize (to a narrow width again) while the
    sidebar is open clears [isSidebarOpen] but leaves the class [open]: a
    click outside the sidebar then does not close it, and the next toggle
    removes the class while it sets the flag. *)
Theorem narrow_resize_parts_flag_and_class (s : State) (width : Z) :
  sidebar_shown s ->
  width <= 768 ->
  exists s1 s2,
    window_resize width s = Done (Ok tt) s1
    /\ isSidebarOpen s1 = false /\ sidebar_open s1 = true
    /\ document_click true s1 = Done (Ok tt) s1
    /\ toggleSidebar s1 = Done (Ok tt) s2
    /\ isSidebarOpen s2 = true /\ sidebar_open s2 = false.
Proof.
  intros (Hnarrow & Hflag & Hclass) Hw. apply Z.leb_le in Hw.
  exists (set_sidebar false true true (set_innerWidth width s)),
         (set_sidebar true false true (set_innerWidth width s)).
  unfold window_resize, checkMobileView, document_click, toggleSidebar, bind, get_state, modify.
  cbn [bind_step set_innerWidth set_sidebar innerWidth sidebar_open isSidebarOpen
       sidebar_collapsed andb negb].
  rewrite Hw, Hclass. cbn [bind_step]. repeat split.
Qed.

(** X6.  Toggling the sidebar twice gives the page back as it was (on a wide
    window a toggle does nothing at all). *)
Theorem toggle_twice_is_identity (s : State) :
  (toggleSidebar >> toggleSidebar) s = Done (Ok tt) s
  /\ (768 < innerWidth s -> toggleSidebar s = Done (Ok tt) s).
Proof.
  unfold toggleSidebar, bind, get_state, modify. cbn [bind_step].
  destruct (innerWidth s <=? 768) eqn:Hw; cbn [bind_step].
  - cbn. rewrite Hw. cbn. rewrite !negb_involutive. split; [destruct s; reflexivity|].
    apply Z.leb_le in Hw. lia.
  - cbn. rewrite Hw. split; reflexivity.
Qed.

(** ** Rendering *)

Lemma for_each_render_view (env : Env) (l : list jsval) :
  forall s, exists r nodes prefix rest,
    for_each l (render_message env) s = Done r (set_chatMessages (chatMessages s ++ nodes) s)
    /\ l = (prefix ++ rest)%list
    /\ Forall2 (renders_as env) prefix nodes
    /\ match r with
       | Ok _ => rest = []
       | Throw _ => exists bad rest', rest = bad :: rest' /\ forall n, ~ renders_as env bad n
       end.
Proof.
  induction l as [|m l IH]; intros s.
  - exists (Ok tt), [], [], []. rewrite app_nil_r.
    split; [destruct s; reflexivity|]. repeat split. constructor.
  - assert (Hbad : forall e, (forall n, ~ renders_as env m n) ->
              exists r nodes prefix rest,
                Done (A := unit) (Throw e) s
                = Done r (set_chatMessages (chatMessages s ++ nodes) s)
                /\ m :: l = (prefix ++ rest)%list
                /\ Forall2 (renders_as env) prefix nodes
                /\ match r with
                   | Ok _ => rest = []
                   | Throw _ => exists bad rest',
                       rest = bad :: rest' /\ forall n, ~ renders_as env bad n
                   end).
    { intros e Hm. exists (Throw e), [], [], (m :: l). rewrite app_nil_r.
      split; [destruct s; reflexivity|]. split; [reflexivity|]. split; [constructor|].
      exists m, l. split; [reflexivity|exact Hm]. }
    cbn [for_each]. unfold bind at 1. unfold render_message at 1. unfold bind, lift_exc.
    destruct (get_prop m "role") as [role|e] eqn:Hrole; cbn [bind_step].
    2:{ apply Hbad. intros n (role & content & html & H & _). congruence. }
    destruct (get_prop m "content") as [content|e] eqn:Hcontent; cbn [bind_step].
    2:{ apply Hbad. intros n (role' & content & html & _ & H & _). congruence. }
    destruct (marked_parse env content) as [html|e] eqn:Hhtml; cbn [bind_step].
    2:{ apply Hbad. intros n (role' & content' & html & _ & H1 & H2 & _). congruence. }
    unfold modify. cbn [bind_step].
    destruct (IH (set_chatMessages (chatMessages s ++ [MessageDiv role (is_user role) html]) s))
      as (r & nodes & prefix & rest & -> & -> & Hnodes & Hr).
    exists r, (MessageDiv role (is_user role) html :: nodes), (m :: prefix), rest.
    split; [cbn; rewrite <- app_assoc; reflexivity|]. split; [reflexivity|].
    split; [|exact Hr]. constructor; [|exact Hnodes].
    exists role, content, html. repeat split; assumption.
Qed.

Lemma renderMessages_view (env : Env) (s : State) (l : list jsval) :
  conversationHistory s = JArr l ->
  exists r nodes prefix rest,
    renderMessages env s = Done r (set_chatMessages nodes s)
    /\ l = (prefix ++ rest)%list
    /\ Forall2 (renders_as env) prefix nodes
    /\ match r with
       | Ok _ => rest = []
       | Throw _ => exists bad rest', rest = bad :: rest' /\ forall n, ~ renders_as env bad n
       end.
Proof.
  intros Hh. unfold renderMessages, bind, modify, get_state, forEach. cbn [bind_step].
  cbn [conversationHistory set_chatMessages]. rewrite Hh.
  destruct (for_each_render_view env l (set_chatMessages [] s))
    as (r & nodes & prefix & rest & -> & Hl & Hnodes & Hr).
  exists r, nodes, prefix, rest.
  split; [destruct r as [[]|e]; reflexivity|]. repeat split; assumption.
Qed.

(** X7.  [renderMessages] on a history that is an array discards the view and
    shows one block per message, in order, each with the role of its message
    and its content as [marked] renders it: all the messages when it
    returns, and when it throws the messages before the first one that
    cannot be rendered, the ones after it being left out.  It changes
    nothing but the view. *)
Theorem rendering_stops_at_first_failure (env : Env) (s : State) (l : list jsval) :
  conversationHistory s = JArr l ->
  exists r nodes prefix rest,
    renderMessages env s = Done r (set_chatMessages nodes s)
    /\ l = (prefix ++ rest)%list
    /\ Forall2 (renders_as env) prefix nodes
    /\ match r with
       | Ok _ => rest = []
       | Throw _ => exists bad rest', rest = bad :: rest' /\ forall n, ~ renders_as env bad n
       end.
Proof.
  intros Hh. unfold renderMessages, bind, modify, get_state, forEach. cbn [bind_step].
  cbn [conversationHistory set_chatMessages]. rewrite Hh.
  destruct (for_each_render_view env l (set_chatMessages [] s))
    as (r & nodes & prefix & rest & -> & Hl & Hnodes & Hr).
  exists r, nodes, prefix, rest.
  split; [destruct r as [[]|e]; reflexivity|]. repeat split; assumption.
Qed.

Lemma displayable_renders_as (env : Env) (m : jsval) :
  displayable env m -> exists n, renders_as env m n.
Proof.
  intros (role & content & -> & html & Hhtml).
  exists (MessageDiv role (is_user role) html), role, content, html.
  repeat split; exact Hhtml.
Qed.

Lemma Forall2_In_l {A B} (P : A -> B -> Prop) (l : list A) (k : list B) (x : A) :
  Forall2 P l k -> In x l -> exists y, P x y.
Proof.
  induction 1 as [|a b l k Hab _ IH]; intros Hin; [destruct Hin|].
  destruct Hin as [<-|Hin]; [exists b; exact Hab|apply IH; exact Hin].
Qed.

(** Rendering a history whose messages before [m] can be shown and whose
    message [m] has a content that [marked] rejects. *)
Lemma for_each_render_rejected (env : Env) (l rest : list jsval) (role content : jsval)
    (e : string) :
  Forall (displayable env) l ->
  marked_parse env content = Throw e ->
  forall s, exists nodes,
    for_each (l ++ message_object role content :: rest) (render_message env) s
    = Done (Throw e) (set_chatMessages (chatMessages s ++ nodes) s)
    /\ Forall2 (renders_as env) l nodes.
Proof.
  intros Hl Hc. induction Hl as [|m l Hm _ IH]; intros s.
  - exists []. rewrite app_nil_r. cbn [app for_each]. unfold bind at 1.
    unfold render_message at 1. unfold bind, lift_exc. cbn. rewrite Hc. cbn.
    split; [destruct s; reflexivity|constructor].
  - destruct Hm as (role' & content' & -> & html & Hhtml).
    cbn [app for_each]. unfold bind at 1. unfold render_message at 1. unfold bind, lift_exc.
    cbn -[for_each]. rewrite Hhtml. cbn -[for_each].
    destruct (IH (set_chatMessages
                    (chatMessages s ++ [MessageDiv role' (is_user role') html]) s))
      as (nodes & Hrun & Hnodes).
    exists (MessageDiv role' (is_user role') html :: nodes).
    split.
    + etransitivity; [exact Hrun|]. cbn. rewrite <- app_assoc. reflexivity.
    + constructor; [|exact Hnodes]. exists role', content', html.
      repeat split; exact Hhtml.
Qed.

Section Exchange.

Context (env : Env).
Hypothesis storage_ok : storage_reliable env.

(** [addMessage] on a history that can be shown, with a content that can
    be shown: the message is stored and every message has its block. *)
Lemma addMessage_shown (s : State) (l : list jsval) (role content : jsval) :
  conversationHistory s = JArr l ->
  Forall (displayable env) l ->
  renders env content ->
  exists nodes,
    addMessage env role content s
    = Done (Ok tt) (appended env (message_object role content) l nodes s)
    /\ Forall2 (renders_as env) (l ++ [message_object role content]) nodes.
Proof.
  intros Hh Hl Hc. rewrite (addMessage_unfold env s l role content Hh). cbn zeta.
  rewrite storage_ok.
  edestruct (renderMessages_view env) as (r & nodes & prefix & rest & -> & Hsplit & Hnodes & Hr);
    [reflexivity|].
  destruct r as [[]|e].
  - subst rest. rewrite app_nil_r in Hsplit. subst prefix.
    exists nodes. split; [reflexivity|exact Hnodes].
  - exfalso. destruct Hr as (bad & rest' & -> & Hbad).
    assert (Hin : In bad (l ++ [message_object role content])).
    { rewrite Hsplit. apply in_or_app. right. left. reflexivity. }
    assert (Hd : displayable env bad).
    { apply in_app_or in Hin. destruct Hin as [Hin|[<-|[]]].
      - rewrite Forall_forall in Hl. apply Hl. apply list_elem_of_In. exact Hin.
      - exists role, content. split; [reflexivity|exact Hc]. }
    destruct (displayable_renders_as env bad Hd) as [n Hn]. exact (Hbad n Hn).
Qed.

(** [addMessage] when the history with the new message holds a message
    whose content [marked] rejects, after messages that can be shown: the
    new message is stored, the rendering throws and leaves the blocks of the
    messages before the rejected one. *)
Lemma addMessage_rejected (s : State) (h l rest : list jsval)
    (role content role' content' : jsval) (e : string) :
  conversationHistory s = JArr h ->
  (h ++ [message_object role' content'])%list
  = (l ++ message_object role content :: rest)%list ->
  Forall (displayable env) l ->
  marked_parse env content = Throw e ->
  exists nodes,
    addMessage env role' content' s
    = Done (Throw e) (appended env (message_object role' content') h nodes s)
    /\ Forall2 (renders_as env) l nodes.
Proof.
  intros Hh Hsplit Hl Hc. rewrite (addMessage_unfold env s h role' content' Hh). cbn zeta.
  rewrite storage_ok.
  unfold renderMessages, bind, modify, get_state, forEach. cbn [bind_step].
  cbn [conversationHistory set_chatMessages set_localStorage set_conversationHistory].
  rewrite Hsplit.
  edestruct (for_each_render_rejected env l rest role content e Hl Hc) as (nodes & -> & Hnodes).
  exists nodes. split; [|exact Hnodes]. unfold appended. rewrite <- Hsplit. reflexivity.
Qed.

Lemma handleSend_waiting (s : State) (l : list jsval) (message : string) :
  conversationHistory s = JArr l ->
  Forall (displayable env) l ->
  renders env (JStr message) ->
  trim (chatInput_value s) = message ->
  message <> EmptyString ->
  exists nodes,
    handleSend env s
    = Fetch (mode_request env (currentAction s) message (JArr l))
        (set_chatMessages (nodes ++ [TypingIndicator])
           (set_chatInput_value EmptyString (appended env (user_message message) l nodes s)))
        (after_fetch env)
    /\ Forall2 (renders_as env) (l ++ [user_message message]) nodes.
Proof.
  intros Hh Hl Hm Htrim Hne.
  destruct (addMessage_shown s l (JStr "user") (JStr message) Hh Hl Hm) as (nodes & Hadd & Hn).
  exists nodes. split; [|exact Hn].
  unfold handleSend, bind, get_state. cbn -[addMessage trim].
  rewrite Htrim. clear Htrim.
  destruct message as [|c rest]; [congruence|]. cbn -[addMessage].
  rewrite Hadd. cbn -[addMessage].
  destruct (currentAction s); cbn -[addMessage]; try reflexivity.
  rewrite removelast_last. reflexivity.
Qed.

End Exchange.

(** ** The exchange of a send *)

(** X8.  While a send waits for its response (the store takes the write and the
    history and the input can be shown): the input is empty, the user
    message is in the history and in the store, the mode is still the
    selected one, and the view shows one block per message followed by the
    typing indicator. *)
Theorem waiting_page_shows_the_typing_indicator (env : Env) (s : State) (l : list jsval) :
  storage_reliable env ->
  conversationHistory s = JArr l ->
  Forall (displayable env) l ->
  all_whitespace (chatInput_value s) = false ->
  renders env (JStr (trim (chatInput_value s))) ->
  let waiting := state_of (handleSend env s) in
  let h := (l ++ [user_message (trim (chatInput_value s))])%list in
  (exists req, posted (handleSend env s) = Some req)
  /\ chatInput_value waiting = EmptyString
  /\ conversationHistory waiting = JArr h
  /\ localStorage waiting !! STORAGE_KEY = Some (JSON_stringify env (JArr h))
  /\ currentAction waiting = currentAction s
  /\ exists nodes,
       chatMessages waiting = (nodes ++ [TypingIndicator])%list
       /\ Forall2 (renders_as env) h nodes.
Proof.
  intros Hst Hh Hl Hfilled Hm waiting h.
  assert (Hne : trim (chatInput_value s) <> EmptyString)
    by (intros Ht; apply trim_blank in Ht; congruence).
  destruct (handleSend_waiting env Hst s l _ Hh Hl Hm eq_refl Hne) as (nodes & Hsend & Hn).
  subst waiting. rewrite Hsend. cbn [state_of posted].
  split; [eexists; reflexivity|]. split; [reflexivity|]. split; [reflexivity|].
  split; [cbn; apply lookup_insert_eq|]. split; [reflexivity|].
  exists nodes. split; [reflexivity|exact Hn].
Qed.

(** X9.  A send that is answered (the store takes the writes, the history, the
    input and the reply can be shown, the status is a success and the body
    has a [reply]), with nothing else happening in between: it returns with
    the user message and the reply at the end of the history, in this order
    and as the last write to the store; the view shows one block per
    message and no typing indicator; the input is empty and the mode is
    [chat]. *)
Theorem answered_send_ends_with_the_exchange (env : Env) (s : State) (l : list jsval)
    (resp : Response) (data reply : jsval) :
  storage_reliable env ->
  conversationHistory s = JArr l ->
  Forall (displayable env) l ->
  all_whitespace (chatInput_value s) = false ->
  renders env (JStr (trim (chatInput_value s))) ->
  response_ok resp = true ->
  get_prop data "reply" = Ok reply ->
  renders env reply ->
  let h := (l ++ [user_message (trim (chatInput_value s)); assistant_message reply])%list in
  exists final,
    run (handleSend env s) [FetchSettled (Ok resp); BodySettled (Ok data); NextTurn]
    = Done (Ok tt) final
    /\ conversationHistory final = JArr h
    /\ localStorage final !! STORAGE_KEY = Some (JSON_stringify env (JArr h))
    /\ Forall2 (renders_as env) h (chatMessages final)
    /\ chatInput_value final = EmptyString
    /\ currentAction final = chat.
Proof.
  intros Hst Hh Hl Hfilled Hm Hok Hreply Hr h.
  assert (Hne : trim (chatInput_value s) <> EmptyString)
    by (intros Ht; apply trim_blank in Ht; congruence).
  assert (Hh2 : h = ((l ++ [user_message (trim (chatInput_value s))])
                     ++ [assistant_message reply])%list)
    by (subst h; rewrite <- app_assoc; reflexivity).
  destruct (handleSend_waiting env Hst s l _ Hh Hl Hm eq_refl Hne) as (nodes & Hsend & Hn).
  rewrite Hsend. cbn [run]. rewrite after_fetch_unfold, Hok. cbn [run].
  rewrite after_body_unfold, Hreply. cbn [run].
  unfold show_reply, try_catch, bind, removeTypingIndicator, modify. cbn [bind_step].
  edestruct (addMessage_shown env Hst) as (nodes2 & -> & Hn2);
    [reflexivity| |exact Hr|].
  { apply Forall_app. split; [exact Hl|]. constructor; [|constructor].
    exists (JStr "user"), (JStr (trim (chatInput_value s))). split; [reflexivity|exact Hm]. }
  cbn [catch_step bind_step]. eexists. split; [reflexivity|].
  rewrite Hh2. split; [reflexivity|]. split; [cbn; apply lookup_insert_eq|].
  split; [exact Hn2|]. split; reflexivity.
Qed.

(** X10.  A response with a success status whose body cannot be read, or is
    [null]: in any environment the send issues no other
    request and ends with exactly one message added to the history as it is
    when the send is resumed (an array), the assistant message ["Error: "]
    followed by the description of the failure.  When the store takes the
    writes, [marked] renders text and the history can be shown, the send
    returns normally. *)
Theorem unreadable_body_appends_one_error (env : Env) (s : State) (resp : Response)
    (b : Exc jsval) (req : Request) :
  posted (handleSend env s) = Some req ->
  response_ok resp = true ->
  body_failed b ->
  (forall s1 s2,
     ends has_array (fun _ => True) (fun s0 _ final => body_error_appended b s0 final) s2
       (on_body (on_response (handleSend env s) (Ok resp) s1) b s2))
  /\ (storage_reliable env -> renders_text env ->
      forall s1 s2,
        completes env (body_error_appended b) s2
          (on_body (on_response (handleSend env s) (Ok resp) s1) b s2)).
Proof.
  intros Hreq Hok Hb.
  destruct (handleSend_first_turn env s)
    as [[_ H]|[(_ & e & s' & H & _)|(_ & l & s2 & _ & _ & _ & H)]];
    rewrite H in Hreq |- *; try discriminate Hreq.
  cbn [on_response].
  assert (Hstep : forall s1 s3,
            on_body (after_fetch env (Ok resp) s1) b s3
            = Tick s3 (show_error env (body_failure b))).
  { intros s1 s3. rewrite after_fetch_unfold, Hok. cbn [on_body].
    rewrite after_body_unfold. destruct b as [data|e]; [|reflexivity].
    cbn [body_failed body_failure] in *. destruct Hb as [e He]. rewrite He. reflexivity. }
  split.
  - intros s1 s3. rewrite Hstep. apply ends_tick. intros s' (l' & Hl').
    destruct (show_error_end env (body_failure b) s') as (res & s'' & -> & _ & Hh).
    apply ends_done. exists l'. split; [exact Hl'|apply Hh; exact Hl'].
  - intros Hst Htext s1 s3. rewrite Hstep. apply ends_tick. intros s' (l' & Hh' & Hl').
    destruct (show_error_ok env (body_failure b) s' l' Hst Htext Hh' Hl')
      as (s'' & -> & _ & Hhist).
    apply ends_done. split; [reflexivity|]. exists l'. split; assumption.
Qed.

(** X11.  A reply that [marked] rejects (the store takes the writes, the history
    and the input can be shown), with nothing else happening in between:
    the exception of [marked] escapes the send, which leaves the mode as it
    was selected instead of setting it back to [chat]; the reply and the
    error message are both in the history, after the user message, and
    neither is shown: the view holds the blocks of the messages before
    them. *)
Theorem rejected_reply_escapes_and_keeps_mode (env : Env) (s : State) (l : list jsval)
    (resp : Response) (data reply : jsval) (e : string) :
  storage_reliable env ->
  conversationHistory s = JArr l ->
  Forall (displayable env) l ->
  all_whitespace (chatInput_value s) = false ->
  renders env (JStr (trim (chatInput_value s))) ->
  response_ok resp = true ->
  get_prop data "reply" = Ok reply ->
  marked_parse env reply = Throw e ->
  exists final,
    run (handleSend env s) [FetchSettled (Ok resp); BodySettled (Ok data); NextTurn]
    = Done (Throw e) final
    /\ currentAction final = currentAction s
    /\ conversationHistory final
       = JArr (l ++ [user_message (trim (chatInput_value s)); assistant_message reply;
                     assistant_message (JStr ("Error: " ++ e))])
    /\ Forall2 (renders_as env) (l ++ [user_message (trim (chatInput_value s))])
         (chatMessages final).
Proof.
  intros Hst Hh Hl Hfilled Hm Hok Hreply Hr.
  assert (Hne : trim (chatInput_value s) <> EmptyString)
    by (intros Ht; apply trim_blank in Ht; congruence).
  assert (Hl' : Forall (displayable env) (l ++ [user_message (trim (chatInput_value s))])).
  { apply Forall_app. split; [exact Hl|]. constructor; [|constructor].
    exists (JStr "user"), (JStr (trim (chatInput_value s))). split; [reflexivity|exact Hm]. }
  destruct (handleSend_waiting env Hst s l _ Hh Hl Hm eq_refl Hne) as (nodes & Hsend & Hn).
  rewrite Hsend. cbn [run]. rewrite after_fetch_unfold, Hok. cbn [run].
  rewrite after_body_unfold, Hreply. cbn [run].
  unfold show_reply, try_catch, bind, removeTypingIndicator, modify. cbn [bind_step].
  edestruct (addMessage_rejected env Hst) as (nodes2 & -> & Hn2);
    [reflexivity|reflexivity|exact Hl'|exact Hr|].
  cbn [catch_step bind_step].
  match goal with
  | |- context [addMessage env _ _ ?page] =>
      destruct (addMessage_rejected env Hst page
                  ((l ++ [user_message (trim (chatInput_value s))])
                   ++ [assistant_message reply])
                  (l ++ [user_message (trim (chatInput_value s))])
                  [assistant_message (JStr ("Error: " ++ e))]
                  (JStr "assistant") reply (JStr "assistant") (JStr ("Error: " ++ e)) e)
        as (nodes3 & -> & Hn3);
        [reflexivity|rewrite <- app_assoc; reflexivity|exact Hl'|exact Hr|]
  end.
  cbn [bind_step]. eexists. split; [reflexivity|]. split; [reflexivity|].
  split; [|exact Hn3]. cbn. rewrite <- !app_assoc. reflexivity.
Qed.

Lemma addMessage_blocked (env : Env) (s : State) (l : list jsval) (role content m : jsval) :
  conversationHistory s = JArr l ->
  In m l ->
  (forall n, ~ renders_as env m n) ->
  exists e s',
    addMessage env role content s = Done (Throw e) s'
    /\ conversationHistory s' = JArr (l ++ [message_object role content])
    /\ chatInput_value s' = chatInput_value s
    /\ currentAction s' = currentAction s.
Proof.
  intros Hh Hin Hbad. rewrite (addMessage_unfold env s l role content Hh). cbn zeta.
  destruct (quota_exceeded env _ _ _).
  - eexists _, _. split; [reflexivity|]. repeat split.
  - edestruct (renderMessages_view env)
      as (r & nodes & prefix & rest & -> & Hsplit & Hnodes & Hr); [reflexivity|].
    destruct r as [[]|e].
    + exfalso. subst rest. rewrite app_nil_r in Hsplit. subst prefix.
      destruct (Forall2_In_l _ _ _ m Hnodes) as [n Hn];
        [apply in_or_app; left; exact Hin|].
      exact (Hbad n Hn).
    + eexists _, _. split; [reflexivity|]. repeat split.
Qed.

(** X12.  With a message in the history that cannot be rendered, a send with a
    non-blank input throws before it posts: the user message is added to
    the history, the input is not cleared, the mode is kept and no request
    is issued, in any environment. *)
Theorem unrenderable_message_blocks_sends (env : Env) (s : State) (l : list jsval)
    (m : jsval) :
  conversationHistory s = JArr l ->
  In m l ->
  (forall n, ~ renders_as env m n) ->
  all_whitespace (chatInput_value s) = false ->
  exists e s',
    handleSend env s = Done (Throw e) s'
    /\ conversationHistory s' = JArr (l ++ [user_message (trim (chatInput_value s))])
    /\ chatInput_value s' = chatInput_value s
    /\ currentAction s' = currentAction s.
Proof.
  intros Hh Hin Hbad Hfilled.
  assert (Hne : trim (chatInput_value s) <> EmptyString)
    by (intros Ht; apply trim_blank in Ht; congruence).
  destruct (addMessage_blocked env s l (JStr "user") (JStr (trim (chatInput_value s))) m
              Hh Hin Hbad) as (e & s' & Hadd & Hrest).
  exists e, s'. split; [|exact Hrest].
  unfold handleSend, bind, get_state. cbn -[addMessage trim].
  destruct (trim (chatInput_value s)) as [|c rest]; [congruence|]. cbn -[addMessage].
  rewrite Hadd. reflexivity.
Qed.

(** X13.  The mode is set back to [chat] only when a send ends: a send made
    while another one waits for its response posts the request of the same
    mode, to the same endpoint. *)
Theorem mode_holds_while_send_is_in_flight (env : Env) (s : State) (text : string)
    (req req' : Request) :
  posted (handleSend env s) = Some req ->
  posted (handleSend env (set_chatInput_value text (state_of (handleSend env s)))) = Some req' ->
  url req' = url req
  /\ exists prior, req' = mode_request env (currentAction s) (trim text) prior.
Proof.
  intros Hreq Hreq'.
  destruct (handleSend_first_turn env s)
    as [[_ H]|[(_ & e & s' & H & _)|(_ & l & s1 & _ & _ & Hact & H)]];
    rewrite H in Hreq, Hreq'; try discriminate Hreq.
  injection Hreq as <-. cbn [state_of] in Hreq'.
  destruct (handleSend_first_turn env (set_chatInput_value text s1))
    as [[_ H']|[(_ & e & s' & H' & _)|(_ & l' & s2 & _ & _ & _ & H')]];
    rewrite H' in Hreq'; try discriminate Hreq'.
  injection Hreq' as <-. cbn [currentAction set_chatInput_value chatInput_value].
  rewrite Hact. split; [destruct (currentAction s); reflexivity|].
  eexists. reflexivity.
Qed.

(** * The ends of a send and of an append *)

Lemma Forall2_renderable (env : Env) (l : list jsval) (nodes : list node) :
  Forall2 (renders_as env) l nodes -> Forall (renderable env) l.
Proof.
  induction 1 as [|m n l nodes Hm _ IH]; constructor; [exists n; exact Hm|exact IH].
Qed.

(** [addMessage] on an array, in full: the message is at the end of the
    history and nothing is logged; when the store refuses the write its
    error is the result and the store and the view are as they were; when
    it takes the write the view is rebuilt, up to the first message that
    cannot be rendered. *)
Lemma addMessage_outcome (env : Env) (s : State) (l : list jsval) (role content : jsval) :
  conversationHistory s = JArr l ->
  exists r s',
    addMessage env role content s = Done r s'
    /\ conversationHistory s' = JArr (l ++ [message_object role content])
    /\ currentAction s' = currentAction s
    /\ console_errors s' = console_errors s
    /\ if quota_exceeded env (localStorage s) STORAGE_KEY
            (JSON_stringify env (JArr (l ++ [message_object role content])))
       then r = Throw "The quota has been exceeded."
            /\ localStorage s' = localStorage s
            /\ chatMessages s' = chatMessages s
       else localStorage s'
            = <[STORAGE_KEY := JSON_stringify env (JArr (l ++ [message_object role content]))]>
                (localStorage s)
            /\ exists prefix rest,
                 (l ++ [message_object role content])%list = (prefix ++ rest)%list
                 /\ Forall2 (renders_as env) prefix (chatMessages s')
                 /\ match r with
                    | Ok _ => rest = []
                    | Throw _ =>
                        exists bad rest',
                          rest = bad :: rest' /\ forall n, ~ renders_as env bad n
                    end.
Proof.
  intros Hh. rewrite (addMessage_unfold env s l role content Hh). cbn zeta.
  destruct (quota_exceeded env (localStorage s) STORAGE_KEY
              (JSON_stringify env (JArr (l ++ [message_object role content])))) eqn:Hq.
  - eexists _, _. split; [reflexivity|]. repeat split.
  - edestruct (renderMessages_view env)
      as (r & nodes & prefix & rest & -> & Hsplit & Hnodes & Hr); [reflexivity|].
    exists (match r with Ok _ => Ok tt | Throw e => Throw e end). eexists.
    split; [destruct r as [[]|e]; reflexivity|].
    split; [reflexivity|]. split; [reflexivity|]. split; [reflexivity|].
    split; [reflexivity|]. exists prefix, rest.
    split; [exact Hsplit|]. split; [exact Hnodes|]. destruct r; exact Hr.
Qed.

(** Whether [addMessage] returns. *)
Lemma addMessage_returns_iff (env : Env) (s : State) (l : list jsval) (role content : jsval) :
  conversationHistory s = JArr l ->
  exists r s',
    addMessage env role content s = Done r s'
    /\ conversationHistory s' = JArr (l ++ [message_object role content])
    /\ currentAction s' = currentAction s
    /\ (r = Ok tt
        <-> quota_exceeded env (localStorage s) STORAGE_KEY
              (JSON_stringify env (JArr (l ++ [message_object role content]))) = false
            /\ Forall (renderable env) (l ++ [message_object role content])).
Proof.
  intros Hh.
  destruct (addMessage_outcome env s l role content Hh) as (r & s' & Hrun & Hh' & Hact & _ & Hq).
  exists r, s'. split; [exact Hrun|]. split; [exact Hh'|]. split; [exact Hact|].
  destruct (quota_exceeded env _ _ _).
  - destruct Hq as (-> & _). split; [discriminate|]. intros [Hfalse _]. discriminate Hfalse.
  - destruct Hq as (_ & prefix & rest & Hsplit & Hnodes & Hr).
    destruct r as [[]|e].
    + subst rest. rewrite app_nil_r in Hsplit. subst prefix.
      split; [|reflexivity]. intros _. split; [reflexivity|].
      exact (Forall2_renderable env _ _ Hnodes).
    + split; [discriminate|]. intros [_ Hall]. exfalso.
      destruct Hr as (bad & rest' & -> & Hbad).
      rewrite Hsplit in Hall. apply Forall_app in Hall. destruct Hall as [_ Hall].
      inversion Hall as [|? ? [n Hn] _]. exact (Hbad n Hn).
Qed.

Section Endings.

Context (env : Env).

(** The last turn of a send that shows an error. *)
Lemma show_error_outcome (e : string) (s : State) :
  exists res final,
    show_error env e s = Done res final
    /\ reset_or_escaped s res final
    /\ match conversationHistory s with
       | JArr l =>
           conversationHistory final
           = JArr (l ++ [assistant_message (JStr ("Error: " ++ e))])
           /\ (res = Ok tt
               <-> quota_exceeded env (localStorage s) STORAGE_KEY
                     (JSON_stringify env
                        (JArr (l ++ [assistant_message (JStr ("Error: " ++ e))]))) = false
                   /\ Forall (renderable env)
                        (l ++ [assistant_message (JStr ("Error: " ++ e))]))
       | _ => conversationHistory final = conversationHistory s /\ res <> Ok tt
       end.
Proof.
  unfold show_error, bind, removeTypingIndicator, modify. cbn [bind_step].
  destruct (conversationHistory s) as [ | | | | |l| ] eqn:Hh.
  6:{ destruct (addMessage_returns_iff env
                  (set_chatMessages (remove_first_typing (chatMessages s)) s) l
                  (JStr "assistant") (JStr ("Error: " ++ e)) Hh)
        as (r & s' & -> & Hh' & Hact & Hiff).
      destruct r as [[]|e']; cbn [bind_step]; eexists _, _; (split; [reflexivity|]).
      - split; [reflexivity|]. split; [exact Hh'|]. split; [intros _; apply Hiff; reflexivity|].
        intros _. reflexivity.
      - split; [exact Hact|]. split; [exact Hh'|]. split; [discriminate|].
        intros H. apply Hiff in H. discriminate H. }
  all: destruct (addMessage_sync env (set_chatMessages (remove_first_typing (chatMessages s)) s)
                   (JStr "assistant") (JStr ("Error: " ++ e))) as (r & s' & -> & Hact & Hsame);
    cbn [conversationHistory set_chatMessages] in Hsame; rewrite Hh in Hsame;
    destruct Hsame as (-> & e' & ->); cbn [bind_step]; eexists _, _;
    (split; [reflexivity|]); (split; [reflexivity|]); split; [exact Hh|discriminate].
Qed.

(** The last turn of a send that shows a reply. *)
Lemma show_reply_outcome (response : jsval) (s : State) :
  exists res final, show_reply env response s = Done res final /\ reset_or_escaped s res final.
Proof.
  unfold show_reply, try_catch, bind, removeTypingIndicator, modify. cbn [bind_step].
  destruct (addMessage_sync env (set_chatMessages (remove_first_typing (chatMessages s)) s)
              (JStr "assistant") response) as (r & s' & -> & Hact & _).
  destruct r as [[]|e']; cbn [catch_step bind_step].
  - eexists _, _. split; reflexivity.
  - destruct (addMessage_sync env (set_chatMessages (remove_first_typing (chatMessages s')) s')
                (JStr "assistant") (JStr ("Error: " ++ e'))) as (r2 & s2 & -> & Hact2 & _).
    destruct r2 as [[]|e2]; cbn [bind_step]; eexists _, _; (split; [reflexivity|]).
    + reflexivity.
    + cbn [reset_or_escaped]. rewrite Hact2. exact Hact.
Qed.

(** In any environment, however the request and the reading of the body
    turn out and whatever the page is when the send is resumed, the send
    posts nothing more and ends with the mode reset or with an exception. *)
Lemma after_fetch_outcome (r : Exc Response) (s : State) :
  ends (fun _ => True) (fun _ => True) reset_or_escaped s (after_fetch env r s).
Proof.
  assert (Herr : forall e s0 s1,
            ends (fun _ => True) (fun _ => True) reset_or_escaped s0
              (Tick s1 (show_error env e))).
  { intros e s0 s1. apply ends_tick. intros s' _.
    destruct (show_error_outcome e s') as (res & final & -> & Hmode & _).
    apply ends_done. exact Hmode. }
  rewrite after_fetch_unfold. destruct r as [response|e]; [|apply Herr].
  destruct (response_ok response); [|apply Herr].
  apply ends_json. intros b s' _ _. rewrite after_body_unfold.
  destruct b as [data|e]; [|apply Herr].
  destruct (get_prop data "reply") as [v|e]; [|apply Herr].
  apply ends_tick. intros s'' _.
  destruct (show_reply_outcome v s'') as (res & final & -> & Hmode).
  apply ends_done. exact Hmode.
Qed.

(** In any environment, a failed request ends on the append of its error
    message. *)
Lemma after_fetch_failed_outcome (r : Exc Response) (s : State) :
  request_failed r ->
  ends (fun _ => True) (fun _ => True) (failed_send_outcome env r) s (after_fetch env r s).
Proof.
  intros Hfail.
  assert (Herr : ends (fun _ => True) (fun _ => True) (failed_send_outcome env r) s
                   (Tick s (show_error env (failure_description r)))).
  { apply ends_tick. intros s' _.
    destruct (show_error_outcome (failure_description r) s') as (res & final & -> & _ & Hout).
    apply ends_done. exact Hout. }
  rewrite after_fetch_unfold. destruct r as [response|e]; [|exact Herr].
  cbn in Hfail. rewrite Hfail. exact Herr.
Qed.

End Endings.

(** * The claims on the ends of a send and of an append *)

(** C3, as the script has it.  Pressing Debug with a non-blank input
    issues at most one request.  It issues none only when the append of the
    user message throws: that exception escapes the send, with the mode
    still [debug].  A request it issues is the POST to the debug endpoint
    with the trimmed input as [code], posted with the mode [debug]; then, in
    any environment, however the request and the reading of the body turn
    out and whatever state the page is in when the send is resumed, the send
    issues no other request, and when it returns the mode is [chat], while
    when an exception escapes it the mode is left as it was: it is not
    reset.  When the store takes the writes, [marked] renders text, the
    history is an array of messages that can be rendered, and so is the
    reply if there is one, the request is posted and the send returns. *)
Theorem debug_send_posts_once_and_resets_on_return (env : Env) (s : State) :
  all_whitespace (chatInput_value s) = false ->
  let request :=
    mkRequest "http://127.0.0.1:8000/debug" "POST" "application/json"
      (JSON_stringify env (JObj [("code", JStr (trim (chatInput_value s)))])) in
  (posted (debugBtn_click env s) = None ->
   exists e s',
     debugBtn_click env s = Done (Throw e) s'
     /\ addMessage env (JStr "user") (JStr (trim (chatInput_value s)))
          (set_currentAction debug s) = Done (Throw e) s'
     /\ currentAction s' = debug)
  /\ (forall req,
        posted (debugBtn_click env s) = Some req ->
        req = request
        /\ currentAction (state_of (debugBtn_click env s)) = debug
        /\ forall r s',
             ends (fun _ => True) (fun _ => True) reset_or_escaped s'
               (on_response (debugBtn_click env s) r s'))
  /\ (storage_reliable env -> renders_text env -> healthy env s ->
      posted (debugBtn_click env s) = Some request
      /\ forall r s',
           healthy env s' ->
           completes env (fun _ final => currentAction final = chat) s'
             (on_response (debugBtn_click env s) r s')).
Proof.
  intros Hfilled request.
  assert (Hne : trim (chatInput_value s) <> EmptyString)
    by (intros Ht; apply trim_blank in Ht; congruence).
  change (debugBtn_click env s) with (handleSend env (set_currentAction debug s)).
  split; [|split].
  - intros Hnone.
    destruct (handleSend_first_turn env (set_currentAction debug s))
      as [[Hblank _]|[(_ & e & s' & H & Hadd)|(_ & l & s1 & _ & _ & _ & H)]].
    + contradiction.
    + exists e, s'. split; [exact H|]. split; [exact Hadd|].
      destruct (addMessage_sync env (set_currentAction debug s) (JStr "user")
                  (JStr (trim (chatInput_value (set_currentAction debug s)))))
        as (r & s'' & Hrun & Hact & _).
      rewrite Hrun in Hadd. injection Hadd as _ <-. exact Hact.
    + rewrite H in Hnone. discriminate Hnone.
  - intros req Hreq.
    destruct (handleSend_first_turn env (set_currentAction debug s))
      as [[_ H]|[(_ & e & s' & H & _)|(_ & l & s1 & _ & _ & Hact & H)]];
      rewrite H in Hreq |- *; try discriminate Hreq.
    injection Hreq as <-. split; [reflexivity|]. split; [exact Hact|].
    intros r s'. apply after_fetch_outcome.
  - intros Hst Htext (l & Hh & Hl).
    destruct (handleSend_fetch env (set_currentAction debug s) l (trim (chatInput_value s))
                Hst Hh Hl (Htext _) eq_refl Hne) as [nodes Hsend].
    rewrite Hsend. split; [reflexivity|].
    intros r s' _. apply after_fetch_resets; assumption.
Qed.

(** C4, as the script has it.  A send with a non-blank input posts its
    request after it has appended the user message.  If [fetch] rejects or
    the status is not a success, the failure is caught: in any environment
    and whatever state the page is in when the send is resumed, the send
    issues no other request and, on a history that is an array, adds exactly
    one message at its end, the assistant message whose content is
    ["Error: "] followed by the description of the failure, the messages
    before it being unchanged.  That append is not guarded: the send returns
    exactly when the store takes the write of the new history and every
    message of it can be rendered, and otherwise the exception of the store
    or of the rendering escapes the send.  (On a history that is not an
    array the append throws and adds nothing.)  When the store takes the
    writes, [marked] renders text and the history is an array of messages
    that can be rendered, the request is posted and the send returns. *)
Theorem failed_request_appends_one_error (env : Env) (s : State) :
  all_whitespace (chatInput_value s) = false ->
  (forall req,
     posted (handleSend env s) = Some req ->
     exists l,
       conversationHistory s = JArr l
       /\ conversationHistory (state_of (handleSend env s))
          = JArr (l ++ [user_message (trim (chatInput_value s))])
       /\ forall r s',
            request_failed r ->
            ends (fun _ => True) (fun _ => True) (failed_send_outcome env r) s'
              (on_response (handleSend env s) r s')
            /\ String.prefix "Error:" ("Error: " ++ failure_description r) = true)
  /\ (storage_reliable env -> renders_text env -> healthy env s ->
      (exists req, posted (handleSend env s) = Some req)
      /\ forall r s',
           request_failed r ->
           healthy env s' ->
           completes env (error_appended r) s' (on_response (handleSend env s) r s')).
Proof.
  intros Hfilled.
  assert (Hne : trim (chatInput_value s) <> EmptyString)
    by (intros Ht; apply trim_blank in Ht; congruence).
  split.
  - intros req Hreq.
    destruct (handleSend_first_turn env s)
      as [[_ H]|[(_ & e & s' & H & _)|(_ & l & s2 & Hh & Hh2 & _ & H)]];
      rewrite H in Hreq |- *; try discriminate Hreq.
    exists l. split; [exact Hh|]. split; [exact Hh2|].
    intros r s' Hfail. split; [|reflexivity].
    apply after_fetch_failed_outcome. exact Hfail.
  - intros Hst Htext (l & Hh & Hl).
    destruct (handleSend_fetch env s l (trim (chatInput_value s))
                Hst Hh Hl (Htext _) eq_refl Hne) as [nodes Hsend].
    rewrite Hsend. split; [eexists; reflexivity|].
    intros r s' Hfail _. apply after_fetch_failure; assumption.
Qed.

(** C8, as the script has it.  [addMessage] logs nothing.  On a history
    that is an array it leaves the message at the end of the in-memory
    history, whatever happens next.  When the store refuses the write, the
    error is not swallowed: it is raised to the caller, and the store and
    the view are left as they were.  When the store takes the write, the
    history is persisted and the view is rendered again from the history,
    one block per message in order: all of them when [addMessage] returns,
    and those before the first message that cannot be rendered when the
    rendering throws, which is raised to the caller too.  On a history that
    is not an array [addMessage] throws and leaves the page as it was. *)
Theorem append_raises_storage_errors (env : Env) (role content : jsval) (s : State) :
  exists r s',
    addMessage env role content s = Done r s'
    /\ console_errors s' = console_errors s
    /\ match conversationHistory s with
       | JArr l =>
           let h := JArr (l ++ [message_object role content]) in
           conversationHistory s' = h
           /\ if quota_exceeded env (localStorage s) STORAGE_KEY (JSON_stringify env h)
              then r = Throw "The quota has been exceeded."
                   /\ localStorage s' = localStorage s
                   /\ chatMessages s' = chatMessages s
              else localStorage s' = <[STORAGE_KEY := JSON_stringify env h]> (localStorage s)
                   /\ exists prefix rest,
                        (l ++ [message_object role content])%list = (prefix ++ rest)%list
                        /\ Forall2 (renders_as env) prefix (chatMessages s')
                        /\ match r with
                           | Ok _ => rest = []
                           | Throw _ =>
                               exists bad rest',
                                 rest = bad :: rest' /\ forall n, ~ renders_as env bad n
                           end
       | _ => s' = s /\ exists e, r = Throw e
       end.
Proof.
  destruct (conversationHistory s) as [ | | | | |l| ] eqn:Hh.
  6:{ destruct (addMessage_outcome env s l role content Hh)
        as (r & s' & Hrun & Hh' & _ & Hlog & Hq).
      exists r, s'. split; [exact Hrun|]. split; [exact Hlog|]. split; [exact Hh'|exact Hq]. }
  all: destruct (addMessage_sync env s role content) as (r & s' & Hrun & _ & Hsame);
    rewrite Hh in Hsame; destruct Hsame as (-> & e & ->);
    exists (Throw e), s; split; [exact Hrun|]; split; [reflexivity|]; split; eauto.
Qed.

(** * The further properties at concrete inputs *)

Lemma events_keep_to_their_own_witness :
  reachable Browser.env waiting_session
  /\ console_errors
       (page (handle Browser.env (FetchReturns 0 (Throw "Failed to fetch")) waiting_session))
     = console_errors (page waiting_session)
  /\ confirm_dialogs
       (page (handle Browser.env (FetchReturns 0 (Throw "Failed to fetch")) waiting_session))
     = confirm_dialogs (page waiting_session)
  /\ innerWidth
       (page (handle Browser.env (FetchReturns 0 (Throw "Failed to fetch")) waiting_session))
     = innerWidth (page waiting_session).
Proof.
  assert (H : reachable Browser.env waiting_session) by (repeat constructor).
  destruct (events_keep_to_their_own Browser.env waiting_session
              (FetchReturns 0 (Throw "Failed to fetch")) H) as (A & _ & C & D).
  split; [exact H|]. split; [exact A|].
  split; [apply C; discriminate|apply D; discriminate].
Defined.

Lemma one_request_per_send_at_most_witness :
  reachable Browser.env typed_session
  /\ (sent (handle Browser.env ClickSend typed_session) = sent typed_session
      \/ sends ClickSend
         /\ exists req,
              sent (handle Browser.env ClickSend typed_session)
              = (sent typed_session ++ [req])%list
              /\ method req = "POST"
              /\ content_type req = "application/json"
              /\ In (url req) ENDPOINTS).
Proof.
  assert (H : reachable Browser.env typed_session) by (repeat constructor).
  split; [exact H|].
  exact (one_request_per_send_at_most Browser.env typed_session ClickSend H).
Defined.

Lemma sidebar_fits_the_window_witness :
  reachable Browser.env waiting_session /\ sidebar_fits (page waiting_session).
Proof.
  assert (H : reachable Browser.env waiting_session) by (repeat constructor).
  split; [exact H|].
  exact (sidebar_fits_the_window Browser.env waiting_session H).
Defined.

Lemma stored_null_blocks_the_page_witness :
  ({[STORAGE_KEY := "null"]} : gmap string string) !! STORAGE_KEY = Some "null"
  /\ JSON_parse Browser.env "null" = Ok JNull
  /\ is_empty "null" = false
  /\ conversationHistory
       (page (after_events Browser.env null_session
                [UserTypes "hi"; ClickSend; ClickNewChat true]))
     = JNull
  /\ sent (after_events Browser.env null_session
             [UserTypes "hi"; ClickSend; ClickNewChat true])
     = [].
Proof.
  assert (Hkey : ({[STORAGE_KEY := "null"]} : gmap string string) !! STORAGE_KEY = Some "null")
    by (vm_compute; reflexivity).
  assert (Hparse : JSON_parse Browser.env "null" = Ok JNull) by reflexivity.
  split; [exact Hkey|]. split; [exact Hparse|]. split; [reflexivity|].
  exact (stored_null_blocks_the_page Browser.env {[STORAGE_KEY := "null"]} "null" 1024
           [UserTypes "hi"; ClickSend; ClickNewChat true] Hkey Hparse eq_refl).
Defined.

Lemma narrow_resize_parts_flag_and_class_witness :
  sidebar_shown narrow_open_page
  /\ 500 <= 768
  /\ exists s1 s2,
       window_resize 500 narrow_open_page = Done (Ok tt) s1
       /\ isSidebarOpen s1 = false /\ sidebar_open s1 = true
       /\ document_click true s1 = Done (Ok tt) s1
       /\ toggleSidebar s1 = Done (Ok tt) s2
       /\ isSidebarOpen s2 = true /\ sidebar_open s2 = false.
Proof.
  assert (Hshown : sidebar_shown narrow_open_page)
    by (split; [cbn; lia|split; reflexivity]).
  assert (Hw : 500 <= 768) by lia.
  split; [exact Hshown|]. split; [exact Hw|].
  exact (narrow_resize_parts_flag_and_class narrow_open_page 500 Hshown Hw).
Defined.

Lemma toggle_twice_is_identity_witness :
  768 < innerWidth greeting_page
  /\ (toggleSidebar >> toggleSidebar) greeting_page = Done (Ok tt) greeting_page
  /\ toggleSidebar greeting_page = Done (Ok tt) greeting_page.
Proof.
  assert (Hw : 768 < innerWidth greeting_page) by (cbn; lia).
  destruct (toggle_twice_is_identity greeting_page) as [A B].
  split; [exact Hw|]. split; [exact A|exact (B Hw)].
Defined.

Lemma rendering_stops_at_first_failure_witness :
  conversationHistory poisoned_page
  = JArr [user_message "hi"; assistant_message JUndefined]
  /\ exists r nodes prefix rest,
       renderMessages Browser.env poisoned_page = Done r (set_chatMessages nodes poisoned_page)
       /\ [user_message "hi"; assistant_message JUndefined] = (prefix ++ rest)%list
       /\ Forall2 (renders_as Browser.env) prefix nodes
       /\ match r with
          | Ok _ => rest = []
          | Throw _ =>
              exists bad rest', rest = bad :: rest' /\ forall n, ~ renders_as Browser.env bad n
          end.
Proof.
  split; [reflexivity|].
  exact (rendering_stops_at_first_failure Browser.env poisoned_page _ eq_refl).
Defined.

Lemma counter_history_displayable : Forall (displayable Browser.env) counter_history.
Proof.
  repeat constructor; eexists _, _; (split; [reflexivity|]); eexists; reflexivity.
Defined.

Lemma counter_page_not_blank : all_whitespace (chatInput_value counter_page) = false.
Proof. reflexivity. Defined.

Lemma waiting_page_shows_the_typing_indicator_witness :
  storage_reliable Browser.env
  /\ conversationHistory counter_page = JArr counter_history
  /\ Forall (displayable Browser.env) counter_history
  /\ all_whitespace (chatInput_value counter_page) = false
  /\ renders Browser.env (JStr (trim (chatInput_value counter_page)))
  /\ (exists req, posted (handleSend Browser.env counter_page) = Some req)
  /\ chatInput_value (state_of (handleSend Browser.env counter_page)) = EmptyString
  /\ conversationHistory (state_of (handleSend Browser.env counter_page))
     = JArr (counter_history ++ [user_message counter_question])
  /\ localStorage (state_of (handleSend Browser.env counter_page)) !! STORAGE_KEY
     = Some (JSON_stringify Browser.env
               (JArr (counter_history ++ [user_message counter_question])))
  /\ currentAction (state_of (handleSend Browser.env counter_page)) = chat
  /\ exists nodes,
       chatMessages (state_of (handleSend Browser.env counter_page))
       = (nodes ++ [TypingIndicator])%list
       /\ Forall2 (renders_as Browser.env)
            (counter_history ++ [user_message counter_question]) nodes.
Proof.
  split; [exact browser_storage_reliable|]. split; [reflexivity|].
  split; [exact counter_history_displayable|]. split; [exact counter_page_not_blank|].
  split; [apply browser_renders_text|].
  exact (waiting_page_shows_the_typing_indicator Browser.env counter_page counter_history
           browser_storage_reliable eq_refl counter_history_displayable
           counter_page_not_blank (browser_renders_text _)).
Defined.

Lemma answered_send_ends_with_the_exchange_witness :
  storage_reliable Browser.env
  /\ conversationHistory counter_page = JArr counter_history
  /\ Forall (displayable Browser.env) counter_history
  /\ all_whitespace (chatInput_value counter_page) = false
  /\ renders Browser.env (JStr (trim (chatInput_value counter_page)))
  /\ response_ok (mkResponse 200) = true
  /\ get_prop (JObj [("reply", JStr "A D flip-flop.")]) "reply" = Ok (JStr "A D flip-flop.")
  /\ renders Browser.env (JStr "A D flip-flop.")
  /\ exists final,
       run (handleSend Browser.env counter_page)
         [FetchSettled (Ok (mkResponse 200));
          BodySettled (Ok (JObj [("reply", JStr "A D flip-flop.")])); NextTurn]
       = Done (Ok tt) final
       /\ conversationHistory final
          = JArr (counter_history
                  ++ [user_message counter_question;
                      assistant_message (JStr "A D flip-flop.")])
       /\ localStorage final !! STORAGE_KEY
          = Some (JSON_stringify Browser.env
                    (JArr (counter_history
                           ++ [user_message counter_question;
                               assistant_message (JStr "A D flip-flop.")])))
       /\ Forall2 (renders_as Browser.env)
            (counter_history
             ++ [user_message counter_question; assistant_message (JStr "A D flip-flop.")])
            (chatMessages final)
       /\ chatInput_value final = EmptyString
       /\ currentAction final = chat.
Proof.
  split; [exact browser_storage_reliable|]. split; [reflexivity|].
  split; [exact counter_history_displayable|]. split; [exact counter_page_not_blank|].
  split; [apply browser_renders_text|]. split; [reflexivity|]. split; [reflexivity|].
  split; [apply browser_renders_text|].
  exact (answered_send_ends_with_the_exchange Browser.env counter_page counter_history
           (mkResponse 200) (JObj [("reply", JStr "A D flip-flop.")]) (JStr "A D flip-flop.")
           browser_storage_reliable eq_refl counter_history_displayable
           counter_page_not_blank (browser_renders_text _) eq_refl eq_refl
           (browser_renders_text _)).
Defined.

Lemma greeting_page_posts :
  posted (handleSend Browser.env greeting_page)
  = Some (mode_request Browser.env chat "hi" (JArr [])).
Proof. vm_compute. reflexivity. Defined.

Lemma unreadable_body_appends_one_error_witness :
  posted (handleSend Browser.env greeting_page)
  = Some (mode_request Browser.env chat "hi" (JArr []))
  /\ response_ok (mkResponse 200) = true
  /\ body_failed (Ok JNull)
  /\ storage_reliable Browser.env
  /\ renders_text Browser.env
  /\ (forall s1 s2,
        ends has_array (fun _ => True)
          (fun s0 _ final => body_error_appended (Ok JNull) s0 final) s2
          (on_body (on_response (handleSend Browser.env greeting_page)
                      (Ok (mkResponse 200)) s1) (Ok JNull) s2))
  /\ (forall s1 s2,
        completes Browser.env (body_error_appended (Ok JNull)) s2
          (on_body (on_response (handleSend Browser.env greeting_page)
                      (Ok (mkResponse 200)) s1) (Ok JNull) s2)).
Proof.
  assert (Hb : body_failed (Ok JNull)) by (eexists; reflexivity).
  destruct (unreadable_body_appends_one_error Browser.env greeting_page (mkResponse 200)
              (Ok JNull) _ greeting_page_posts eq_refl Hb) as [A B].
  split; [exact greeting_page_posts|]. split; [reflexivity|]. split; [exact Hb|].
  split; [exact browser_storage_reliable|]. split; [exact browser_renders_text|].
  split; [exact A|exact (B browser_storage_reliable browser_renders_text)].
Defined.

Lemma rejected_reply_escapes_and_keeps_mode_witness :
  storage_reliable Browser.env
  /\ conversationHistory debug_page = JArr []
  /\ Forall (displayable Browser.env) []
  /\ all_whitespace (chatInput_value debug_page) = false
  /\ renders Browser.env (JStr (trim (chatInput_value debug_page)))
  /\ response_ok (mkResponse 200) = true
  /\ get_prop (JObj []) "reply" = Ok JUndefined
  /\ marked_parse Browser.env JUndefined
     = Throw "marked(): input parameter is undefined or null"
  /\ exists final,
       run (handleSend Browser.env debug_page)
         [FetchSettled (Ok (mkResponse 200)); BodySettled (Ok (JObj [])); NextTurn]
       = Done (Throw "marked(): input parameter is undefined or null") final
       /\ currentAction final = debug
       /\ conversationHistory final
          = JArr [user_message "hi"; assistant_message JUndefined;
                  assistant_message
                    (JStr "Error: marked(): input parameter is undefined or null")]
       /\ Forall2 (renders_as Browser.env) [user_message "hi"] (chatMessages final).
Proof.
  split; [exact browser_storage_reliable|]. split; [reflexivity|]. split; [constructor|].
  split; [reflexivity|]. split; [apply browser_renders_text|]. split; [reflexivity|].
  split; [reflexivity|]. split; [reflexivity|].
  exact (rejected_reply_escapes_and_keeps_mode Browser.env debug_page [] (mkResponse 200)
           (JObj []) JUndefined "marked(): input parameter is undefined or null"
           browser_storage_reliable eq_refl (List.Forall_nil _) eq_refl (browser_renders_text _)
           eq_refl eq_refl eq_refl).
Defined.

Lemma missing_content_is_not_rendered :
  forall n, ~ renders_as Browser.env (assistant_message JUndefined) n.
Proof.
  intros n (role & content & html & _ & Hc & Hhtml & _).
  injection Hc as <-. discriminate Hhtml.
Defined.

Lemma unrenderable_message_blocks_sends_witness :
  conversationHistory poisoned_page = JArr [user_message "hi"; assistant_message JUndefined]
  /\ In (assistant_message JUndefined) [user_message "hi"; assistant_message JUndefined]
  /\ (forall n, ~ renders_as Browser.env (assistant_message JUndefined) n)
  /\ all_whitespace (chatInput_value poisoned_page) = false
  /\ exists e s',
       handleSend Browser.env poisoned_page = Done (Throw e) s'
       /\ conversationHistory s'
          = JArr ([user_message "hi"; assistant_message JUndefined]
                  ++ [user_message (trim (chatInput_value poisoned_page))])
       /\ chatInput_value s' = chatInput_value poisoned_page
       /\ currentAction s' = currentAction poisoned_page.
Proof.
  assert (Hin : In (assistant_message JUndefined)
                  [user_message "hi"; assistant_message JUndefined])
    by (right; left; reflexivity).
  split; [reflexivity|]. split; [exact Hin|].
  split; [exact missing_content_is_not_rendered|]. split; [reflexivity|].
  exact (unrenderable_message_blocks_sends Browser.env poisoned_page _
           (assistant_message JUndefined) eq_refl Hin missing_content_is_not_rendered eq_refl).
Defined.

Lemma debug_page_posts :
  posted (handleSend Browser.env debug_page)
  = Some (mode_request Browser.env debug "hi" (JArr [])).
Proof. vm_compute. reflexivity. Defined.

Lemma debug_page_posts_again :
  posted (handleSend Browser.env
            (set_chatInput_value "again" (state_of (handleSend Browser.env debug_page))))
  = Some (mode_request Browser.env debug "again" (JArr [user_message "hi"])).
Proof. vm_compute. reflexivity. Defined.

Lemma mode_holds_while_send_is_in_flight_witness :
  posted (handleSend Browser.env debug_page)
  = Some (mode_request Browser.env debug "hi" (JArr []))
  /\ posted (handleSend Browser.env
               (set_chatInput_value "again" (state_of (handleSend Browser.env debug_page))))
     = Some (mode_request Browser.env debug "again" (JArr [user_message "hi"]))
  /\ url (mode_request Browser.env debug "again" (JArr [user_message "hi"]))
     = url (mode_request Browser.env debug "hi" (JArr []))
  /\ exists prior,
       mode_request Browser.env debug "again" (JArr [user_message "hi"])
       = mode_request Browser.env (currentAction debug_page) (trim "again") prior.
Proof.
  split; [exact debug_page_posts|]. split; [exact debug_page_posts_again|].
  exact (mode_holds_while_send_is_in_flight Browser.env debug_page "again" _ _
           debug_page_posts debug_page_posts_again).
Defined.

(** * The ends of a send at concrete inputs *)

Lemma debug_send_posts_once_and_resets_on_return_witness :
  all_whitespace (chatInput_value greeting_page) = false
  /\ posted (debugBtn_click Browser.env greeting_page)
     = Some (mkRequest "http://127.0.0.1:8000/debug" "POST" "application/json"
               (JSON_stringify Browser.env
                  (JObj [("code", JStr (trim (chatInput_value greeting_page)))])))
  /\ currentAction (state_of (debugBtn_click Browser.env greeting_page)) = debug
  /\ (forall r s',
        ends (fun _ => True) (fun _ => True) reset_or_escaped s'
          (on_response (debugBtn_click Browser.env greeting_page) r s'))
  /\ (forall r s',
        healthy Browser.env s' ->
        completes Browser.env (fun _ final => currentAction final = chat) s'
          (on_response (debugBtn_click Browser.env greeting_page) r s'))
  /\ posted (debugBtn_click (Browser.with_quota (Some 0%nat)) greeting_page) = None
  /\ exists e s',
       debugBtn_click (Browser.with_quota (Some 0%nat)) greeting_page = Done (Throw e) s'
       /\ addMessage (Browser.with_quota (Some 0%nat)) (JStr "user")
            (JStr (trim (chatInput_value greeting_page)))
            (set_currentAction debug greeting_page) = Done (Throw e) s'
       /\ currentAction s' = debug.
Proof.
  destruct (debug_send_posts_once_and_resets_on_return Browser.env greeting_page
              greeting_not_blank) as (_ & Hany & Hnormal).
  destruct (Hnormal browser_storage_reliable browser_renders_text greeting_page_healthy)
    as [Hposted Hcompletes].
  destruct (Hany _ Hposted) as (_ & Hmode & Hends).
  assert (Hnone : posted (debugBtn_click (Browser.with_quota (Some 0%nat)) greeting_page)
                  = None) by (vm_compute; reflexivity).
  split; [exact greeting_not_blank|]. split; [exact Hposted|].
  split; [exact Hmode|]. split; [exact Hends|]. split; [exact Hcompletes|].
  split; [exact Hnone|].
  exact (proj1 (debug_send_posts_once_and_resets_on_return (Browser.with_quota (Some 0%nat))
                  greeting_page greeting_not_blank) Hnone).
Defined.

Lemma failed_request_appends_one_error_witness :
  all_whitespace (chatInput_value greeting_page) = false
  /\ (exists req, posted (handleSend Browser.env greeting_page) = Some req)
  /\ conversationHistory (state_of (handleSend Browser.env greeting_page))
     = JArr [user_message "hi"]
  /\ request_failed (Ok (mkResponse 500))
  /\ (forall s',
        ends (fun _ => True) (fun _ => True)
          (failed_send_outcome Browser.env (Ok (mkResponse 500))) s'
          (on_response (handleSend Browser.env greeting_page) (Ok (mkResponse 500)) s'))
  /\ (forall s',
        healthy Browser.env s' ->
        completes Browser.env (error_appended (Ok (mkResponse 500))) s'
          (on_response (handleSend Browser.env greeting_page) (Ok (mkResponse 500)) s')).
Proof.
  assert (Hfail : request_failed (Ok (mkResponse 500))) by reflexivity.
  destruct (failed_request_appends_one_error Browser.env greeting_page greeting_not_blank)
    as [Hany Hnormal].
  destruct (Hnormal browser_storage_reliable browser_renders_text greeting_page_healthy)
    as [[req Hposted] Hcompletes].
  destruct (Hany req Hposted) as (l & Hh & Hh1 & Hends).
  injection Hh as <-.
  split; [exact greeting_not_blank|]. split; [exists req; exact Hposted|].
  split; [exact Hh1|]. split; [exact Hfail|].
  split; [intros s'; exact (proj1 (Hends _ s' Hfail))|].
  intros s'. exact (Hcompletes _ s' Hfail).
Defined.

Lemma append_raises_storage_errors_witness :
  exists r s',
    addMessage (Browser.with_quota (Some 0%nat)) (JStr "user") (JStr "hi") (fresh_page ∅ 1024)
    = Done r s'
    /\ console_errors s' = []
    /\ conversationHistory s' = JArr [user_message "hi"]
    /\ r = Throw "The quota has been exceeded."
    /\ localStorage s' = ∅
    /\ chatMessages s' = [].
Proof.
  destruct (append_raises_storage_errors (Browser.with_quota (Some 0%nat))
              (JStr "user") (JStr "hi") (fresh_page ∅ 1024))
    as (r & s' & Hrun & Hlog & Hh & Hq).
  exists r, s'. split; [exact Hrun|]. split; [exact Hlog|]. split; [exact Hh|]. exact Hq.
Defined.

(** * Where the ends of a send depart from their description *)

(** C3 at a concrete response: the debug send of the greeting is answered
    with the status 200 and a body without [reply].  The send ends with the
    exception of [marked] and the mode is still [debug], not [chat]; once a
    new chat is started, the next plain send goes to the debug endpoint.
    With a store that has no room at all, the debug send of the greeting
    issues no request. *)
Lemma debug_mode_outlives_an_escaped_send :
  all_whitespace (chatInput_value greeting_page) = false
  /\ posted (debugBtn_click (Browser.with_quota (Some 0%nat)) greeting_page) = None
  /\ unanswered_debug_send
  = Done (Throw "marked(): input parameter is undefined or null")
      (state_of unanswered_debug_send)
  /\ currentAction (state_of unanswered_debug_send) = debug
  /\ debug <> chat
  /\ posted (sendBtn_click Browser.env page_after_new_chat)
     = Some (mkRequest "http://127.0.0.1:8000/debug" "POST" "application/json"
               (JSON_stringify Browser.env (JObj [("code", JStr "again")]))).
Proof.
  split; [reflexivity|]. split; [vm_compute; reflexivity|].
  split; [vm_compute; reflexivity|]. split; [vm_compute; reflexivity|].
  split; [discriminate|vm_compute; reflexivity].
Qed.

(** C4 at a concrete failure: the store has room for the user message of
    the greeting and not for the error message.  The request is posted and
    rejected, and the send ends with the exception of the store, which is
    not caught: the error message is in the history in memory only. *)
Lemma storage_error_escapes_failed_send :
  posted (handleSend small_store greeting_page)
  = Some (mode_request small_store chat "hi" (JArr []))
  /\ request_failed (Throw "Failed to fetch")
  /\ rejected_send
     = Done (Throw "The quota has been exceeded.") (state_of rejected_send)
  /\ conversationHistory (state_of rejected_send)
     = JArr [user_message "hi"; assistant_message (JStr "Error: Failed to fetch")]
  /\ localStorage (state_of rejected_send) !! STORAGE_KEY
     = Some (JSON_stringify small_store (JArr [user_message "hi"])).
Proof.
  split; [vm_compute; reflexivity|]. split; [exact I|].
  split; [vm_compute; reflexivity|]. split; [vm_compute; reflexivity|].
  vm_compute; reflexivity.
Qed.
